(** * pdf-chatbot: the document-to-retrieval pipeline

    A shallow embedding of [utils/chunking.py], [utils/pdf_processor.py],
    [utils/rag_chain.py] and the handlers of [app.py], followed by the
    properties of the pipeline that the specification states.

    Python values are modelled as follows.  An [int] is a [Z].  A [str] is a
    [string], one character per code point.  A [dict] with string keys is a
    [gmap string _]; a dict with a fixed set of keys is a record.  A list
    that is only appended to is a Rocq list.  An exception is identified by
    the name of its class.  A function body is a statement of the monad
    [Stmt]: it runs on a state, and ends by falling through, by [return] or
    by raising.  The file system is a finite map from path names to file
    contents together with the set of directories.  The third-party
    libraries (pdfplumber, PyPDF2, FAISS, Chroma, DocArray, json, the
    language models, the retriever and the conversational chain) are
    parameters, gathered in type classes: each call gives a value or
    raises. *)

From Stdlib Require Import ZArith Ascii String.
From stdpp Require Import gmap strings list pretty.

Open Scope string_scope.
Open Scope list_scope.
Open Scope Z_scope.

(* ===================================================================== *)
(** * Python base layer *)
(* ===================================================================== *)

Module Py.

(** An exception, identified by the name of its class. *)
Record exn := Exn { exn_class : string }.

#[global] Instance exn_eq_dec : EqDecision exn.
Proof. solve_decision. Defined.

Definition TypeError : exn := Exn "TypeError".
Definition KeyError : exn := Exn "KeyError".
Definition RuntimeError : exn := Exn "RuntimeError".
Definition FileNotFoundError : exn := Exn "FileNotFoundError".
Definition IsADirectoryError : exn := Exn "IsADirectoryError".
Definition FileExistsError : exn := Exn "FileExistsError".
Definition NotADirectoryError : exn := Exn "NotADirectoryError".
Definition AttributeError : exn := Exn "AttributeError".

(** [isinstance(e, TypeError)], as an [except TypeError] clause tests it. *)
Definition is_TypeError (e : exn) : bool := bool_decide (exn_class e = "TypeError").

(** [isinstance(e, FileExistsError)] *)
Definition is_FileExistsError (e : exn) : bool :=
  bool_decide (exn_class e = "FileExistsError").

(** The result of a call: a value, or an exception that left the callee. *)
Inductive Res (A : Type) : Type :=
| Ok (a : A)
| Err (e : exn).
Arguments Ok {A} a.
Arguments Err {A} e.

(** How a block of statements ends: control reaches the statement after it
    ([Next]), a [return] was executed, or an exception is on its way up. *)
Inductive Outcome (R A : Type) : Type :=
| Next (a : A)
| Return (r : R)
| Raise (e : exn).
Arguments Next {R A} a.
Arguments Return {R A} r.
Arguments Raise {R A} e.

(** A block of statements inside a function that returns an [R], running
    on a state [S].  The state a block leaves behind stays when the block
    raises: a handler sees every effect of the block up to the exception. *)
Definition Stmt (S R A : Type) : Type := S → Outcome R A * S.

Definition ret {S R A} (a : A) : Stmt S R A := λ s, (Next a, s).

Definition bind {S R A B} (m : Stmt S R A) (k : A → Stmt S R B) : Stmt S R B :=
  λ s, match m s with
       | (Next a, s') => k a s'
       | (Return r, s') => (Return r, s')
       | (Raise e, s') => (Raise e, s')
       end.

#[global] Instance stmt_ret {S R} : MRet (Stmt S R) := λ A, ret.
#[global] Instance stmt_bind {S R} : MBind (Stmt S R) := λ A B k m, bind m k.

(** [pass] *)
Definition pass {S R} : Stmt S R unit := ret ().

(** [return r] *)
Definition return_ {S R A} (r : R) : Stmt S R A := λ s, (Return r, s).

(** [raise e] *)
Definition raise {S R A} (e : exn) : Stmt S R A := λ s, (Raise e, s).

(** The value of a library call, as a statement. *)
Definition of_res {S R A} (r : Res A) : Stmt S R A :=
  match r with Ok a => ret a | Err e => raise e end.

Definition get_state {S R} : Stmt S R S := λ s, (Next s, s).
Definition modify_state {S R} (f : S → S) : Stmt S R unit := λ s, (Next (), f s).

(** [try: body  except Exception as e: handler e].  Every exception of the
    model is an [Exception]; a [return] in [body] is not caught. *)
Definition try_except {S R A} (body : Stmt S R A) (handler : exn → Stmt S R A)
    : Stmt S R A :=
  λ s, match body s with
       | (Raise e, s') => handler e s'
       | other => other
       end.

(** [if c: body] with no [else]. *)
Definition when {S R} (c : bool) (body : Stmt S R unit) : Stmt S R unit :=
  if c then body else pass.

(** Running a function body: falling off its end returns [None]. *)
Definition run_function {S R} (body : Stmt S R unit) (s : S) : Res (option R) * S :=
  match body s with
  | (Next _, s') => (Ok None, s')
  | (Return r, s') => (Ok (Some r), s')
  | (Raise e, s') => (Err e, s')
  end.

(** A call of a function from inside another function's body. *)
Definition call {S R R'} (body : Stmt S R' unit) : Stmt S R (option R') :=
  λ s, match run_function body s with
       | (Ok r, s') => (Next r, s')
       | (Err e, s') => (Raise e, s')
       end.

(** [len(s)] *)
Definition len (s : string) : Z := Z.of_nat (String.length s).

(** Normalisation of one bound of a slice of a sequence of length [n]:
    a negative index counts from the end, and both ends are clamped. *)
Definition slice_bound (n i : Z) : Z :=
  if i <? 0 then Z.max 0 (i + n) else Z.min i n.

(** [s[a:b]] *)
Definition slice (s : string) (a b : Z) : string :=
  let n := len s in
  let lo := slice_bound n a in
  let hi := slice_bound n b in
  string_of_list_ascii
    (take (Z.to_nat (hi - lo)) (drop (Z.to_nat lo) (list_ascii_of_string s))).

(** [s[a:]] *)
Definition slice_from (s : string) (a : Z) : string := slice s a (len s).

(** ["".join(l)] *)
Definition join (l : list string) : string := foldr String.append "" l.

(** [c.isspace()] for the code points below 256; it is also what [\s]
    matches in a [str] pattern. *)
Definition is_space (c : ascii) : bool :=
  let n := nat_of_ascii c in
  ((9 <=? n) && (n <=? 13) || (28 <=? n) && (n <=? 32) || (n =? 133) || (n =? 160))%nat.

Fixpoint lstrip_chars (l : list ascii) : list ascii :=
  match l with
  | [] => []
  | c :: l' => if is_space c then lstrip_chars l' else l
  end.

(** [s.strip()] *)
Definition strip (s : string) : string :=
  string_of_list_ascii
    (rev (lstrip_chars (rev (lstrip_chars (list_ascii_of_string s))))).

(** [strip] on lists of characters. *)
Definition strip_chars (l : list ascii) : list ascii :=
  rev (lstrip_chars (rev (lstrip_chars l))).

(** [re.sub(r"\s+", " ", s)] on the characters of [s]; [in_run] says that
    the previous character was white space. *)
Fixpoint collapse_spaces (in_run : bool) (l : list ascii) : list ascii :=
  match l with
  | [] => []
  | c :: l' =>
      if is_space c then
        if in_run then collapse_spaces true l' else " "%char :: collapse_spaces true l'
      else c :: collapse_spaces false l'
  end.

(** What a text-mode read makes of the characters a file holds: each
    ["\r\n"] and each other ["\r"] becomes ["\n"].  [after_cr] says that the
    character before the list was a ["\r"]. *)
Fixpoint universal_newlines (after_cr : bool) (l : list ascii) : list ascii :=
  match l with
  | [] => []
  | c :: l' =>
      if decide (c = "013"%char) then "010"%char :: universal_newlines true l'
      else if decide (c = "010"%char) then
        if after_cr then universal_newlines false l'
        else "010"%char :: universal_newlines false l'
      else c :: universal_newlines false l'
  end.

(** [f.read()] on a file opened with [open(..., "r", encoding="utf-8")]
    that holds the text [content]. *)
Definition read_text (content : string) : string :=
  string_of_list_ascii (universal_newlines false (list_ascii_of_string content)).

Definition lower_char (c : ascii) : ascii :=
  let n := nat_of_ascii c in
  if ((65 <=? n) && (n <=? 90) || (192 <=? n) && (n <=? 214)
      || (216 <=? n) && (n <=? 222))%nat
  then ascii_of_nat (n + 32) else c.

(** [s.lower()] for the code points below 256. *)
Definition lower (s : string) : string :=
  string_of_list_ascii (lower_char <$> list_ascii_of_string s).

(** [s.split("/")[-1]]: [cur] is the segment read so far. *)
Fixpoint last_segment (cur : list ascii) (l : list ascii) : list ascii :=
  match l with
  | [] => cur
  | c :: l' => if decide (c = "/"%char) then last_segment [] l'
               else last_segment (cur ++ [c]) l'
  end.

Definition split_last (s : string) : string :=
  string_of_list_ascii (last_segment [] (list_ascii_of_string s)).

(** The part of [l] after the last [sep]; [cur] is what was read since
    the last one. *)
Fixpoint last_field (sep : ascii) (cur l : list ascii) : list ascii :=
  match l with
  | [] => cur
  | c :: l' => if decide (c = sep) then last_field sep [] l'
               else last_field sep (cur ++ [c]) l'
  end.

(** [s.rsplit(sep, 1)[1]] for an [s] that holds [sep]. *)
Definition rsplit_last (sep : ascii) (s : string) : string :=
  string_of_list_ascii (last_field sep [] (list_ascii_of_string s)).

(** [os.path.join(a, b)] on a POSIX system. *)
Definition path_join (a b : string) : string :=
  if String.prefix "/" b then b
  else if decide (a = "") then b
  else if decide (slice a (-1) (len a) = "/") then a +:+ b
  else a +:+ "/" +:+ b.

(** Unfolding the statements of the monad on a given state. *)
Ltac run_stmt :=
  cbv [mbind mret stmt_bind stmt_ret bind ret try_except return_ raise pass
       get_state modify_state of_res call run_function when fst snd].

(** Closing an equation between closed terms by evaluation. *)
Ltac eval_eq :=
  lazymatch goal with
  | |- ?l = ?r => vm_cast_no_check (eq_refl r)
  end.

(** Closing an inequation between closed terms by evaluation. *)
Ltac eval_ne :=
  apply (proj1 (bool_decide_eq_false _)); eval_eq.

(** A value stored in a document's metadata or read back from JSON. *)
Inductive PyVal : Type :=
| VNone
| VInt (z : Z)
| VStr (s : string).

#[global] Instance PyVal_eq_dec : EqDecision PyVal.
Proof. solve_decision. Defined.

End Py.

Import Py.

(* ===================================================================== *)
(** * The data passed along the pipeline *)
(* ===================================================================== *)

Module Data.

(** A page as the extractor produces it:
    [{"page": int, "text": str, "source": str}]. *)
Record Page := mkPage { page : Z; text : string; source : string }.

(** [Document(page_content=..., metadata={...})] of langchain. *)
Record Document := mkDocument {
  page_content : string;
  metadata : gmap string PyVal
}.

#[global] Instance Page_eq_dec : EqDecision Page.
Proof. solve_decision. Defined.
#[global] Instance Document_eq_dec : EqDecision Document.
Proof. solve_decision. Defined.

End Data.

Import Data.

(* ===================================================================== *)
(** * utils/chunking.py *)
(* ===================================================================== *)

Module Chunking.

(** The [while start < n] loop of [_chunk_text].  [fuel] bounds the number
    of iterations; [None] means the bound was reached with the loop still
    running. *)
Fixpoint chunk_loop (fuel : nat) (text : string) (n size step start : Z)
    (chunks : list string) : option (list string) :=
  if start <? n then
    match fuel with
    | O => None
    | S fuel' =>
        let end_ := Z.min n (start + size) in
        let chunks := chunks ++ [slice text start end_] in
        if end_ >=? n then Some chunks
        else chunk_loop fuel' text n size step (start + step) chunks
    end
  else Some chunks.

(** [_chunk_text(text, size, overlap)].  The loop is given [len(text)]
    iterations. *)
Definition _chunk_text (text : string) (size overlap : Z) : option (list string) :=
  if decide (text = "") then Some []
  else
    let n := len text in
    let step := Z.max 1 (size - overlap) in
    chunk_loop (String.length text) text n size step 0 [].

(** [f"{source}-p{page_no}-c{idx}"] *)
Definition format_chunk_id (source : string) (page_no : Z) (idx : nat) : string :=
  source +:+ "-p" +:+ pretty page_no +:+ "-c" +:+ pretty idx.

(** The [Document] built for chunk [ch] at position [idx] of page [p]. *)
Definition chunk_document (p : Page) (idx : nat) (ch : string) : Document :=
  {| page_content := ch;
     metadata := <["page" := VInt (page p)]>
                   (<["source" := VStr (source p)]>
                      (<["chunk_id" := VStr (format_chunk_id (source p) (page p) idx)]>
                         ∅)) |}.

(** The documents appended for one page: the inner
    [for idx, ch in enumerate(...)] loop. *)
Definition page_documents (p : Page) (chunks : list string) : list Document :=
  imap (chunk_document p) chunks.

(** The outer [for p in pages] loop, [docs] being the list built so far. *)
Fixpoint build_documents_loop (pages : list Page) (chunk_size overlap : Z)
    (docs : list Document) : option (list Document) :=
  match pages with
  | [] => Some docs
  | p :: rest =>
      chunks ← _chunk_text (text p) chunk_size overlap;
      build_documents_loop rest chunk_size overlap (docs ++ page_documents p chunks)
  end.

Definition build_documents (pages : list Page) (chunk_size overlap : Z)
    : option (list Document) :=
  build_documents_loop pages chunk_size overlap [].

(** What a caller of [build_documents] gets.  No statement of
    [build_documents] or of [_chunk_text] raises on [int] and [str]
    arguments, so a call that finishes hands its list back. *)
Definition call_build_documents (pages : list Page) (chunk_size overlap : Z)
    : option (Res (list Document)) :=
  docs ← build_documents pages chunk_size overlap; Some (Ok docs).

(** The chunk emitted at iteration [j] of a loop started at [start]. *)
Definition chunk_at (text : string) (size step start : Z) (j : nat) : string :=
  slice text (start + Z.of_nat j * step)
    (Z.min (len text) (start + Z.of_nat j * step + size)).

(** Removing from every chunk but the first its leading [overlap]
    characters and concatenating what is left. *)
Definition deoverlap (overlap : Z) (chunks : list string) : string :=
  match chunks with
  | [] => ""
  | c :: cs => join (c :: ((λ c', slice_from c' overlap) <$> cs))
  end.

(** What identifies a document within a source and page: the three
    metadata entries. *)
Definition doc_key (d : Document) : option PyVal * option PyVal * option PyVal :=
  (metadata d !! "source", metadata d !! "page", metadata d !! "chunk_id").

End Chunking.

(* ===================================================================== *)
(** * utils/pdf_processor.py *)
(* ===================================================================== *)

Module PdfProcessor.

(** One run of an extraction library over a file: the values of
    [page.extract_text()] for the pages it got through, in order, and the
    exception that stopped it, if one did ([pdfplumber.open] or
    [PdfReader(...)] raising gives no page at all). *)
Record ExtractorRun := mkRun {
  extracted : list (option string);
  failure : option exn
}.

(** The two extraction libraries.  [PdfReader] is [None] when the import
    of PyPDF2 failed. *)
Class PdfLibs := {
  pdfplumber_run : string → ExtractorRun;
  PdfReader : option (string → ExtractorRun)
}.

(** [_clean_text(text)] *)
Definition _clean_text (text : string) : string :=
  if decide (text = "") then ""
  else strip (string_of_list_ascii (collapse_spaces false (list_ascii_of_string text))).

(** The body of either [for i, page in enumerate(..., start=1)] loop: the
    state is the list [pages]. *)
Fixpoint append_pages {R} (file_path : string) (i : Z) (texts : list (option string))
    : Stmt (list Page) R unit :=
  match texts with
  | [] => pass
  | t :: rest =>
      let txt := default "" t in
      modify_state (λ pages,
        pages ++ [ {| page := i; text := _clean_text txt;
                      source := split_last file_path |} ]);;
      append_pages file_path (i + 1) rest
  end.

(** Opening the file with a library and looping over its pages. *)
Definition extract_with {R} (run : ExtractorRun) (file_path : string)
    : Stmt (list Page) R unit :=
  append_pages file_path 1 (extracted run);;
  match failure run with
  | Some e => raise e
  | None => pass
  end.

(** The body of [extract_text_by_page], from the second line on. *)
Definition extract_text_by_page_body `{PdfLibs} (file_path : string)
    : Stmt (list Page) (list Page) unit :=
  try_except
    (extract_with (pdfplumber_run file_path) file_path;;
     pages ← get_state; return_ pages)
    (λ _, pass);;
  match PdfReader with
  | Some reader =>
      try_except
        (extract_with (reader file_path) file_path;;
         pages ← get_state; return_ pages)
        (λ _, pass)
  | None => pass
  end;;
  pages ← get_state; return_ pages.

(** [extract_text_by_page(file_path)]: the body run on [pages = []]. *)
Definition extract_text_by_page `{PdfLibs} (file_path : string)
    : Res (option (list Page)) :=
  fst (run_function (extract_text_by_page_body file_path) []).

(** The pages one run contributes to the list. *)
Definition contribution (file_path : string) (run : ExtractorRun) : list Page :=
  imap (λ i t, {| page := Z.of_nat i + 1; text := _clean_text (default "" t);
                  source := split_last file_path |})
       (extracted run).

(** What the fallback library adds to the list, if it is reached. *)
Definition fallback_contribution `{PdfLibs} (file_path : string) : list Page :=
  match failure (pdfplumber_run file_path), PdfReader with
  | Some _, Some reader => contribution file_path (reader file_path)
  | _, _ => []
  end.

(** A file on which pdfplumber raises after its first page and PyPDF2
    reads two pages, the second without text. *)
Definition interrupted_libs : PdfLibs :=
  {| pdfplumber_run := λ _, mkRun [Some "first  page "] (Some (Exn "PDFSyntaxError"));
     PdfReader := Some (λ _, mkRun [Some "first page"; None] None) |}.

(** pdfplumber reads both pages of the file. *)
Definition plumber_ok_libs : PdfLibs :=
  {| pdfplumber_run := λ _, mkRun [Some "one"; None] None;
     PdfReader := None |}.

(** pdfplumber cannot open the file; PyPDF2 reads one page and raises on
    the second. *)
Definition plumber_broken_libs : PdfLibs :=
  {| pdfplumber_run := λ _, mkRun [] (Some (Exn "PDFSyntaxError"));
     PdfReader := Some (λ _, mkRun [Some "one"] (Some (Exn "PdfReadError"))) |}.

(** A list of characters in which every white-space character is a single
    space that does not follow another one; [prev] says that the
    character before the list is a space. *)
Fixpoint single_spaced (prev : bool) (l : list ascii) : Prop :=
  match l with
  | [] => True
  | c :: l' =>
      if is_space c then c = " "%char ∧ prev = false ∧ single_spaced true l'
      else single_spaced false l'
  end.

(** A text in the form [_clean_text] produces. *)
Definition clean (l : list ascii) : Prop :=
  single_spaced false l
  ∧ (∀ c, head l = Some c → is_space c = false)
  ∧ (∀ c, last l = Some c → is_space c = false).

End PdfProcessor.

(* ===================================================================== *)
(** * utils/rag_chain.py *)
(* ===================================================================== *)

Module RagChain.

(** The file system: the directories, and the regular files with their
    contents.  A file or a directory goes by the spelling of its path:
    [.] and [..], doubled or trailing slashes and links are not resolved,
    the root and the working directory are there without being listed.
    A file holds text: what was written in text mode, which on a POSIX
    system is written as it is, so that every file decodes when it is
    read in text mode; what a read in text mode does to the ends of lines
    is [Py.read_text]. *)
Record FS := mkFS {
  dirs : gset string;
  files : gmap string string
}.

(** The three backends, and the tag each one leaves in [store_type.txt]. *)
Inductive Backend : Type := Faiss | Chroma | DocArray.

#[global] Instance Backend_eq_dec : EqDecision Backend.
Proof. solve_decision. Defined.

Definition backend_tag (b : Backend) : string :=
  match b with
  | Faiss => "faiss"
  | Chroma => "chroma"
  | DocArray => "docarray"
  end.

(** The calls into the vector-store libraries, recorded as they are made. *)
Inductive LibCall : Type :=
| FaissFromDocuments
| FaissSaveLocal
| ChromaFromDocuments
| ChromaPersist
| DocArrayFromDocuments
| FaissLoadLocal (allow_dangerous_deserialization : bool)
| ChromaOpen.

#[global] Instance LibCall_eq_dec : EqDecision LibCall.
Proof. solve_decision. Defined.

(** The state the functions of this module run on: the file system and the
    library calls made so far, oldest first. *)
Record World := mkWorld {
  fs : FS;
  trace : list LibCall
}.

(** A record of [docs.json] as [json.load] gives it back: a dict in which
    either key may be missing. *)
Record RawDoc := mkRawDoc {
  raw_page_content : option string;
  raw_metadata : option (gmap string PyVal)
}.

#[global] Instance RawDoc_eq_dec : EqDecision RawDoc.
Proof. solve_decision. Defined.

(** The libraries behind the vector store.  A constructor that embeds
    documents works in memory; a call given a directory may read and write
    the file system.  [FAISS_load_local] takes the flag the keyword
    argument [allow_dangerous_deserialization] was given, [false] when the
    call is made without it.  The last field belongs to the operating
    system: [mkdir_refused p fs] is the exception with which it refuses to
    create the directory [p] for a reason the file system of the model
    does not show (permissions, a full or read-only disk, a name that is
    too long), if it refuses. *)
Class VectorLibs := {
  Embeddings : Type;
  FaissStore : Type;
  ChromaStore : Type;
  DocArrayStore : Type;
  FAISS_from_documents : list Document → Embeddings → Res FaissStore;
  FAISS_save_local : FaissStore → string → FS → Res unit * FS;
  FAISS_load_local : string → Embeddings → bool → FS → Res FaissStore;
  Chroma_from_documents : list Document → Embeddings → string → FS → Res ChromaStore * FS;
  Chroma_persist : ChromaStore → FS → Res unit * FS;
  Chroma_open : string → Embeddings → FS → Res ChromaStore * FS;
  DocArray_from_documents : list Document → Embeddings → Res DocArrayStore;
  json_dump : list RawDoc → string;
  json_load : string → Res (list RawDoc);
  mkdir_refused : string → FS → option exn
}.

(** What [build_and_save_store] and [load_store] return. *)
Inductive Store `{VectorLibs} : Type :=
| FaissIndex (s : FaissStore)
| ChromaCollection (s : ChromaStore)
| DocArrayIndex (s : DocArrayStore).

Definition store_backend `{VectorLibs} (s : Store) : Backend :=
  match s with
  | FaissIndex _ => Faiss
  | ChromaCollection _ => Chroma
  | DocArrayIndex _ => DocArray
  end.

(** A library call that touches no file: it is recorded, and its result is
    its value or the exception it raises. *)
Definition lib_call {R A} (c : LibCall) (r : Res A) : Stmt World R A :=
  modify_state (λ w, {| fs := fs w; trace := trace w ++ [c] |});;
  of_res r.

(** A library call that may read and write files. *)
Definition lib_call_fs {R A} (c : LibCall) (f : FS → Res A * FS) : Stmt World R A :=
  modify_state (λ w, {| fs := fs w; trace := trace w ++ [c] |});;
  w ← get_state;
  modify_state (λ w, {| fs := snd (f (fs w)); trace := trace w |});;
  of_res (fst (f (fs w))).

(** The directories above a path, outermost first, as repeated
    [os.path.split] finds them: the part before each ["/"] that follows a
    character other than ["/"] and is followed by one.  [seen] is the part
    of the path already read. *)
Fixpoint heads (seen rest : list ascii) : list string :=
  match rest with
  | [] => []
  | c :: rest' =>
      (if bool_decide (c = "/"%char)
          && match last seen with
             | Some c' => bool_decide (c' ≠ "/"%char)
             | None => false
             end
          && bool_decide (Exists (λ c', c' ≠ "/"%char) rest')
       then [string_of_list_ascii seen] else [])
      ++ heads (seen ++ [c]) rest'
  end.

(** The directories above [name], nearest first. *)
Definition ancestors (name : string) : list string :=
  reverse (heads [] (list_ascii_of_string name)).

(** [os.path.exists(p)] *)
Definition path_exists (p : string) (w : World) : bool :=
  bool_decide (p ∈ dirs (fs w)) || bool_decide (is_Some (files (fs w) !! p)).

(** [os.mkdir(p)], [parent] being the directory above [p] when [p] names
    one. *)
Definition mkdir `{VectorLibs} {R} (parent : option string) (p : string)
    : Stmt World R unit :=
  w ← get_state;
  if decide (p = "") then raise FileNotFoundError
  else
    match parent with
    | Some d =>
        if decide (is_Some (files (fs w) !! d)) then raise NotADirectoryError
        else if decide (d ∈ dirs (fs w)) then pass
        else raise FileNotFoundError
    | None => pass
    end;;
    if path_exists p w then raise FileExistsError
    else
      match mkdir_refused p (fs w) with
      | Some e => raise e
      | None =>
          modify_state (λ w, {| fs := {| dirs := {[p]} ∪ dirs (fs w);
                                         files := files (fs w) |};
                                trace := trace w |})
      end.

(** The body of [os.makedirs(name, exist_ok=True)] for a [name] below the
    directories [above], nearest first: the directory above is made first
    when it does not exist, a [FileExistsError] of that being passed over;
    then [name] is made, and an error of this [mkdir] is passed over when
    [name] is a directory.  What was made before an exception stays. *)
Fixpoint makedirs_below `{VectorLibs} {R} (above : list string) (name : string)
    : Stmt World R unit :=
  match above with
  | [] => pass
  | head :: above' =>
      w ← get_state;
      when (negb (path_exists head w))
        (try_except (makedirs_below above' head)
           (λ e, if is_FileExistsError e then pass else raise e))
  end;;
  try_except (mkdir (head above) name)
    (λ e, w ← get_state;
          if decide (name ∈ dirs (fs w)) then pass else raise e).

(** [os.makedirs(path, exist_ok=True)] *)
Definition makedirs `{VectorLibs} {R} (path : string) : Stmt World R unit :=
  makedirs_below (ancestors path) path.

(** What [os.makedirs] may have done between two states: directories
    made, no file touched and no library called. *)
Definition made_dirs (w w' : World) : Prop :=
  files (fs w') = files (fs w)
  ∧ trace w' = trace w
  ∧ dirs (fs w) ⊆ dirs (fs w').

(** [with open(os.path.join(path, name), "w", encoding="utf-8") as f:
    f.write(content)] *)
Definition write_file {R} (path name content : string) : Stmt World R unit :=
  w ← get_state;
  let target := path_join path name in
  if decide (target ∈ dirs (fs w)) then raise IsADirectoryError
  else if decide (path ∈ dirs (fs w)) then
    modify_state (λ w, {| fs := {| dirs := dirs (fs w);
                                   files := <[target := content]> (files (fs w)) |};
                          trace := trace w |})
  else if decide (is_Some (files (fs w) !! path)) then raise NotADirectoryError
  else raise FileNotFoundError.

(** [with open(os.path.join(path, name), "r", encoding="utf-8") as f:
    f.read()] *)
Definition read_file {R} (path name : string) : Stmt World R string :=
  w ← get_state;
  let target := path_join path name in
  if decide (target ∈ dirs (fs w)) then raise IsADirectoryError
  else match files (fs w) !! target with
       | Some content => mret (read_text content)
       | None => raise FileNotFoundError
       end.

(** [_write_store_type(path, store_type)] *)
Definition _write_store_type `{VectorLibs} (path store_type : string)
    : Stmt World unit unit :=
  makedirs path;;
  write_file path "store_type.txt" store_type.

(** [_read_store_type(path)] *)
Definition _read_store_type (path : string) : Stmt World (option string) unit :=
  try_except
    (content ← read_file path "store_type.txt";
     return_ (Some (strip content)))
    (λ _, return_ None).

(** [[{"page_content": d.page_content, "metadata": d.metadata}
     for d in documents]] *)
Definition raw_of_documents (documents : list Document) : list RawDoc :=
  (λ d, {| raw_page_content := Some (page_content d);
           raw_metadata := Some (metadata d) |}) <$> documents.

(** [[Document(page_content=r["page_content"],
               metadata=r.get("metadata", {})) for r in raw]] *)
Fixpoint documents_of_raw {R} (raw : list RawDoc) : Stmt World R (list Document) :=
  match raw with
  | [] => mret []
  | r :: rest =>
      match raw_page_content r with
      | None => raise KeyError
      | Some content =>
          docs ← documents_of_raw rest;
          mret ({| page_content := content;
                   metadata := default ∅ (raw_metadata r) |} :: docs)
      end
  end.

Section Functions.
Context `{VectorLibs}.

(** [build_and_save_store(documents, embeddings, path, prefer)] *)
Definition build_and_save_store (documents : list Document) (embeddings : Embeddings)
    (path prefer : string) : Stmt World Store unit :=
  makedirs path;;
  when (bool_decide (lower prefer = "faiss"))
    (try_except
       (store ← lib_call FaissFromDocuments (FAISS_from_documents documents embeddings);
        lib_call_fs FaissSaveLocal (FAISS_save_local store path);;
        call (_write_store_type path "faiss");;
        return_ (FaissIndex store))
       (λ _, pass));;
  try_except
    (store ← lib_call_fs ChromaFromDocuments
               (Chroma_from_documents documents embeddings path);
     lib_call_fs ChromaPersist (Chroma_persist store);;
     call (_write_store_type path "chroma");;
     return_ (ChromaCollection store))
    (λ _, pass);;
  store ← lib_call DocArrayFromDocuments (DocArray_from_documents documents embeddings);
  let raw := raw_of_documents documents in
  write_file path "docs.json" (json_dump raw);;
  call (_write_store_type path "docarray");;
  return_ (DocArrayIndex store).

(** The three blocks of [build_and_save_store] after its first line. *)
Definition faiss_block (documents : list Document) (embeddings : Embeddings)
    (path : string) : Stmt World Store unit :=
  try_except
    (store ← lib_call FaissFromDocuments (FAISS_from_documents documents embeddings);
     lib_call_fs FaissSaveLocal (FAISS_save_local store path);;
     call (_write_store_type path "faiss");;
     return_ (FaissIndex store))
    (λ _, pass).

Definition chroma_block (documents : list Document) (embeddings : Embeddings)
    (path : string) : Stmt World Store unit :=
  try_except
    (store ← lib_call_fs ChromaFromDocuments
               (Chroma_from_documents documents embeddings path);
     lib_call_fs ChromaPersist (Chroma_persist store);;
     call (_write_store_type path "chroma");;
     return_ (ChromaCollection store))
    (λ _, pass).

Definition docarray_block (documents : list Document) (embeddings : Embeddings)
    (path : string) : Stmt World Store unit :=
  store ← lib_call DocArrayFromDocuments (DocArray_from_documents documents embeddings);
  write_file path "docs.json" (json_dump (raw_of_documents documents));;
  call (_write_store_type path "docarray");;
  return_ (DocArrayIndex store).

(** The two places of [load_store] that call [FAISS.load_local]: with the
    keyword argument, and without it when that raised [TypeError].  The
    handler [others] receives the remaining exceptions. *)
Definition load_faiss (path : string) (embeddings : Embeddings)
    (others : exn → Stmt World Store unit) : Stmt World Store unit :=
  try_except
    (store ← (w ← get_state;
              lib_call (FaissLoadLocal true)
                (FAISS_load_local path embeddings true (fs w)));
     return_ (FaissIndex store))
    (λ e, if is_TypeError e then
            store ← (w ← get_state;
                     lib_call (FaissLoadLocal false)
                       (FAISS_load_local path embeddings false (fs w)));
            return_ (FaissIndex store)
          else others e).

(** The reconstruction from [docs.json], written out twice in [load_store]. *)
Definition load_docarray (path : string) (embeddings : Embeddings)
    : Stmt World Store unit :=
  content ← read_file path "docs.json";
  raw ← of_res (json_load content);
  docs ← documents_of_raw raw;
  store ← lib_call DocArrayFromDocuments (DocArray_from_documents docs embeddings);
  return_ (DocArrayIndex store).

(** The loader of one backend, as [load_store] has it behind each test
    of the marker. *)
Definition backend_loader (b : Backend) (path : string) (embeddings : Embeddings)
    : Stmt World Store unit :=
  match b with
  | Faiss => load_faiss path embeddings raise
  | Chroma =>
      store ← lib_call_fs ChromaOpen (Chroma_open path embeddings);
      return_ (ChromaCollection store)
  | DocArray => load_docarray path embeddings
  end.

(** [load_store(path, embeddings)] *)
Definition load_store (path : string) (embeddings : Embeddings) : Stmt World Store unit :=
  stype ← call (_read_store_type path);
  let stype := mjoin stype in
  when (bool_decide (stype = Some "faiss"))
    (load_faiss path embeddings raise);;
  when (bool_decide (stype = Some "chroma"))
    (store ← lib_call_fs ChromaOpen (Chroma_open path embeddings);
     return_ (ChromaCollection store));;
  when (bool_decide (stype = Some "docarray"))
    (load_docarray path embeddings);;
  load_faiss path embeddings
    (λ _, try_except
            (store ← lib_call_fs ChromaOpen (Chroma_open path embeddings);
             return_ (ChromaCollection store))
            (λ _, load_docarray path embeddings)).

End Functions.

(** The backends whose constructor [from_documents] a trace shows, in the
    order of the calls. *)
Definition attempts (tr : list LibCall) : list Backend :=
  omap (λ c, match c with
             | FaissFromDocuments => Some Faiss
             | ChromaFromDocuments => Some Chroma
             | DocArrayFromDocuments => Some DocArray
             | _ => None
             end) tr.

(** The backends whose loader a trace shows. *)
Definition loaders (tr : list LibCall) : list Backend :=
  omap (λ c, match c with
             | FaissLoadLocal _ => Some Faiss
             | ChromaOpen => Some Chroma
             | DocArrayFromDocuments => Some DocArray
             | _ => None
             end) tr.

(** The content of the marker file of the store directory [path]. *)
Definition marker (path : string) (w : World) : option string :=
  files (fs w) !! path_join path "store_type.txt".

(** What [_read_store_type] reads for the store directory [path]: the
    text of the marker file as a text-mode read gives it, stripped, if
    there is such a file. *)
Definition stored_type (path : string) (w : World) : option string :=
  if decide (path_join path "store_type.txt" ∈ dirs (fs w)) then None
  else (λ content, strip (read_text content)) <$> marker path w.

(** The order in which [build_and_save_store] tries the backends. *)
Definition fallback_order (prefer : string) : list Backend :=
  if bool_decide (lower prefer = "faiss") then [Faiss; Chroma; DocArray]
  else [Chroma; DocArray].

(** The library calls of [build_and_save_store] that are given the file
    system leave the file [f] as it is. *)
Definition libs_preserve `{VectorLibs} (f : string) : Prop :=
  (∀ s p fs0, files (snd (FAISS_save_local s p fs0)) !! f = files fs0 !! f)
  ∧ (∀ d e p fs0, files (snd (Chroma_from_documents d e p fs0)) !! f = files fs0 !! f)
  ∧ (∀ s fs0, files (snd (Chroma_persist s fs0)) !! f = files fs0 !! f).

(** Between two states, every file outside [written] that the library
    calls leave alone is as before. *)
Definition frame `{VectorLibs} (written : list string) (w w' : World) : Prop :=
  ∀ f, libs_preserve f → f ∉ written →
       files (fs w') !! f = files (fs w) !! f.

(** The files [build_and_save_store] writes itself when it returns a
    store of the backend [b]. *)
Definition written (path : string) (b : Backend) : list string :=
  match b with
  | DocArray => [path_join path "store_type.txt"; path_join path "docs.json"]
  | _ => [path_join path "store_type.txt"]
  end.

(** An installation for the examples.  A store is the list of documents it
    indexes.  FAISS and Chroma work or fail to import as the two flags
    say; FAISS writes [index.faiss], Chroma writes [chroma.sqlite3], and
    neither removes a file.  Opening a Chroma directory gives the empty
    collection.  [json_dump] writes [sample_json] for the records of
    [first_batch], and [json_load] reads that text back.  The operating
    system refuses no directory. *)
Definition first_batch : list Document := [mkDocument "first batch" ∅].
Definition second_batch : list Document := [mkDocument "second batch" ∅].
Definition sample_json : string := "[{page_content: first batch, metadata: {}}]".

Definition sample_libs (faiss_ok chroma_ok : bool) : VectorLibs :=
  {| Embeddings := unit;
     FaissStore := list Document;
     ChromaStore := list Document;
     DocArrayStore := list Document;
     FAISS_from_documents := λ docs _,
       if faiss_ok then Ok docs else Err (Exn "ImportError");
     FAISS_save_local := λ _ path fs0,
       (Ok (), {| dirs := dirs fs0;
                  files := <[path_join path "index.faiss" := "faiss index"]> (files fs0) |});
     FAISS_load_local := λ path _ _ fs0,
       match files fs0 !! path_join path "index.faiss" with
       | Some _ => Ok []
       | None => Err RuntimeError
       end;
     Chroma_from_documents := λ docs _ path fs0,
       if chroma_ok then
         (Ok docs,
          {| dirs := dirs fs0;
             files := <[path_join path "chroma.sqlite3" := "chroma"]> (files fs0) |})
       else (Err (Exn "ImportError"), fs0);
     Chroma_persist := λ _ fs0, (Ok (), fs0);
     Chroma_open := λ path _ fs0, (Ok [], fs0);
     DocArray_from_documents := λ docs _, Ok docs;
     json_dump := λ raw,
       if decide (raw = [mkRawDoc (Some "first batch") (Some ∅)]) then sample_json
       else "[]";
     json_load := λ content,
       if decide (content = sample_json) then Ok [mkRawDoc (Some "first batch") (Some ∅)]
       else if decide (content = "[]") then Ok []
       else Err (Exn "JSONDecodeError");
     mkdir_refused := λ _ _, None |}.

(** A store directory [vs] in an otherwise empty file system. *)
Definition empty_store_dir : World :=
  {| fs := {| dirs := {["vs"]}; files := ∅ |}; trace := [] |}.

(** A store directory whose marker names the raw-document fallback and
    that holds no [docs.json]. *)
Definition marker_without_payload : World :=
  {| fs := {| dirs := {["vs"]};
              files := {["vs/store_type.txt" := "docarray"]} |};
     trace := [] |}.

End RagChain.

(* ===================================================================== *)
(** * app.py: the session and the /chat handler *)
(* ===================================================================== *)

Module App.

Import RagChain.

(** [{"source": ..., "page": ...}], each value as [md.get] gives it. *)
Record Citation := mkCitation {
  cite_source : option PyVal;
  cite_page : option PyVal
}.

(** One entry of [session["history"]]. *)
Record HistoryEntry := mkEntry {
  role : string;
  content : string;
  citations : option (list Citation)
}.

#[global] Instance Citation_eq_dec : EqDecision Citation.
Proof. solve_decision. Defined.
#[global] Instance HistoryEntry_eq_dec : EqDecision HistoryEntry.
Proof. solve_decision. Defined.

(** The Flask session: each key may be absent. *)
Record Session := mkSession {
  sid : option string;
  history : option (list HistoryEntry);
  ready : option bool
}.

(** The module-level settings of [app.py] and the process environment. *)
Record Config := mkConfig {
  VECTOR_BASE : string;
  TOP_K_RESULTS : Z;
  EMBEDDING_MODEL : string;
  LLM_MODEL : string;
  environ : gmap string string
}.

(** What [conv.invoke] returns: a dict in which each key may be absent or
    [None]. *)
Record ChainResult := mkChainResult {
  res_answer : option string;
  res_result : option string;
  res_source_documents : option (list Document)
}.

(** The libraries behind a chat request, each call giving a value or
    raising: [get_embeddings] is [HuggingFaceEmbeddings(model_name=...)];
    the three constructors of a language model take the arguments
    [get_llm] reads from the environment; [as_retriever store k] is
    [store.as_retriever(search_kwargs={"k": k})];
    [ConversationalRetrievalChain_from_llm] builds the chain; and
    [conv_invoke conv question chat_history] is [conv.invoke] on the dict
    of the two. *)
Class ChatLibs `{VectorLibs} := {
  LLM : Type;
  Retriever : Type;
  ConvChain : Type;
  get_embeddings : string → Res Embeddings;
  ChatOpenAI : ∀ (model api_key : string), Res LLM;
  HuggingFaceEndpoint : ∀ (endpoint_url task token : string), Res LLM;
  HuggingFaceHub : ∀ (repo_id task token : string), Res LLM;
  as_retriever : Store → Z → Res Retriever;
  ConversationalRetrievalChain_from_llm : LLM → Retriever → Res ConvChain;
  conv_invoke : ConvChain → string → list (string * string) → Res ChainResult;
  uuid4_hex : string
}.

(** The body of a JSON response. *)
Inductive Body : Type :=
| ErrorBody (message : string) (cause : option exn)
| ChatBody (answer : string) (citations : list Citation).

(** What a handler returns: the body and the status code. *)
Definition Response : Type := Body * Z.

(** The state a request runs on. *)
Record AppState := mkApp {
  session : Session;
  world : World
}.

(** A statement of [rag_chain] run inside a handler. *)
Definition in_world {R A} (m : Stmt World R A) : Stmt AppState R A :=
  λ st, let '(o, w') := m (world st) in
        (o, {| session := session st; world := w' |}).

(** [os.getenv(key)], with [None] and [""] both read as unset. *)
Definition getenv_nonempty (env : gmap string string) (key : string) : option string :=
  match env !! key with
  | Some v => if decide (v = "") then None else Some v
  | None => None
  end.

(** The [for msg in stored] loop of [chat], on its two variables. *)
Fixpoint chat_history_loop (stored : list HistoryEntry)
    (chat_history : list (string * string)) (last_user : option string)
    : list (string * string) :=
  match stored with
  | [] => chat_history
  | msg :: rest =>
      if decide (role msg = "user") then
        chat_history_loop rest chat_history (Some (content msg))
      else if decide (role msg = "assistant") then
        match last_user with
        | Some user_content =>
            chat_history_loop rest (chat_history ++ [(user_content, content msg)]) None
        | None => chat_history_loop rest chat_history last_user
        end
      else chat_history_loop rest chat_history last_user
  end.

(** The pairs [chat] hands to the chain for a stored history. *)
Definition reconstruct (stored : list HistoryEntry) : list (string * string) :=
  chat_history_loop stored [] None.

(** The [for d in source_docs] loop of [chat]. *)
Definition citations_of (source_docs : list Document) : list Citation :=
  (λ d, {| cite_source := metadata d !! "source";
           cite_page := metadata d !! "page" |}) <$> source_docs.

(** [result.get("answer") or result.get("result", "")] *)
Definition answer_of (result : ChainResult) : string :=
  match res_answer result with
  | Some a => if decide (a = "") then default "" (res_result result) else a
  | None => default "" (res_result result)
  end.

(** The first two lines of [chat]: the stripped question.  [data] is the
    value of [request.get_json(silent=True) or {}] when that is a dict,
    and [None] when it is not one (a JSON array, string or number that is
    not falsy), on which [.get] raises.  A value of the key that is no
    string (JSON [null], a number) has no [strip]; a value of another
    JSON type behaves like these. *)
Definition request_question (data : option (gmap string PyVal)) : Res string :=
  match data with
  | None => Err AttributeError
  | Some d =>
      match default (VStr "") (d !! "question") with
      | VStr s => Ok (strip s)
      | _ => Err AttributeError
      end
  end.

(** The provider [get_llm] reads, and the case in which a variable
    that provider needs is unset or empty. *)
Definition llm_provider (env : gmap string string) : string :=
  default "hub" (env !! "LLM_PROVIDER").

Definition credentials_missing (env : gmap string string) : Prop :=
  (llm_provider env = "openrouter" ∧ getenv_nonempty env "OPENROUTER_API_KEY" = None)
  ∨ (llm_provider env ≠ "openrouter"
     ∧ getenv_nonempty env "HUGGINGFACEHUB_API_TOKEN" = None)
  ∨ (llm_provider env = "endpoint" ∧ getenv_nonempty env "HF_ENDPOINT_URL" = None).

Section Handlers.
Context `{ChatLibs}.
Variable cfg : Config.

(** [get_llm(model_name)] of [rag_chain.py] *)
Definition get_llm (env : gmap string string) (model_name : string) : Res LLM :=
  let provider := default "hub" (env !! "LLM_PROVIDER") in
  if decide (provider = "openrouter") then
    match getenv_nonempty env "OPENROUTER_API_KEY" with
    | None => Err RuntimeError
    | Some api_key =>
        let model := default "meta-llama/llama-3.1-8b-instruct:free"
                       (env !! "OPENROUTER_MODEL") in
        ChatOpenAI model api_key
    end
  else
    match getenv_nonempty env "HUGGINGFACEHUB_API_TOKEN" with
    | None => Err RuntimeError
    | Some token =>
        let task := default "text2text-generation" (env !! "LLM_TASK") in
        if decide (provider = "endpoint") then
          match getenv_nonempty env "HF_ENDPOINT_URL" with
          | None => Err RuntimeError
          | Some endpoint_url => HuggingFaceEndpoint endpoint_url task token
          end
        else HuggingFaceHub model_name task token
    end.

(** [get_retriever(store, top_k)] of [rag_chain.py] *)
Definition get_retriever (store : Store) (top_k : Z) : Res Retriever :=
  as_retriever store top_k.

(** [build_conv_chain(llm, retriever)] of [rag_chain.py] *)
Definition build_conv_chain (llm : LLM) (retriever : Retriever) : Res ConvChain :=
  ConversationalRetrievalChain_from_llm llm retriever.

(** [get_session_id()] *)
Definition get_session_id : Stmt AppState string unit :=
  st ← get_state;
  match sid (session st) with
  | Some s =>
      if decide (s = "") then
        modify_state (λ st, {| session := {| sid := Some uuid4_hex;
                                             history := history (session st);
                                             ready := ready (session st) |};
                               world := world st |});;
        return_ uuid4_hex
      else return_ s
  | None =>
      modify_state (λ st, {| session := {| sid := Some uuid4_hex;
                                           history := history (session st);
                                           ready := ready (session st) |};
                             world := world st |});;
      return_ uuid4_hex
  end.

(** [get_session_store_path()] *)
Definition get_session_store_path : Stmt AppState string unit :=
  s ← call get_session_id;
  let path := path_join (VECTOR_BASE cfg) ("session_" +:+ default "" s) in
  in_world (makedirs path);;
  return_ path.

(** The last lines of [chat]: the two entries appended to the history. *)
Definition append_turns (question answer : string) (citations : list Citation)
    : Stmt AppState Response unit :=
  modify_state (λ st,
    {| session :=
         {| sid := sid (session st);
            history := Some (default [] (history (session st))
                             ++ [ {| role := "user"; content := question;
                                     citations := None |};
                                  {| role := "assistant"; content := answer;
                                     citations := Some citations |} ]);
            ready := ready (session st) |};
       world := world st |}).

(** [chat()]; [data] is as for [request_question]. *)
Definition chat (data : option (gmap string PyVal)) : Stmt AppState Response unit :=
  question ← of_res (request_question data);
  if decide (question = "") then return_ (ErrorBody "Question is required." None, 400)
  else
    st ← get_state;
    if negb (default false (ready (session st))) then
      return_ (ErrorBody "Documents are not processed yet." None, 409)
    else
      store_path ← call get_session_store_path;
      let store_path := default "" store_path in
      embeddings ← of_res (get_embeddings (EMBEDDING_MODEL cfg));
      store ← try_except
                (in_world (call (load_store store_path embeddings)))
                (λ e, return_ (ErrorBody "Failed to load vector store" (Some e), 500));
      store ← match store with
              | Some store => mret store
              | None => raise AttributeError
              end;
      retriever ← of_res (get_retriever store (TOP_K_RESULTS cfg));
      llm ← try_except
              (of_res (get_llm (environ cfg) (LLM_MODEL cfg)))
              (λ e, return_ (ErrorBody "LLM not configured" (Some e), 500));
      conv ← of_res (build_conv_chain llm retriever);
      result ← try_except
                 (st ← get_state;
                  let stored := default [] (history (session st)) in
                  let chat_history := reconstruct stored in
                  of_res (conv_invoke conv question chat_history))
                 (λ e, return_ (ErrorBody "LLM processing error" (Some e), 500));
      let answer := answer_of result in
      let source_docs := default [] (res_source_documents result) in
      let citations := citations_of source_docs in
      append_turns question answer citations;;
      return_ (ChatBody answer citations, 200).

End Handlers.

(** [ALLOWED_EXTENSIONS] *)
Definition ALLOWED_EXTENSIONS : gset string := {["pdf"]}.

(** [allowed_file(filename)] *)
Definition allowed_file (filename : string) : bool :=
  bool_decide ("."%char ∈ list_ascii_of_string filename)
  && bool_decide (lower (rsplit_last "."%char filename) ∈ ALLOWED_EXTENSIONS).

(** One of [request.files.getlist("files")]: the name the client sent and
    the content of the stream. *)
Record UploadedFile := mkUpload {
  filename : string;
  stream : string
}.

(** The settings of [app.py] that [upload] reads. *)
Record UploadSettings := mkUploadSettings {
  UPLOAD_FOLDER : string;
  CHUNK_SIZE : Z;
  CHUNK_OVERLAP : Z;
  MAX_FILE_SIZE : Z;
  VECTOR_STORE_PREF : string
}.

(** The libraries behind [upload] and [clear] that are neither the vector
    store nor the extractors: [werkzeug.utils.secure_filename] and
    [shutil.rmtree]. *)
Class HostLibs := {
  secure_filename : string → string;
  rmtree : string → FS → Res unit * FS
}.

(** The body of the JSON response of [upload]. *)
Inductive UploadBody : Type :=
| UploadError (message : string) (cause : option exn)
| UploadProcessed (files : list string) (pages : Z).

Section MoreHandlers.
Context `{ChatLibs} `{HostLibs}.
Variable cfg : Config.
Variable ucfg : UploadSettings.

(** The extraction libraries read the files: [pdf_libs fs] is what they
    do when the file system is [fs]. *)
Variable pdf_libs : FS → PdfProcessor.PdfLibs.

(** The [for f in files] loop of [upload], on its two lists. *)
Fixpoint upload_files (files : list UploadedFile) (all_pages : list Page)
    (saved_files : list string)
    : Stmt AppState (UploadBody * Z) (list Page * list string) :=
  match files with
  | [] => mret (all_pages, saved_files)
  | f :: rest =>
      let name := secure_filename (filename f) in
      if decide (name = "") then return_ (UploadError "Invalid filename." None, 400)
      else if negb (allowed_file name) then
        return_ (UploadError ("Unsupported file type for " +:+ name +:+ ".") None, 400)
      else
        let size := len (stream f) in
        if negb (size =? 0) && (size >? MAX_FILE_SIZE ucfg) then
          return_ (UploadError (name +:+ " exceeds size limit.") None, 413)
        else
          let save_path := path_join (UPLOAD_FOLDER ucfg) name in
          in_world (write_file (UPLOAD_FOLDER ucfg) name (stream f));;
          let saved_files := saved_files ++ [name] in
          st ← get_state;
          pages ← of_res (PdfProcessor.extract_text_by_page
                            (H := pdf_libs (fs (world st))) save_path);
          match pages with
          | Some pages => upload_files rest (all_pages ++ pages) saved_files
          | None => raise TypeError
          end
  end.

(** The session after [session["history"] = []] and
    [session["ready"] = flag]. *)
Definition reset_session (flag : bool) (st : AppState) : AppState :=
  {| session := {| sid := sid (session st);
                   history := Some [];
                   ready := Some flag |};
     world := world st |}.

(** [upload()]; [files_field] is [request.files.getlist("files")], or
    [None] when the request has no ["files"] part.  [build_documents]
    returns for every argument, so its list is taken as it is. *)
Definition upload (files_field : option (list UploadedFile))
    : Stmt AppState (UploadBody * Z) unit :=
  match files_field with
  | None => return_ (UploadError "No files part in request." None, 400)
  | Some [] => return_ (UploadError "No files uploaded." None, 400)
  | Some files =>
      collected ← upload_files files [] [];
      let all_pages := fst collected in
      let saved_files := snd collected in
      let documents :=
        default [] (Chunking.build_documents all_pages (CHUNK_SIZE ucfg)
                      (CHUNK_OVERLAP ucfg)) in
      embeddings ← of_res (get_embeddings (EMBEDDING_MODEL cfg));
      store_path ← call (get_session_store_path cfg);
      let store_path := default "" store_path in
      try_except
        (in_world (call (build_and_save_store documents embeddings store_path
                           (VECTOR_STORE_PREF ucfg)));;
         pass)
        (λ e, return_ (UploadError "Vector store build failed" (Some e), 500));;
      modify_state (reset_session true);;
      return_ (UploadProcessed saved_files (Z.of_nat (length all_pages)), 200)
  end.

(** [history()] *)
Definition history_handler : Stmt AppState (list HistoryEntry * Z) unit :=
  st ← get_state;
  return_ (default [] (history (session st)), 200).

(** [clear()] *)
Definition clear : Stmt AppState (string * Z) unit :=
  modify_state (reset_session false);;
  store_path ← call (get_session_store_path cfg);
  let store_path := default "" store_path in
  try_except
    (st ← get_state;
     when (bool_decide (store_path ∈ dirs (fs (world st))))
       (in_world (λ w, let '(r, fs') := rmtree store_path (fs w) in
                       of_res r {| fs := fs'; trace := trace w |})))
    (λ _, pass);;
  return_ ("cleared", 200).

End MoreHandlers.

(** The session id a request ends up with: the one of the session, or a
    new one when the session has none. *)
Definition session_id `{ChatLibs} (st : AppState) : string :=
  match sid (session st) with
  | Some s => if decide (s = "") then uuid4_hex else s
  | None => uuid4_hex
  end.

(** The store directory of the session. *)
Definition session_store_path `{ChatLibs} (cfg : Config) (st : AppState) : string :=
  path_join (VECTOR_BASE cfg) ("session_" +:+ session_id st).

(** The name [upload] saves a file under, and the path it saves it at. *)
Definition secured `{HostLibs} (f : UploadedFile) : string :=
  secure_filename (filename f).

Definition save_path `{HostLibs} (ucfg : UploadSettings) (f : UploadedFile) : string :=
  path_join (UPLOAD_FOLDER ucfg) (secured f).

(** A file that passes the three checks of the upload loop. *)
Definition accepted `{HostLibs} (ucfg : UploadSettings) (f : UploadedFile) : Prop :=
  secured f ≠ ""
  ∧ allowed_file (secured f) = true
  ∧ (len (stream f) = 0 ∨ len (stream f) ≤ MAX_FILE_SIZE ucfg).

(** A file that fails one of the checks, with the status it is refused
    with: 400 for its name, 413 for its size. *)
Definition rejected_with `{HostLibs} (ucfg : UploadSettings) (f : UploadedFile)
    (code : Z) : Prop :=
  (code = 400 ∧ (secured f = "" ∨ allowed_file (secured f) = false))
  ∨ (code = 413 ∧ secured f ≠ "" ∧ allowed_file (secured f) = true
     ∧ len (stream f) ≠ 0 ∧ MAX_FILE_SIZE ucfg < len (stream f)).

Section UploadOutcomes.
Context `{ChatLibs} `{HostLibs}.
Variable cfg : Config.
Variable ucfg : UploadSettings.

(** What an upload answered with 200 has done on the way from [st] to
    [st']. *)
Definition processed (st st' : AppState) (uploaded : list UploadedFile)
    (names : list string) (n : Z) : Prop :=
  uploaded ≠ []
  ∧ Forall (accepted ucfg) uploaded
  ∧ names = secured <$> uploaded
  ∧ sid (session st') = Some (session_id st)
  ∧ history (session st') = Some []
  ∧ ready (session st') = Some true
  ∧ ∃ pages documents embeddings store w1,
      n = Z.of_nat (length pages)
      ∧ (∀ p, p ∈ pages →
           ∃ f, f ∈ uploaded ∧ source p = split_last (save_path ucfg f))
      ∧ Chunking.build_documents pages (CHUNK_SIZE ucfg) (CHUNK_OVERLAP ucfg)
        = Some documents
      ∧ get_embeddings (EMBEDDING_MODEL cfg) = Ok embeddings
      ∧ (∀ f, f ∈ uploaded → is_Some (files (fs w1) !! save_path ucfg f))
      ∧ trace w1 = trace (world st)
      ∧ run_function
          (build_and_save_store documents embeddings (session_store_path cfg st)
             (VECTOR_STORE_PREF ucfg)) w1
        = (Ok (Some store), world st').

(** What a refusal of an upload with status [code] has left. *)
Definition refused (st st' : AppState) (files_field : option (list UploadedFile))
    (code : Z) : Prop :=
  session st' = session st
  ∧ trace (world st') = trace (world st)
  ∧ dirs (fs (world st')) = dirs (fs (world st))
  ∧ (∀ p, is_Some (files (fs (world st)) !! p) →
          is_Some (files (fs (world st')) !! p))
  ∧ ((code = 400 ∧ st' = st ∧ (files_field = None ∨ files_field = Some []))
     ∨ ∃ saved bad rest,
         files_field = Some (saved ++ bad :: rest)
         ∧ Forall (accepted ucfg) saved
         ∧ rejected_with ucfg bad code
         ∧ ∀ f, f ∈ saved → is_Some (files (fs (world st')) !! save_path ucfg f)).

End UploadOutcomes.

Section ChatOutcomes.
Context `{ChatLibs}.
Variable cfg : Config.

(** What a chat request with the question [question] has done on the way
    from [st] to [st'], with the outcome [r], when it loaded the store of
    the session with the loader of the backend [b]: the loader ran on
    the store directory of the session, [load_store] did what it did, no
    other loader was called, and the store it returned, of that backend,
    is the one the retriever and the chain are built on. *)
Definition loaded_by (b : Backend) (question : string) (st st' : AppState)
    (r : Res (option Response)) : Prop :=
  ∃ o st1,
    @call AppState Response string (get_session_store_path cfg) st = (o, st1)
    ∧ match o with
      | Raise e => r = Err e ∧ st' = st1
      | Return _ => False
      | Next _ =>
          match get_embeddings (EMBEDDING_MODEL cfg) with
          | Err e => r = Err e ∧ st' = st1
          | Ok embeddings =>
              ∃ loaded new,
                run_function (backend_loader b (session_store_path cfg st) embeddings)
                  (world st1) = (loaded, world st')
                ∧ run_function (load_store (session_store_path cfg st) embeddings)
                    (world st1) = (loaded, world st')
                ∧ trace (world st') = trace (world st) ++ new
                ∧ (∀ b', b' ∈ loaders new → b' = b)
                ∧ match loaded with
                  | Err e =>
                      r = Ok (Some (ErrorBody "Failed to load vector store" (Some e), 500))
                  | Ok None => False
                  | Ok (Some store) =>
                      store_backend store = b
                      ∧ match get_retriever store (TOP_K_RESULTS cfg) with
                        | Err e => r = Err e
                        | Ok retriever =>
                            match get_llm (environ cfg) (LLM_MODEL cfg) with
                            | Err e =>
                                r = Ok (Some (ErrorBody "LLM not configured" (Some e),
                                              500))
                            | Ok llm =>
                                match build_conv_chain llm retriever with
                                | Err e => r = Err e
                                | Ok conv =>
                                    match conv_invoke conv question
                                            (reconstruct
                                               (default [] (history (session st)))) with
                                    | Err e =>
                                        r = Ok (Some (ErrorBody "LLM processing error"
                                                        (Some e), 500))
                                    | Ok result =>
                                        r = Ok (Some
                                                  (ChatBody (answer_of result)
                                                     (citations_of
                                                        (default []
                                                           (res_source_documents result))),
                                                   200))
                                    end
                                end
                            end
                        end
                  end
          end
      end.

End ChatOutcomes.

(** The two entries a chat request that was answered appends to the
    history. *)
Definition exchange (question answer : string) (cits : list Citation)
    : list HistoryEntry :=
  [ {| role := "user"; content := question; citations := None |};
    {| role := "assistant"; content := answer; citations := Some cits |} ].

(** An installation for the examples, over [sample_libs].  The embeddings
    load, a language model is the name it was built with, the retriever
    and the chain are built, the chain answers every question with the
    same words and no source, and the session id is fixed.  [secure_filename] keeps the
    letters, the digits, [_], [.] and [-] of a name; [rmtree] removes the
    directory and the files directly below it.  The extraction libraries
    find one page in a file that exists, its content, and PyPDF2 is not
    installed. *)
Definition sample_chat_libs (faiss_ok chroma_ok : bool)
    : @ChatLibs (sample_libs faiss_ok chroma_ok) :=
  @Build_ChatLibs (sample_libs faiss_ok chroma_ok)
    string unit unit
    (λ _, Ok ())
    (λ model _, Ok model)
    (λ endpoint_url _ _, Ok endpoint_url)
    (λ repo_id _ _, Ok repo_id)
    (λ _ _, Ok ())
    (λ _ _, Ok ())
    (λ _ _ _, Ok {| res_answer := Some "an answer"; res_result := None;
                    res_source_documents := None |})
    "0a1b2c3d".

Definition is_name_char (c : ascii) : bool :=
  let n := nat_of_ascii c in
  ((48 <=? n) && (n <=? 57) || (65 <=? n) && (n <=? 90) || (97 <=? n) && (n <=? 122)
   || (n =? 95) || (n =? 46) || (n =? 45))%nat.

Definition sample_host_libs : HostLibs :=
  {| secure_filename := λ name,
       string_of_list_ascii (filter (λ c, is_name_char c = true)
                               (list_ascii_of_string name));
     rmtree := λ path fs0,
       (Ok (), {| dirs := dirs fs0 ∖ {[path]};
                  files := filter (λ kv, ¬ String.prefix (path +:+ "/") kv.1 = true)
                             (files fs0) |}) |}.

Definition sample_pdf_libs (fs0 : FS) : PdfProcessor.PdfLibs :=
  {| PdfProcessor.pdfplumber_run := λ file_path,
       match files fs0 !! file_path with
       | Some content => PdfProcessor.mkRun [Some content] None
       | None => PdfProcessor.mkRun [] (Some FileNotFoundError)
       end;
     PdfProcessor.PdfReader := None |}.

Definition sample_config : Config :=
  {| VECTOR_BASE := "vector_store";
     TOP_K_RESULTS := 3;
     EMBEDDING_MODEL := "sentence-transformers/all-MiniLM-L6-v2";
     LLM_MODEL := "google/flan-t5-base";
     environ := {["HUGGINGFACEHUB_API_TOKEN" := "hf_token"]} |}.

Definition sample_settings : UploadSettings :=
  {| UPLOAD_FOLDER := "uploads";
     CHUNK_SIZE := 1000;
     CHUNK_OVERLAP := 200;
     MAX_FILE_SIZE := 10 * 1024 * 1024;
     VECTOR_STORE_PREF := "faiss" |}.

(** A new session on a server that has its two folders and nothing else. *)
Definition fresh_state : AppState :=
  {| session := {| sid := None; history := None; ready := None |};
     world := {| fs := {| dirs := {["uploads"; "vector_store"]}; files := ∅ |};
                 trace := [] |} |}.

(** A session that is ready, with a store directory that Chroma built. *)
Definition chroma_session : AppState :=
  {| session := {| sid := Some "0a1b2c3d"; history := Some []; ready := Some true |};
     world := {| fs := {| dirs := {["uploads"; "vector_store";
                                    "vector_store/session_0a1b2c3d"]};
                          files := {["vector_store/session_0a1b2c3d/store_type.txt"
                                     := "chroma"]} |};
                 trace := [] |} |}.

Definition report_pdf : UploadedFile :=
  {| filename := "report.pdf"; stream := "the text of the report" |}.

Definition notes_txt : UploadedFile :=
  {| filename := "notes.txt"; stream := "some notes" |}.

End App.


(* ===================================================================== *)
(** * Facts about strings and slices *)
(* ===================================================================== *)

Module StringFacts.

Lemma append_nil_r (s : string) : s +:+ "" = s.
Proof.
  induction s as [|c s IH]; [done|].
  change (String c (s +:+ "") = String c s). by rewrite IH.
Qed.

Lemma append_assoc (s1 s2 s3 : string) : (s1 +:+ s2) +:+ s3 = s1 +:+ (s2 +:+ s3).
Proof.
  induction s1 as [|c s1 IH]; [done|].
  change (String c ((s1 +:+ s2) +:+ s3) = String c (s1 +:+ (s2 +:+ s3))).
  by rewrite IH.
Qed.

Lemma join_app (l1 l2 : list string) : join (l1 ++ l2) = join l1 +:+ join l2.
Proof.
  induction l1 as [|s l1 IH]; simpl; [done|].
  by rewrite IH, append_assoc.
Qed.

Lemma string_of_list_ascii_app (l1 l2 : list ascii) :
  string_of_list_ascii (l1 ++ l2) = string_of_list_ascii l1 +:+ string_of_list_ascii l2.
Proof.
  induction l1 as [|c l1 IH]; [done|].
  change (String c (string_of_list_ascii (l1 ++ l2))
          = String c (string_of_list_ascii l1 +:+ string_of_list_ascii l2)).
  by rewrite IH.
Qed.

Lemma length_list_ascii_of_string (s : string) :
  length (list_ascii_of_string s) = String.length s.
Proof. induction s as [|c s IH]; simpl; [done | by rewrite IH]. Qed.

Lemma length_string_of_list_ascii (l : list ascii) :
  String.length (string_of_list_ascii l) = length l.
Proof. induction l as [|c l IH]; simpl; [done | by rewrite IH]. Qed.

(** A slice with bounds inside the string, on the list of characters. *)
Lemma slice_inside (s : string) (a b : Z) :
  0 ≤ a ≤ b → b ≤ len s →
  slice s a b =
    string_of_list_ascii
      (take (Z.to_nat b - Z.to_nat a) (drop (Z.to_nat a) (list_ascii_of_string s))).
Proof.
  intros Hab Hb. unfold slice, slice_bound.
  destruct (Z.ltb_spec a 0); [lia|]. destruct (Z.ltb_spec b 0); [lia|].
  rewrite !Z.min_l by lia. by rewrite Z2Nat.inj_sub by lia.
Qed.

Lemma slice_all (s : string) : slice s 0 (len s) = s.
Proof.
  rewrite slice_inside by (unfold len; lia).
  unfold len. rewrite Nat2Z.id. simpl. rewrite Nat.sub_0_r.
  rewrite <- length_list_ascii_of_string, firstn_all.
  apply string_of_list_ascii_of_string.
Qed.

Lemma slice_app (s : string) (a b c : Z) :
  0 ≤ a ≤ b → b ≤ c → c ≤ len s →
  slice s a b +:+ slice s b c = slice s a c.
Proof.
  intros Hab Hbc Hc. rewrite !slice_inside by lia.
  rewrite <- string_of_list_ascii_app. f_equal.
  replace (Z.to_nat c - Z.to_nat a)%nat
    with ((Z.to_nat b - Z.to_nat a) + (Z.to_nat c - Z.to_nat b))%nat by lia.
  rewrite <- take_take_drop. f_equal. rewrite drop_drop.
  do 2 f_equal. lia.
Qed.

Lemma len_slice (s : string) (a b : Z) :
  0 ≤ a ≤ b → b ≤ len s → len (slice s a b) = b - a.
Proof.
  intros Hab Hb. rewrite slice_inside by lia. unfold len in *.
  rewrite length_string_of_list_ascii, length_take, length_drop,
    length_list_ascii_of_string. lia.
Qed.

Lemma slice_from_slice (s : string) (a b o : Z) :
  0 ≤ a → 0 ≤ o → a + o ≤ b → b ≤ len s →
  slice_from (slice s a b) o = slice s (a + o) b.
Proof.
  intros Ha Ho Hab Hb. unfold slice_from.
  rewrite len_slice by lia.
  rewrite (slice_inside (slice s a b)) by (rewrite ?len_slice; lia).
  rewrite (slice_inside s a b), (slice_inside s (a + o) b) by lia.
  rewrite list_ascii_of_string_of_list_ascii. f_equal.
  rewrite skipn_firstn_comm, drop_drop, take_take.
  f_equal; [lia | f_equal; lia].
Qed.

(** [lstrip_chars] drops a run of white space and keeps the rest. *)
Lemma lstrip_chars_spec l :
  ∃ spaces, l = spaces ++ lstrip_chars l
            ∧ Forall (λ c, is_space c = true) spaces
            ∧ ∀ c, head (lstrip_chars l) = Some c → is_space c = false.
Proof.
  induction l as [|c l (spaces & Hl & Hsp & Hhd)].
  - by exists [].
  - cbn. destruct (is_space c) eqn:Hc.
    + exists (c :: spaces). split; [by rewrite Hl at 1|]. split; [by constructor|done].
    + exists []. split; [done|]. split; [done|]. intros c' [= <-]. done.
Qed.

Lemma lstrip_chars_fixed l :
  (∀ c, head l = Some c → is_space c = false) → lstrip_chars l = l.
Proof.
  destruct l as [|c l]; [done|]. intros Hhd. cbn. by rewrite (Hhd c).
Qed.

Lemma last_rev {A} (l : list A) : last (rev l) = head l.
Proof. destruct l as [|x l]; [done|]. simpl. apply last_snoc. Qed.

Lemma strip_chars_spec l :
  ∃ before after,
    l = before ++ strip_chars l ++ after
    ∧ Forall (λ c, is_space c = true) before
    ∧ Forall (λ c, is_space c = true) after
    ∧ (∀ c, head (strip_chars l) = Some c → is_space c = false)
    ∧ (∀ c, last (strip_chars l) = Some c → is_space c = false).
Proof.
  unfold strip_chars.
  destruct (lstrip_chars_spec l) as (before & Hl & Hbefore & Hhd).
  destruct (lstrip_chars_spec (rev (lstrip_chars l))) as (after & Hr & Hafter & Hhd').
  exists before, (rev after).
  assert (lstrip_chars l = rev (lstrip_chars (rev (lstrip_chars l))) ++ rev after)
    as Hmid.
  { rewrite <- rev_app_distr, <- Hr. by rewrite rev_involutive. }
  split; [by rewrite <- Hmid|]. split; [done|].
  split; [by apply Forall_rev|]. split.
  - intros c Hc. apply Hhd. rewrite Hmid.
    destruct (rev (lstrip_chars (rev (lstrip_chars l)))); [done|]. done.
  - intros c Hc. apply Hhd'. by rewrite last_rev in Hc.
Qed.

Lemma head_rev {A} (l : list A) : head (rev l) = last l.
Proof. by rewrite <- (rev_involutive l) at 2; rewrite last_rev. Qed.

Lemma strip_chars_fixed l :
  (∀ c, head l = Some c → is_space c = false) →
  (∀ c, last l = Some c → is_space c = false) →
  strip_chars l = l.
Proof.
  intros Hhd Hlast. unfold strip_chars.
  rewrite (lstrip_chars_fixed l) by done.
  rewrite lstrip_chars_fixed; [apply rev_involutive|].
  intros c Hc. apply Hlast. by rewrite head_rev in Hc.
Qed.

(** A list that is white space around [t] strips to [t], when [t] neither
    starts nor ends with white space. *)
Lemma lstrip_chars_spaces spaces l :
  Forall (λ c, is_space c = true) spaces → lstrip_chars (spaces ++ l) = lstrip_chars l.
Proof. induction 1 as [|c spaces Hc _ IH]; [done|]. cbn. by rewrite Hc. Qed.

Lemma strip_chars_around before t after :
  Forall (λ c, is_space c = true) before →
  Forall (λ c, is_space c = true) after →
  (∀ c, head t = Some c → is_space c = false) →
  (∀ c, last t = Some c → is_space c = false) →
  strip_chars (before ++ t ++ after) = t.
Proof.
  intros Hbefore Hafter Hhd Hlast. unfold strip_chars.
  rewrite lstrip_chars_spaces by done.
  destruct t as [|c t].
  - cbn [app].
    assert (lstrip_chars after = []) as ->; [|done].
    pose proof (lstrip_chars_spaces after [] Hafter) as Hall.
    by rewrite app_nil_r in Hall.
  - rewrite (lstrip_chars_fixed ((c :: t) ++ after)) by (intros c' [= <-]; by apply Hhd).
    rewrite rev_app_distr, lstrip_chars_spaces by (by apply Forall_rev).
    rewrite lstrip_chars_fixed; [apply rev_involutive|].
    intros c' Hc'. apply Hlast. by rewrite head_rev in Hc'.
Qed.

(** Universal newlines turn white space into white space and leave every
    other character. *)
Lemma universal_newlines_spaces b l :
  Forall (λ c, is_space c = true) l →
  Forall (λ c, is_space c = true) (universal_newlines b l).
Proof.
  intros Hl. revert b. induction Hl as [|c l Hc _ IH]; intros b; [done|].
  cbn [universal_newlines]. destruct (decide (c = "013"%char)); [by constructor|].
  destruct (decide (c = "010"%char)); [destruct b; [done | by constructor]|].
  by constructor.
Qed.

Lemma universal_newlines_word b t l :
  Forall (λ c, is_space c = false) t →
  universal_newlines b (t ++ l)
  = t ++ universal_newlines (if t is [] then b else false) l.
Proof.
  intros Ht. revert b. induction Ht as [|c t Hc _ IH]; intros b; [done|].
  cbn [app universal_newlines].
  destruct (decide (c = "013"%char)) as [->|_]; [done|].
  destruct (decide (c = "010"%char)) as [->|_]; [done|].
  rewrite IH. by destruct t.
Qed.

Lemma universal_newlines_around b before t after :
  Forall (λ c, is_space c = true) before →
  Forall (λ c, is_space c = false) t →
  Forall (λ c, is_space c = true) after →
  ∃ before' after',
    universal_newlines b (before ++ t ++ after) = before' ++ t ++ after'
    ∧ Forall (λ c, is_space c = true) before'
    ∧ Forall (λ c, is_space c = true) after'.
Proof.
  intros Hbefore Ht Hafter. revert b.
  induction Hbefore as [|c before Hc _ IH]; intros b.
  - exists [], (universal_newlines (if t is [] then b else false) after).
    split; [cbn [app]; by apply universal_newlines_word|]. split; [done|].
    by apply universal_newlines_spaces.
  - cbn [app universal_newlines].
    destruct (decide (c = "013"%char)) as [->|_].
    { destruct (IH true) as (before' & after' & -> & Hb & Ha).
      exists ("010"%char :: before'), after'. split; [done|]. split; [by constructor | done]. }
    destruct (decide (c = "010"%char)) as [->|_].
    { destruct (IH false) as (before' & after' & -> & Hb & Ha). destruct b.
      - by exists before', after'.
      - exists ("010"%char :: before'), after'. split; [done|].
        split; [by constructor | done]. }
    destruct (IH false) as (before' & after' & -> & Hb & Ha).
    exists (c :: before'), after'. split; [done|]. split; [by constructor | done].
Qed.

(** A file whose text strips to a word without white space reads, in text
    mode, as a text that strips to the same word. *)
Lemma strip_read_text (content : string) :
  Forall (λ c, is_space c = false) (list_ascii_of_string (strip content)) →
  strip (read_text content) = strip content.
Proof.
  intros Hword. unfold strip, read_text in *.
  rewrite list_ascii_of_string_of_list_ascii in *.
  fold (strip_chars (list_ascii_of_string content)) in *.
  fold (strip_chars (universal_newlines false (list_ascii_of_string content))).
  f_equal.
  destruct (strip_chars_spec (list_ascii_of_string content))
    as (before & after & Hl & Hbefore & Hafter & _ & _).
  destruct (universal_newlines_around false before
              (strip_chars (list_ascii_of_string content)) after)
    as (before' & after' & Hnl & Hb & Ha); [done..|].
  rewrite Hl at 1. rewrite Hnl. apply strip_chars_around; [done | done | |].
  - intros c Hc. eapply Forall_forall in Hword; [exact Hword|].
    destruct (strip_chars _); [done|]. injection Hc as <-. left.
  - intros c Hc. eapply Forall_forall in Hword; [exact Hword|].
    apply last_Some in Hc as [l' ->]. apply elem_of_app. right. left.
Qed.

End StringFacts.

(* ===================================================================== *)
(** * The chunker *)
(* ===================================================================== *)

Module ChunkingProofs.
Import Chunking StringFacts.

Section ChunkLoop.

(** The loop never exhausts a fuel of at least [n - start] iterations,
    whatever [size] is, once the step is positive. *)
Lemma chunk_loop_terminates fuel text size step start acc :
  1 ≤ step → len text - start ≤ Z.of_nat fuel →
  ∃ rest, chunk_loop fuel text (len text) size step start acc = Some (acc ++ rest).
Proof.
  intros Hstep. revert start acc.
  induction fuel as [|fuel IH]; intros start acc Hfuel; cbn [chunk_loop].
  - destruct (Z.ltb_spec start (len text)); [lia|].
    exists []. by rewrite app_nil_r.
  - destruct (Z.ltb_spec start (len text)); [|exists []; by rewrite app_nil_r].
    destruct (Z.geb_spec (Z.min (len text) (start + size)) (len text)); [eauto|].
    destruct (IH (start + step)
                (acc ++ [slice text start (Z.min (len text) (start + size))]))
      as [rest Hrun]; [lia|].
    rewrite Hrun, <- (assoc_L (++)). eauto.
Qed.

(** With [1 <= step <= size] the loop leaves through its [break], after
    [k >= 1] chunks taken at [start], [start + step], ... *)
Lemma chunk_loop_spec fuel text size step start acc :
  1 ≤ step ≤ size → 0 ≤ start < len text → len text - start ≤ Z.of_nat fuel →
  ∃ k : nat,
    chunk_loop fuel text (len text) size step start acc
      = Some (acc ++ (chunk_at text size step start <$> seq 0 (S k)))
    ∧ (∀ j : nat, (j < k)%nat → start + Z.of_nat j * step + size < len text)
    ∧ len text ≤ start + Z.of_nat k * step + size.
Proof.
  intros Hstep. revert start acc.
  induction fuel as [|fuel IH]; intros start acc Hstart Hfuel; [lia|].
  cbn [chunk_loop]. destruct (Z.ltb_spec start (len text)); [|lia].
  destruct (Z.geb_spec (Z.min (len text) (start + size)) (len text)) as [Hge|Hlt].
  - exists 0%nat. split; [|split].
    + unfold chunk_at. simpl. by rewrite Z.add_0_r.
    + intros j Hj. lia.
    + lia.
  - destruct (IH (start + step) (acc ++ [slice text start (Z.min (len text) (start + size))]))
      as (k & Hrun & Hbefore & Hlast); [lia | lia |].
    exists (S k). split; [|split].
    + rewrite Hrun, <- (assoc_L (++)). do 2 f_equal.
      assert (seq 0 (S (S k)) = 0%nat :: (S <$> seq 0 (S k))) as ->
        by (by rewrite fmap_S_seq).
      rewrite fmap_cons, <- list_fmap_compose.
      change ([?x] ++ ?l) with (x :: l). f_equal.
      * unfold chunk_at. simpl. by rewrite Z.add_0_r.
      * apply list_fmap_ext. intros _ j _. unfold chunk_at, compose.
        replace (start + step + Z.of_nat j * step)
          with (start + Z.of_nat (S j) * step) by lia.
        done.
    + intros j Hj. destruct j as [|j]; [lia|].
      specialize (Hbefore j ltac:(lia)). lia.
    + lia.
Qed.

(** For every [size], once the step is positive, the loop takes its
    chunks at [start], [start + step], ... and stops at the first of them
    that reaches the end of the text or whose successor would start past
    it. *)
Lemma chunk_loop_general fuel text size step start acc :
  1 ≤ step → 0 ≤ start < len text → len text - start ≤ Z.of_nat fuel →
  ∃ k : nat,
    chunk_loop fuel text (len text) size step start acc
      = Some (acc ++ (chunk_at text size step start <$> seq 0 (S k)))
    ∧ start + Z.of_nat k * step < len text
    ∧ (∀ j : nat, (j < k)%nat → start + Z.of_nat j * step + size < len text)
    ∧ (len text ≤ start + Z.of_nat k * step + size
       ∨ len text ≤ start + (Z.of_nat k + 1) * step).
Proof.
  intros Hstep. revert start acc.
  induction fuel as [|fuel IH]; intros start acc Hstart Hfuel; [lia|].
  cbn [chunk_loop]. destruct (Z.ltb_spec start (len text)); [|lia].
  destruct (Z.geb_spec (Z.min (len text) (start + size)) (len text)) as [Hge|Hlt].
  - exists 0%nat. split; [|split; [|split]].
    + unfold chunk_at. simpl. by rewrite Z.add_0_r.
    + lia.
    + intros j Hj. lia.
    + left. lia.
  - destruct (decide (start + step < len text)) as [Hnext|Hend].
    + destruct (IH (start + step)
                  (acc ++ [slice text start (Z.min (len text) (start + size))]))
        as (k & Hrun & Hlast & Hbefore & Hstop); [lia | lia |].
      exists (S k). split; [|split; [|split]].
      * rewrite Hrun, <- (assoc_L (++)). do 2 f_equal.
        assert (seq 0 (S (S k)) = 0%nat :: (S <$> seq 0 (S k))) as ->
          by (by rewrite fmap_S_seq).
        rewrite fmap_cons, <- list_fmap_compose.
        change ([?x] ++ ?l) with (x :: l). f_equal.
        -- unfold chunk_at. simpl. by rewrite Z.add_0_r.
        -- apply list_fmap_ext. intros _ j _. unfold chunk_at, compose.
           replace (start + step + Z.of_nat j * step)
             with (start + Z.of_nat (S j) * step) by lia.
           done.
      * lia.
      * intros j Hj. destruct j as [|j]; [lia|].
        specialize (Hbefore j ltac:(lia)). lia.
      * destruct Hstop; [left | right]; lia.
    + exists 0%nat. split; [|split; [|split]].
      * destruct fuel as [|fuel']; cbn [chunk_loop];
          (destruct (Z.ltb_spec (start + step) (len text)); [lia|]);
          unfold chunk_at; simpl; by rewrite Z.add_0_r.
      * lia.
      * intros j Hj. lia.
      * right. lia.
Qed.

End ChunkLoop.

Section ChunkText.

Lemma len_pos_of_nonempty (text : string) : text ≠ "" → 0 < len text.
Proof. destruct text; [done | unfold len; simpl; lia]. Qed.

(** [_chunk_text] returns for every [size] and [overlap]. *)
Lemma chunk_text_terminates text size overlap :
  is_Some (_chunk_text text size overlap).
Proof.
  unfold _chunk_text. destruct (decide (text = "")); [eauto|].
  destruct (chunk_loop_terminates (String.length text) text size
              (Z.max 1 (size - overlap)) 0 []) as [rest ->];
    [lia | unfold len; lia | eauto].
Qed.

(** The chunks of a non-empty text under valid parameters. *)
Lemma chunk_text_spec text size overlap :
  0 < size → 0 ≤ overlap < size → text ≠ "" →
  ∃ k : nat,
    _chunk_text text size overlap
      = Some (chunk_at text size (size - overlap) 0 <$> seq 0 (S k))
    ∧ (∀ j : nat, (j < k)%nat → Z.of_nat j * (size - overlap) + size < len text)
    ∧ len text ≤ Z.of_nat k * (size - overlap) + size.
Proof.
  intros Hsize Hov Htext. unfold _chunk_text.
  destruct (decide (text = "")); [done|].
  rewrite Z.max_r by lia.
  pose proof (len_pos_of_nonempty text Htext) as Hn.
  destruct (chunk_loop_spec (String.length text) text size (size - overlap) 0 [])
    as (k & Hrun & Hbefore & Hlast); [lia | lia | unfold len; lia |].
  exists k. rewrite Hrun. split; [done|]. split.
  - intros j Hj. specialize (Hbefore j Hj). lia.
  - lia.
Qed.

(** The chunks of a non-empty text, for every [size] and [overlap]. *)
Lemma chunk_text_general text size overlap :
  text ≠ "" →
  ∃ k : nat,
    _chunk_text text size overlap
      = Some (chunk_at text size (Z.max 1 (size - overlap)) 0 <$> seq 0 (S k))
    ∧ Z.of_nat k * Z.max 1 (size - overlap) < len text
    ∧ (∀ j : nat, (j < k)%nat →
         Z.of_nat j * Z.max 1 (size - overlap) + size < len text)
    ∧ (len text ≤ Z.of_nat k * Z.max 1 (size - overlap) + size
       ∨ len text ≤ (Z.of_nat k + 1) * Z.max 1 (size - overlap)).
Proof.
  intros Htext. unfold _chunk_text.
  destruct (decide (text = "")); [done|].
  pose proof (len_pos_of_nonempty text Htext) as Hn.
  destruct (chunk_loop_general (String.length text) text size
              (Z.max 1 (size - overlap)) 0 [])
    as (k & Hrun & Hlast & Hbefore & Hstop); [lia | lia | unfold len; lia |].
  exists k. rewrite Hrun. split; [done|]. split; [lia|]. split.
  - intros j Hj. specialize (Hbefore j Hj). lia.
  - destruct Hstop; [left | right]; lia.
Qed.

(** Joining the first chunk with the de-overlapped next [m] chunks gives
    the text up to the end of chunk [m]. *)
Lemma deoverlap_prefix text size overlap (m : nat) :
  0 < size → 0 ≤ overlap < size →
  (∀ j : nat, (j < m)%nat → Z.of_nat j * (size - overlap) + size < len text) →
  chunk_at text size (size - overlap) 0 0
    +:+ join ((λ c, slice_from c overlap)
                <$> (chunk_at text size (size - overlap) 0 <$> seq 1 m))
  = slice text 0 (Z.min (len text) (Z.of_nat m * (size - overlap) + size)).
Proof.
  intros Hsize Hov. induction m as [|m IH]; intros Hbefore.
  - simpl. by rewrite append_nil_r.
  - rewrite seq_S, !fmap_app, join_app, <- append_assoc.
    rewrite IH by (intros j Hj; apply Hbefore; lia).
    pose proof (Hbefore m ltac:(lia)) as Hm.
    cbn [fmap list_fmap join foldr]. rewrite append_nil_r. unfold chunk_at.
    assert (0 ≤ Z.of_nat m * (size - overlap)) by nia.
    rewrite slice_from_slice by lia.
    rewrite (Z.min_r (len text) (Z.of_nat m * (size - overlap) + size)) by lia.
    replace (0 + Z.of_nat (1 + m) * (size - overlap) + overlap)
      with (Z.of_nat m * (size - overlap) + size) by lia.
    rewrite slice_app by lia. f_equal; lia.
Qed.

End ChunkText.

Section ChunkerClaims.

(** C2.  For [size > 0], [0 <= overlap < size] and any text, chunking of
    one page terminates; the chunk list is empty exactly when the text
    is; and dropping the leading [overlap] characters of every chunk but
    the first and concatenating gives back the text. *)
Theorem chunk_text_reconstructs (text : string) (size overlap : Z) :
  0 < size → 0 ≤ overlap < size →
  ∃ chunks : list string,
    _chunk_text text size overlap = Some chunks
    ∧ (chunks = [] ↔ text = "")
    ∧ deoverlap overlap chunks = text.
Proof.
  intros Hsize Hov. destruct (decide (text = "")) as [->|Htext].
  - exists []. by vm_compute.
  - destruct (chunk_text_spec text size overlap Hsize Hov Htext)
      as (k & Hrun & Hbefore & Hlast).
    eexists. split; [exact Hrun|]. split; [done|].
    change (seq 0 (S k)) with (0%nat :: seq 1 k).
    rewrite fmap_cons. unfold deoverlap.
    change (join (?c :: ?l)) with (c +:+ join l).
    change (map ?f ?l) with (f <$> l).
    rewrite deoverlap_prefix by done.
    rewrite Z.min_l by lia. apply slice_all.
Qed.

Lemma chunk_text_reconstructs_witness :
  ∃ chunks : list string,
    _chunk_text "abcdefghij" 4 1 = Some chunks
    ∧ (chunks = [] ↔ "abcdefghij" = "")
    ∧ deoverlap 1 chunks = "abcdefghij".
Proof. apply (chunk_text_reconstructs "abcdefghij" 4 1); lia. Defined.

(** C8.  For [size > 0] and [0 <= overlap < size] the [i]-th chunk is the
    slice that starts at [i * max(1, size - overlap)]; and for
    [overlap = size - 1] on a text longer than [size] the loop ends with
    [max(1, len(text) - size + 1)] chunks. *)
Theorem chunk_starts_advance_by_step (text : string) (size overlap : Z) :
  0 < size → 0 ≤ overlap < size →
  ∃ chunks : list string,
    _chunk_text text size overlap = Some chunks
    ∧ (∀ (i : nat) (c : string), chunks !! i = Some c →
         let start := Z.of_nat i * Z.max 1 (size - overlap) in
         c = slice text start (Z.min (len text) (start + size)))
    ∧ (overlap = size - 1 → size < len text →
         Z.of_nat (length chunks) = Z.max 1 (len text - size + 1)).
Proof.
  intros Hsize Hov. destruct (decide (text = "")) as [->|Htext].
  - exists []. split; [done|]. split; [done|]. unfold len; simpl; lia.
  - destruct (chunk_text_spec text size overlap Hsize Hov Htext)
      as (k & Hrun & Hbefore & Hlast).
    eexists. split; [exact Hrun|]. split.
    + intros i c Hi. rewrite Z.max_r by lia.
      apply list_lookup_fmap_Some in Hi as (j & -> & Hj).
      apply lookup_seq in Hj as [-> _]. unfold chunk_at. simpl.
      by rewrite Z.add_0_l.
    + intros -> Hlong. rewrite length_fmap, length_seq.
      destruct (decide (Z.of_nat k < len text - size)) as [Hk|Hk]; [lia|].
      destruct (decide (len text - size < Z.of_nat k)) as [Hk'|Hk']; [|lia].
      specialize (Hbefore (Z.to_nat (len text - size)) ltac:(lia)). lia.
Qed.

Lemma chunk_starts_advance_by_step_witness :
  ∃ chunks : list string,
    _chunk_text "abcdefghij" 4 3 = Some chunks
    ∧ (∀ (i : nat) (c : string), chunks !! i = Some c →
         let start := Z.of_nat i * Z.max 1 (4 - 3) in
         c = slice "abcdefghij" start (Z.min (len "abcdefghij") (start + 4)))
    ∧ (3 = 4 - 1 → 4 < len "abcdefghij" →
         Z.of_nat (length chunks) = Z.max 1 (len "abcdefghij" - 4 + 1)).
Proof. apply (chunk_starts_advance_by_step "abcdefghij" 4 3); lia. Defined.

End ChunkerClaims.

Section BuildDocuments.

Lemma build_documents_loop_spec pages size overlap acc :
  ∃ css : list (list string),
    Forall2 (λ p cs, _chunk_text (text p) size overlap = Some cs) pages css
    ∧ build_documents_loop pages size overlap acc
        = Some (acc ++ concat (zip_with page_documents pages css)).
Proof.
  revert acc. induction pages as [|p pages IH]; intros acc.
  - exists []. split; [constructor|]. simpl. by rewrite app_nil_r.
  - destruct (chunk_text_terminates (text p) size overlap) as [cs Hcs].
    destruct (IH (acc ++ page_documents p cs)) as (css & Hall & Hrun).
    exists (cs :: css). split; [by constructor|].
    simpl. rewrite Hcs. simpl. rewrite Hrun. by rewrite <- (assoc_L (++)).
Qed.

Lemma build_documents_spec pages size overlap :
  ∃ css : list (list string),
    Forall2 (λ p cs, _chunk_text (text p) size overlap = Some cs) pages css
    ∧ build_documents pages size overlap
        = Some (concat (zip_with page_documents pages css)).
Proof. apply (build_documents_loop_spec pages size overlap []). Qed.

Lemma format_chunk_id_inj source page_no : Inj (=) (=) (format_chunk_id source page_no).
Proof.
  intros i j Hij. unfold format_chunk_id in Hij.
  repeat (apply String.app_inj in Hij). by apply pretty_nat_inj in Hij.
Qed.

Lemma chunk_document_metadata p i c :
  metadata (chunk_document p i c) !! "source" = Some (VStr (source p))
  ∧ metadata (chunk_document p i c) !! "page" = Some (VInt (page p))
  ∧ metadata (chunk_document p i c) !! "chunk_id"
    = Some (VStr (format_chunk_id (source p) (page p) i)).
Proof. unfold chunk_document. simpl. by simplify_map_eq. Qed.

Lemma doc_key_chunk_document p i c :
  doc_key (chunk_document p i c)
  = (Some (VStr (source p)), Some (VInt (page p)),
     Some (VStr (format_chunk_id (source p) (page p) i))).
Proof.
  destruct (chunk_document_metadata p i c) as (Hs & Hp & Hc).
  unfold doc_key. by rewrite Hs, Hp, Hc.
Qed.

Lemma page_documents_lookup p cs i d :
  page_documents p cs !! i = Some d →
  ∃ c, cs !! i = Some c ∧ d = chunk_document p i c.
Proof.
  unfold page_documents. rewrite list_lookup_imap_Some. intros (c & Hc & ->). eauto.
Qed.

Lemma page_documents_chunk_id_NoDup p cs :
  NoDup ((λ d, metadata d !! "chunk_id") <$> page_documents p cs).
Proof.
  apply NoDup_alt. intros i j k Hi Hj.
  apply list_lookup_fmap_Some in Hi as (di & -> & Hi).
  apply list_lookup_fmap_Some in Hj as (dj & Hk & Hj).
  apply page_documents_lookup in Hi as (ci & _ & ->).
  apply page_documents_lookup in Hj as (cj & _ & ->).
  destruct (chunk_document_metadata p i ci) as (_ & _ & Ki).
  destruct (chunk_document_metadata p j cj) as (_ & _ & Kj).
  rewrite Ki, Kj in Hk. injection Hk as Hk. by apply format_chunk_id_inj in Hk.
Qed.

Lemma page_documents_key_NoDup p cs : NoDup (doc_key <$> page_documents p cs).
Proof.
  apply NoDup_alt. intros i j k Hi Hj.
  apply list_lookup_fmap_Some in Hi as (di & -> & Hi).
  apply list_lookup_fmap_Some in Hj as (dj & Hk & Hj).
  apply page_documents_lookup in Hi as (ci & _ & ->).
  apply page_documents_lookup in Hj as (cj & _ & ->).
  rewrite !doc_key_chunk_document in Hk.
  injection Hk as Hk. by apply format_chunk_id_inj in Hk.
Qed.

Lemma page_documents_source_page p cs d :
  d ∈ page_documents p cs →
  metadata d !! "source" = Some (VStr (source p))
  ∧ metadata d !! "page" = Some (VInt (page p)).
Proof.
  intros (i & Hi)%list_elem_of_lookup.
  apply page_documents_lookup in Hi as (c & _ & ->).
  destruct (chunk_document_metadata p i c) as (Ks & Kp & _). done.
Qed.

Lemma zip_page_documents_source_page pages css d :
  d ∈ concat (zip_with page_documents pages css) →
  ∃ p, p ∈ pages
       ∧ metadata d !! "source" = Some (VStr (source p))
       ∧ metadata d !! "page" = Some (VInt (page p)).
Proof.
  revert css. induction pages as [|p pages IH]; intros [|cs css]; simpl;
    try (by intros ?%elem_of_nil).
  intros [Hd|Hd]%elem_of_app.
  - exists p. split; [left|]. by eapply page_documents_source_page.
  - destruct (IH css Hd) as (q & Hq & Hkey). exists q. split; [by right | done].
Qed.

Lemma zip_page_documents_NoDup pages css :
  NoDup ((λ p, (source p, page p)) <$> pages) →
  NoDup (doc_key <$> concat (zip_with page_documents pages css)).
Proof.
  revert css. induction pages as [|p pages IH]; intros [|cs css] Hnd; simpl;
    [apply NoDup_nil_2 .. |].
  rewrite fmap_cons in Hnd. apply NoDup_cons in Hnd as [Hp Hnd].
  rewrite fmap_app. apply NoDup_app. split; [apply page_documents_key_NoDup|].
  split; [|by apply IH].
  intros key (d & -> & Hd)%list_elem_of_fmap (d' & Hkey & Hd')%list_elem_of_fmap.
  apply page_documents_source_page in Hd as [Hs Hpg].
  apply zip_page_documents_source_page in Hd' as (q & Hq & Hs' & Hpg').
  apply Hp. apply list_elem_of_fmap. exists q. split; [|done].
  unfold doc_key in Hkey. injection Hkey as Hks Hkp _. congruence.
Qed.

End BuildDocuments.

Section BuildDocumentsClaims.

(** C5, as the code has it.  With [size <= 0] or [overlap < 0] the
    chunking operation validates nothing and raises nothing: it returns
    the documents of the chunks of each page, and the chunks of a
    non-empty text are cut with the given [size] as it is and with the
    step floored at 1: chunk [j] is
    [text[j*step : min(len(text), j*step + size)]] with
    [step = max(1, size - overlap)], for [j] from 0 to the first [k] at
    which the chunk reaches the end of the text or the next start would
    lie past it.  With [size <= 0] no chunk reaches the end, so there are
    [ceil(len(text) / step)] chunks. *)
Theorem invalid_parameters_are_not_rejected (pages : list Page) (size overlap : Z) :
  size ≤ 0 ∨ overlap < 0 →
  (∃ (css : list (list string)) (docs : list Document),
     Forall2 (λ p cs, _chunk_text (text p) size overlap = Some cs) pages css
     ∧ call_build_documents pages size overlap = Some (Ok docs)
     ∧ docs = concat (zip_with page_documents pages css))
  ∧ (∀ text : string, text ≠ "" →
       let step := Z.max 1 (size - overlap) in
       ∃ k : nat,
         _chunk_text text size overlap
         = Some ((λ j : nat, slice text (Z.of_nat j * step)
                               (Z.min (len text) (Z.of_nat j * step + size)))
                   <$> seq 0 (S k))
         ∧ Z.of_nat k * step < len text
         ∧ (∀ j : nat, (j < k)%nat → Z.of_nat j * step + size < len text)
         ∧ (len text ≤ Z.of_nat k * step + size
            ∨ len text ≤ (Z.of_nat k + 1) * step)
         ∧ (size ≤ 0 → len text ≤ (Z.of_nat k + 1) * step)).
Proof.
  intros _. split.
  - unfold call_build_documents.
    destruct (build_documents_spec pages size overlap) as (css & Hall & Hrun).
    exists css. eexists. split; [done|]. rewrite Hrun. by split.
  - intros text Htext step.
    destruct (chunk_text_general text size overlap Htext)
      as (k & Hrun & Hlast & Hbefore & Hstop).
    exists k. split; [|split; [done|split; [done|split; [done|]]]].
    + rewrite Hrun. reflexivity.
    + intros Hsize. fold step in Hlast, Hstop. destruct Hstop; lia.
Qed.

Lemma invalid_parameters_are_not_rejected_witness :
  (∃ (css : list (list string)) (docs : list Document),
     Forall2 (λ p cs, _chunk_text (text p) 0 0 = Some cs) [mkPage 1 "abc" "a.pdf"] css
     ∧ call_build_documents [mkPage 1 "abc" "a.pdf"] 0 0 = Some (Ok docs)
     ∧ docs = concat (zip_with page_documents [mkPage 1 "abc" "a.pdf"] css))
  ∧ (∀ text : string, text ≠ "" →
       let step := Z.max 1 (0 - 0) in
       ∃ k : nat,
         _chunk_text text 0 0
         = Some ((λ j : nat, slice text (Z.of_nat j * step)
                               (Z.min (len text) (Z.of_nat j * step + 0)))
                   <$> seq 0 (S k))
         ∧ Z.of_nat k * step < len text
         ∧ (∀ j : nat, (j < k)%nat → Z.of_nat j * step + 0 < len text)
         ∧ (len text ≤ Z.of_nat k * step + 0
            ∨ len text ≤ (Z.of_nat k + 1) * step)
         ∧ (0 ≤ 0 → len text ≤ (Z.of_nat k + 1) * step)).
Proof.
  apply (invalid_parameters_are_not_rejected [mkPage 1 "abc" "a.pdf"] 0 0).
  left. lia.
Defined.

(** C5 as the specification states it fails: with [size = 0] the call
    returns three documents of empty content and raises nothing. *)
Lemma size_zero_is_not_rejected :
  (∃ d0 d1 d2,
     call_build_documents [mkPage 1 "abc" "a.pdf"] 0 0 = Some (Ok [d0; d1; d2])
     ∧ page_content d0 = "" ∧ page_content d1 = "" ∧ page_content d2 = "")
  ∧ ¬ (∃ e, call_build_documents [mkPage 1 "abc" "a.pdf"] 0 0 = Some (Err e)).
Proof.
  split.
  - do 3 eexists. by vm_compute.
  - intros [e He]. vm_compute in He. discriminate.
Qed.

(** C9, as the code has it.  [build_documents] returns the documents of
    the page entries in order; among the documents of one entry the
    [i]-th has the [i]-th chunk as content and [source-p<page>-c<i>] as
    [chunk_id], and these ids are pairwise different; when no two entries
    share [(source, page)], no two documents share
    [(source, page, chunk_id)]; and a second run returns the same ids. *)
Theorem chunk_ids_by_page_position (pages : list Page) (size overlap : Z) :
  ∃ (css : list (list string)) (docs : list Document),
    Forall2 (λ p cs, _chunk_text (text p) size overlap = Some cs) pages css
    ∧ build_documents pages size overlap = Some docs
    ∧ docs = concat (zip_with page_documents pages css)
    ∧ (∀ p cs (i : nat) d, page_documents p cs !! i = Some d →
         cs !! i = Some (page_content d)
         ∧ metadata d !! "source" = Some (VStr (source p))
         ∧ metadata d !! "page" = Some (VInt (page p))
         ∧ metadata d !! "chunk_id"
           = Some (VStr (source p +:+ "-p" +:+ pretty (page p)
                         +:+ "-c" +:+ pretty i)))
    ∧ (∀ p cs, NoDup ((λ d, metadata d !! "chunk_id") <$> page_documents p cs))
    ∧ (NoDup ((λ p, (source p, page p)) <$> pages) → NoDup (doc_key <$> docs))
    ∧ (∀ docs', build_documents pages size overlap = Some docs' →
         (λ d, metadata d !! "chunk_id") <$> docs'
         = (λ d, metadata d !! "chunk_id") <$> docs).
Proof.
  destruct (build_documents_spec pages size overlap) as (css & Hall & Hrun).
  exists css, (concat (zip_with page_documents pages css)).
  split; [done|]. split; [done|]. split; [done|]. split.
  { intros p cs i d Hd.
    apply page_documents_lookup in Hd as (c & Hc & ->).
    destruct (chunk_document_metadata p i c) as (Ks & Kp & Kc). done. }
  split; [apply page_documents_chunk_id_NoDup|].
  split; [apply zip_page_documents_NoDup|].
  intros docs' Hrun'. congruence.
Qed.

(** C9 as the specification states it fails: two page entries with the
    same source and page number give two documents with the same id. *)
Lemma repeated_page_repeats_chunk_id :
  ∃ docs d1 d2,
    build_documents [mkPage 1 "x" "a.pdf"; mkPage 1 "y" "a.pdf"] 10 0 = Some docs
    ∧ docs !! 0%nat = Some d1 ∧ docs !! 1%nat = Some d2
    ∧ page_content d1 ≠ page_content d2
    ∧ metadata d1 !! "source" = metadata d2 !! "source"
    ∧ metadata d1 !! "page" = metadata d2 !! "page"
    ∧ metadata d1 !! "chunk_id" = Some (VStr "a.pdf-p1-c0")
    ∧ metadata d2 !! "chunk_id" = Some (VStr "a.pdf-p1-c0").
Proof. do 3 eexists. by vm_compute. Qed.

End BuildDocumentsClaims.

End ChunkingProofs.

(* ===================================================================== *)
(** * The page extractor *)
(* ===================================================================== *)

Module PdfProcessorProofs.
Import PdfProcessor.

Lemma append_pages_run R file_path (i : Z) texts pages :
  @append_pages R file_path i texts pages
  = (Next (),
     pages ++ imap (λ k t, {| page := i + Z.of_nat k;
                              text := _clean_text (default "" t);
                              source := split_last file_path |}) texts).
Proof.
  revert i pages. induction texts as [|t texts IH]; intros i pages.
  - simpl. by rewrite app_nil_r.
  - cbn [append_pages]. run_stmt. rewrite IH. f_equal.
    rewrite <- (assoc_L (++)). f_equal. simpl. rewrite Z.add_0_r. f_equal.
    apply imap_ext. intros k t' _. simpl. f_equal. lia.
Qed.

Lemma extract_with_run R run file_path pages :
  @extract_with R run file_path pages
  = (match failure run with Some e => Raise e | None => Next () end,
     pages ++ contribution file_path run).
Proof.
  unfold extract_with. run_stmt. rewrite append_pages_run.
  assert (imap (λ k t, {| page := 1 + Z.of_nat k;
                          text := _clean_text (default "" t);
                          source := split_last file_path |}) (extracted run)
          = contribution file_path run) as ->.
  { apply imap_ext. intros k t _. simpl. f_equal. lia. }
  by destruct (failure run).
Qed.

Lemma extract_text_by_page_eq `{PdfLibs} file_path :
  extract_text_by_page file_path
  = Ok (Some (contribution file_path (pdfplumber_run file_path)
              ++ fallback_contribution file_path)).
Proof.
  unfold extract_text_by_page, extract_text_by_page_body, fallback_contribution.
  run_stmt. rewrite extract_with_run.
  destruct (failure (pdfplumber_run file_path)) as [e|].
  - destruct PdfReader as [reader|]; [|by rewrite app_nil_r].
    rewrite extract_with_run. by destruct (failure (reader file_path)).
  - by rewrite app_nil_r.
Qed.

(** C10.  [extract_text_by_page] returns a page list for every file path
    and raises nothing.  The list is what pdfplumber appended followed,
    when pdfplumber raised and PyPDF2 was imported, by what PyPDF2
    appended: it is empty only when neither appended a page, and when
    pdfplumber raised after its first page and PyPDF2 reads a page too,
    page number 1 is in the list twice. *)
Theorem extract_keeps_pages_of_failed_attempt (L : PdfLibs) (file_path : string) :
  ∃ pages : list Page,
    extract_text_by_page file_path = Ok (Some pages)
    ∧ pages = contribution file_path (pdfplumber_run file_path)
              ++ fallback_contribution file_path
    ∧ (pages = [] ↔
         extracted (pdfplumber_run file_path) = []
         ∧ fallback_contribution file_path = [])
    ∧ (∀ e reader t1 ts t2 ts',
         failure (pdfplumber_run file_path) = Some e →
         PdfReader = Some reader →
         extracted (pdfplumber_run file_path) = t1 :: ts →
         extracted (reader file_path) = t2 :: ts' →
         ∃ (i j : nat) p q,
           (i < j)%nat ∧ pages !! i = Some p ∧ pages !! j = Some q
           ∧ page p = 1 ∧ page q = 1).
Proof.
  eexists. split; [apply extract_text_by_page_eq|]. split; [done|]. split.
  { split.
    - intros [Hc Hf]%app_eq_nil. split; [|done].
      unfold contribution in Hc.
      apply (f_equal length) in Hc. rewrite length_imap in Hc.
      by destruct (extracted (pdfplumber_run file_path)).
    - intros [Hc ->]. unfold contribution. by rewrite Hc. }
  intros e reader t1 ts t2 ts' Hfail Hreader Hplumber Hpypdf.
  unfold fallback_contribution, contribution.
  rewrite Hfail, Hreader, Hplumber, Hpypdf.
  exists 0%nat, (S (length ts)). eexists. eexists.
  split; [lia|]. split; [reflexivity|]. split.
  - rewrite lookup_app_r by (simpl; rewrite length_imap; lia).
    simpl. rewrite length_imap, Nat.sub_diag. reflexivity.
  - done.
Qed.

Lemma extract_keeps_pages_of_failed_attempt_witness :
  ∃ (pages : list Page) (i j : nat) p q,
    extract_text_by_page (H := interrupted_libs) "uploads/a.pdf" = Ok (Some pages)
    ∧ (i < j)%nat ∧ pages !! i = Some p ∧ pages !! j = Some q
    ∧ page p = 1 ∧ page q = 1.
Proof.
  destruct (extract_keeps_pages_of_failed_attempt interrupted_libs "uploads/a.pdf")
    as (pages & Hrun & _ & _ & Hdup).
  destruct (Hdup (Exn "PDFSyntaxError")
              (λ _, mkRun [Some "first page"; None] None)
              (Some "first  page ") [] (Some "first page") [None]
              eq_refl eq_refl eq_refl eq_refl)
    as (i & j & p & q & Hij & Hi & Hj & Hp & Hq).
  exists pages, i, j, p, q. done.
Defined.

Example extract_interrupted_file :
  extract_text_by_page (H := interrupted_libs) "uploads/a.pdf"
  = Ok (Some [ mkPage 1 "first page" "a.pdf";
               mkPage 1 "first page" "a.pdf";
               mkPage 2 "" "a.pdf" ]).
Proof. by vm_compute. Qed.

End PdfProcessorProofs.

Module HistoryProofs.
Import App.

Lemma chat_history_loop_acc stored acc pending :
  chat_history_loop stored acc pending = acc ++ chat_history_loop stored [] pending.
Proof.
  revert acc pending. induction stored as [|msg rest IH]; intros acc pending; simpl.
  - by rewrite app_nil_r.
  - destruct (decide (role msg = "user")); [apply IH|].
    destruct (decide (role msg = "assistant")); [|apply IH].
    destruct pending as [u|]; [|apply IH].
    rewrite IH, (IH [_]). by rewrite (assoc_L (++)).
Qed.

(** C3.  The reconstruction of the chat history scans the log in order
    with a pending user slot: a user entry overwrites the slot; an
    assistant entry with a pending user emits the pair and clears the
    slot; an assistant entry without one is dropped; what is pending at
    the end is dropped; pairs already emitted stay in front, in order.
    The three logs of the specification give the pairs it lists. *)
Theorem reconstruct_pairs_user_with_next_assistant :
  (∀ c cits rest acc pending,
     chat_history_loop (mkEntry "user" c cits :: rest) acc pending
     = chat_history_loop rest acc (Some c))
  ∧ (∀ c cits rest acc u,
       chat_history_loop (mkEntry "assistant" c cits :: rest) acc (Some u)
       = chat_history_loop rest (acc ++ [(u, c)]) None)
  ∧ (∀ c cits rest acc,
       chat_history_loop (mkEntry "assistant" c cits :: rest) acc None
       = chat_history_loop rest acc None)
  ∧ (∀ acc pending, chat_history_loop [] acc pending = acc)
  ∧ (∀ stored acc pending,
       chat_history_loop stored acc pending
       = acc ++ chat_history_loop stored [] pending)
  ∧ reconstruct [ mkEntry "user" "A" None; mkEntry "assistant" "B" (Some []);
                  mkEntry "user" "C" None; mkEntry "assistant" "D" (Some []) ]
    = [("A", "B"); ("C", "D")]
  ∧ reconstruct [ mkEntry "user" "A" None; mkEntry "user" "C" None;
                  mkEntry "assistant" "D" (Some []) ]
    = [("C", "D")]
  ∧ reconstruct [ mkEntry "assistant" "X" (Some []) ] = [].
Proof.
  repeat split; try done.
  apply chat_history_loop_acc.
Qed.

End HistoryProofs.


(* ===================================================================== *)
(** * The vector store *)
(* ===================================================================== *)

Module RagChainProofs.
Import RagChain StringFacts.

Lemma append_ne_self (a b : string) : b ≠ "" → a +:+ b ≠ a.
Proof.
  intros Hb Heq. rewrite <- (append_nil_r a) in Heq at 2.
  by apply String.app_inj in Heq.
Qed.

Lemma docs_json_is_not_the_directory path :
  path_join path "docs.json" ≠ path.
Proof.
  unfold path_join. simpl. repeat case_match; subst; try done;
    by apply append_ne_self.
Qed.

Lemma docs_json_is_not_the_marker path :
  path_join path "docs.json" ≠ path_join path "store_type.txt".
Proof.
  unfold path_join. simpl.
  repeat case_match; try discriminate; intros Heq;
    repeat (apply String.app_inj in Heq); discriminate.
Qed.

(** A file outside the list [Hne] speaks of differs from each file in it. *)
Ltac not_written Hne :=
  intros <-; apply Hne; rewrite ?elem_of_cons; auto.

(** Every loader in a short list of calls is the expected one. *)
Ltac only_loader :=
  let b' := fresh "b'" in
  let Hb' := fresh "Hb'" in
  intros b' Hb'; cbn in Hb';
  repeat (apply elem_of_cons in Hb' as [Hb'|Hb']; [done|]);
  by apply elem_of_nil in Hb'.

(** An outcome of a loader with its calls listed. *)
Ltac loader_outcome :=
  split; [done|];
  split; [by cbn; rewrite <- ?(assoc_L (++)), ?app_nil_r|];
  split; [only_loader | done].

Lemma length_append (a b : string) :
  String.length (a +:+ b) = (String.length a + String.length b)%nat.
Proof.
  induction a as [|c a IH]; [done|].
  change (S (String.length (a +:+ b)) = S (String.length a + String.length b)).
  by rewrite IH.
Qed.

(** A file below [path] is neither [path] nor a directory above it. *)
Lemma heads_prefix seen rest d :
  d ∈ heads seen rest →
  ∃ l1 l2, rest = l1 ++ l2 ∧ l2 ≠ [] ∧ d = string_of_list_ascii (seen ++ l1).
Proof.
  revert seen. induction rest as [|c rest IH]; intros seen; [by intros ?%elem_of_nil|].
  cbn [heads]. intros [Hd|Hd]%elem_of_app.
  - exists [], (c :: rest). rewrite app_nil_r. split; [done|]. split; [done|].
    destruct (_ && _); [by apply list_elem_of_singleton in Hd | by apply elem_of_nil in Hd].
  - destruct (IH _ Hd) as (l1 & l2 & -> & Hl2 & ->).
    exists (c :: l1), l2. split; [done|]. split; [done|]. by rewrite <- (assoc_L (++)).
Qed.

Lemma ancestors_shorter path d :
  d ∈ ancestors path → (String.length d < String.length path)%nat.
Proof.
  unfold ancestors. rewrite elem_of_reverse. intros Hd.
  apply heads_prefix in Hd as (l1 & l2 & Hl & Hl2 & ->).
  rewrite length_string_of_list_ascii, <- length_list_ascii_of_string, Hl.
  cbn [app]. rewrite length_app. destruct l2; [done|]. cbn. lia.
Qed.

Lemma store_file_is_below path name :
  name = "store_type.txt" ∨ name = "docs.json" →
  path_join path name ∉ path :: ancestors path.
Proof.
  intros Hname.
  assert (path_join path name ≠ path
          ∧ (String.length path ≤ String.length (path_join path name))%nat)
    as [Hne Hlen].
  { unfold path_join.
    assert (String.prefix "/" name = false) as -> by (by destruct Hname as [-> | ->]).
    assert (name ≠ "" ∧ "/" +:+ name ≠ "") as [Hn1 Hn2] by (by destruct Hname as [-> | ->]).
    destruct (decide (path = "")) as [->|_]; [split; [done | cbn; lia]|].
    destruct (decide _).
    - split; [by apply append_ne_self | rewrite length_append; lia].
    - split; [by apply append_ne_self | rewrite length_append; lia]. }
  intros [Heq|Hin]%elem_of_cons; [done|].
  apply ancestors_shorter in Hin. lia.
Qed.

Section Blocks.
Context `{VectorLibs}.

Lemma frame_trans written w1 w2 w3 :
  frame written w1 w2 → frame written w2 w3 → frame written w1 w3.
Proof. intros H12 H23 f Hf Hw. by rewrite H23, H12. Qed.

Lemma frame_mono written written' w w' :
  (∀ f, f ∈ written → f ∈ written') → frame written w w' → frame written' w w'.
Proof. intros Hsub Hfr f Hf Hw. apply Hfr; [done|]. intros ?. apply Hw. by apply Hsub. Qed.

Lemma marker_is_written (path f : string) :
  f ∈ [path_join path "store_type.txt"] →
  f ∈ [path_join path "store_type.txt"; path_join path "docs.json"].
Proof. intros ->%list_elem_of_singleton. left. Qed.

Lemma made_dirs_refl w : made_dirs w w.
Proof. by repeat split. Qed.

Lemma made_dirs_trans w1 w2 w3 : made_dirs w1 w2 → made_dirs w2 w3 → made_dirs w1 w3.
Proof.
  intros (Hf1 & Ht1 & Hd1) (Hf2 & Ht2 & Hd2).
  split; [congruence|]. split; [congruence|]. by etrans.
Qed.

(** [os.mkdir] makes the one directory or raises with nothing changed. *)
Lemma mkdir_run R parent p w :
  ∃ o w',
    @mkdir _ R parent p w = (o, w')
    ∧ match o with
      | Next _ => w' = {| fs := {| dirs := {[p]} ∪ dirs (fs w);
                                   files := files (fs w) |};
                          trace := trace w |}
      | Return _ => False
      | Raise _ => w' = w
      end.
Proof.
  unfold mkdir. run_stmt. destruct (decide (p = "")); [by eexists _, _|].
  destruct parent as [d|].
  - destruct (decide (is_Some (files (fs w) !! d))); [by eexists _, _|].
    destruct (decide (d ∈ dirs (fs w))); [|by eexists _, _].
    destruct (path_exists p w); [by eexists _, _|].
    destruct (mkdir_refused p (fs w)); by eexists _, _.
  - destruct (path_exists p w); [by eexists _, _|].
    destruct (mkdir_refused p (fs w)); by eexists _, _.
Qed.

(** The last step of [os.makedirs]: the directory is there afterwards, or
    the exception of [mkdir] is raised with nothing changed. *)
Lemma mkdir_exist_ok_run R parent name w :
  ∃ o w',
    try_except (@mkdir _ R parent name)
      (λ e, w ← get_state;
            if decide (name ∈ dirs (fs w)) then pass else raise e) w = (o, w')
    ∧ made_dirs w w'
    ∧ (∀ d, d ∈ dirs (fs w') → d ∈ dirs (fs w) ∨ d = name)
    ∧ match o with
      | Next _ => name ∈ dirs (fs w')
      | Return _ => False
      | Raise _ => w' = w
      end.
Proof.
  unfold try_except.
  destruct (mkdir_run R parent name w) as (o & w' & -> & Ho).
  destruct o as [[]|?|e]; [|done|].
  - subst w'. eexists _, _. split; [done|]. cbn. split.
    { split; [done|]. split; [done|]. apply union_subseteq_r. }
    split.
    { intros d [->%elem_of_singleton|Hd]%elem_of_union; auto. }
    apply elem_of_union. left. by apply elem_of_singleton.
  - subst w'. run_stmt. destruct (decide (name ∈ dirs (fs w))).
    + eexists _, _. split; [done|]. split; [apply made_dirs_refl|]. split; [auto|done].
    + eexists _, _. split; [done|]. split; [apply made_dirs_refl|]. split; [auto|done].
Qed.

Lemma makedirs_below_run R above name w :
  ∃ o w',
    @makedirs_below _ R above name w = (o, w')
    ∧ made_dirs w w'
    ∧ (∀ d, d ∈ dirs (fs w') → d ∈ dirs (fs w) ∨ d ∈ name :: above)
    ∧ match o with
      | Next _ => name ∈ dirs (fs w')
      | Return _ => False
      | Raise _ => True
      end.
Proof.
  revert name w. induction above as [|head above IH]; intros name w.
  - destruct (mkdir_exist_ok_run R (List.head []) name w) as (o & w' & Hrun & Hm & Hd & Ho).
    cbn [makedirs_below].
    cbv [mbind stmt_bind bind pass ret get_state] in Hrun |- *. rewrite Hrun.
    exists o, w'. split; [done|]. split; [done|]. split.
    { intros d Hin. destruct (Hd d Hin) as [?| ->]; [by left | right; left]. }
    by destruct o.
  - assert (∃ o1 w1,
              when (negb (path_exists head w))
                (try_except (@makedirs_below _ R above head)
                   (λ e, if is_FileExistsError e then pass else raise e)) w = (o1, w1)
              ∧ made_dirs w w1
              ∧ (∀ d, d ∈ dirs (fs w1) → d ∈ dirs (fs w) ∨ d ∈ head :: above)
              ∧ match o1 with Return _ => False | _ => True end)
      as (o1 & w1 & Hrun1 & Hm1 & Hd1 & Ho1).
    { destruct (path_exists head w); cbn [negb when].
      - exists (Next ()), w. split; [done|]. split; [apply made_dirs_refl|]. auto.
      - unfold try_except. destruct (IH head w) as (o & w1 & -> & Hm & Hd & Ho).
        destruct o as [[]|?|e]; [by eexists _, _| done |].
        destruct (is_FileExistsError e); by eexists _, _. }
    cbn [makedirs_below].
    cbv [mbind stmt_bind bind pass ret get_state] in Hrun1 |- *. rewrite Hrun1.
    destruct o1 as [[]|?|e]; [|done|].
    + destruct (mkdir_exist_ok_run R (List.head (head :: above)) name w1)
        as (o & w' & Hrun & Hm & Hd & Ho).
      cbv [mbind stmt_bind bind pass ret get_state] in Hrun. rewrite Hrun.
      exists o, w'. split; [done|]. split; [by eapply made_dirs_trans|]. split.
      { intros d Hin. destruct (Hd d Hin) as [Hin1| ->]; [|right; left].
        destruct (Hd1 d Hin1) as [?|?]; [by left | right; by right]. }
      by destruct o.
    + exists (Raise e), w1. split; [done|]. split; [done|]. split; [|done].
      intros d Hin. destruct (Hd1 d Hin) as [?|?]; [by left | right; by right].
Qed.

(** [os.makedirs] touches no file and calls no library; it makes only
    the directory and directories above it, and when it returns the
    directory is there. *)
Lemma makedirs_run R path w :
  ∃ o w',
    @makedirs _ R path w = (o, w')
    ∧ made_dirs w w'
    ∧ (∀ d, d ∈ dirs (fs w') → d ∈ dirs (fs w) ∨ d ∈ path :: ancestors path)
    ∧ match o with
      | Next _ => path ∈ dirs (fs w')
      | Return _ => False
      | Raise _ => True
      end.
Proof. apply makedirs_below_run. Qed.

Lemma write_file_run R path name content w :
  (@write_file R path name content w
   = (Next (), {| fs := {| dirs := dirs (fs w);
                           files := <[path_join path name := content]> (files (fs w)) |};
                  trace := trace w |})
   ∧ path_join path name ∉ dirs (fs w))
  ∨ (∃ e, @write_file R path name content w = (Raise e, w)).
Proof. unfold write_file. run_stmt. repeat case_match; eauto. Qed.

(** [_write_store_type] leaves the marker written as a regular file, or
    raises with every file as before. *)
Lemma write_store_type_run R path tag w :
  ∃ o w',
    @call World R unit (_write_store_type path tag) w = (o, w')
    ∧ trace w' = trace w
    ∧ (∀ d, d ∈ dirs (fs w') → d ∈ dirs (fs w) ∨ d ∈ path :: ancestors path)
    ∧ match o with
      | Next r =>
          r = None
          ∧ files (fs w') = <[path_join path "store_type.txt" := tag]> (files (fs w))
          ∧ path_join path "store_type.txt" ∉ dirs (fs w')
      | Return _ => False
      | Raise _ => files (fs w') = files (fs w)
      end.
Proof.
  unfold _write_store_type, call, run_function. cbv [mbind stmt_bind bind].
  destruct (makedirs_run unit path w) as (o & w1 & -> & (Hf & Ht & Hsub) & Hd & Ho).
  destruct o as [[]|?|e]; [|done|by eexists _, _].
  destruct (write_file_run unit path "store_type.txt" tag w1) as [[-> Hnd]|(e & ->)].
  - eexists _, _. split; [done|]. cbn. rewrite Hf. by repeat split.
  - by eexists _, _.
Qed.

Lemma lib_call_run R A (c : LibCall) (r : Res A) w :
  @lib_call R A c r w
  = (match r with Ok a => Next a | Err e => Raise e end,
     {| fs := fs w; trace := trace w ++ [c] |}).
Proof. unfold lib_call. run_stmt. by destruct r. Qed.

Lemma lib_call_fs_run R A (c : LibCall) (f : FS → Res A * FS) w :
  @lib_call_fs R A c f w
  = (match fst (f (fs w)) with Ok a => Next a | Err e => Raise e end,
     {| fs := snd (f (fs w)); trace := trace w ++ [c] |}).
Proof. unfold lib_call_fs. run_stmt. simpl. by destruct (f (fs w)) as [[a|e] fs']. Qed.

Lemma build_and_save_store_blocks documents embeddings path prefer :
  build_and_save_store documents embeddings path prefer
  = (makedirs path;;
     when (bool_decide (lower prefer = "faiss")) (faiss_block documents embeddings path);;
     chroma_block documents embeddings path;;
     docarray_block documents embeddings path).
Proof. reflexivity. Qed.

(** The FAISS block never raises: it returns the FAISS store, with the
    marker written over what [save_local] left, or falls through. *)
Lemma faiss_block_run documents embeddings path w :
  ∃ o w' new,
    faiss_block documents embeddings path w = (o, w')
    ∧ trace w' = trace w ++ new
    ∧ attempts new = [Faiss]
    ∧ frame [path_join path "store_type.txt"] w w'
    ∧ match o with
      | Return s =>
          ∃ store fs1,
            s = FaissIndex store
            ∧ FAISS_from_documents documents embeddings = Ok store
            ∧ FAISS_save_local store path (fs w) = (Ok (), fs1)
            ∧ files (fs w') = <[path_join path "store_type.txt" := "faiss"]> (files fs1)
            ∧ (path_join path "store_type.txt" ∉ dirs (fs w'))
            ∧ new = [FaissFromDocuments; FaissSaveLocal]
      | Next _ => True
      | Raise _ => False
      end.
Proof.
  unfold faiss_block. cbv [try_except mbind stmt_bind bind pass ret].
  rewrite lib_call_run.
  destruct (FAISS_from_documents documents embeddings) as [store|e] eqn:Hfrom.
  - rewrite lib_call_fs_run. cbn [fs trace].
    set (w1 := {| fs := snd (FAISS_save_local store path (fs w));
                  trace := (trace w ++ [FaissFromDocuments]) ++ [FaissSaveLocal] |}).
    assert (frame [path_join path "store_type.txt"] w w1) as Hfr1.
    { intros f (Hf & _ & _) _. apply Hf. }
    destruct (FAISS_save_local store path (fs w)) as [[[]|e] fs1] eqn:Hsave; cbn [fst snd] in *.
    + destruct (write_store_type_run Store path "faiss" w1)
        as (o & w' & -> & Ht & _ & Ho).
      destruct o as [r|?|e]; [|done|].
      * destruct Ho as (-> & Hf & Hnd).
        exists (Return (FaissIndex store)), w', [FaissFromDocuments; FaissSaveLocal].
        split; [done|]. split; [by rewrite Ht; unfold w1; cbn; rewrite <- (assoc_L (++))|].
        split; [done|]. split.
        { intros f Hpres Hne. rewrite Hf, lookup_insert_ne by not_written Hne.
          by apply Hfr1. }
        exists store, fs1. by repeat split.
      * exists (Next ()), w', [FaissFromDocuments; FaissSaveLocal].
        split; [done|]. split; [by rewrite Ht; unfold w1; cbn; rewrite <- (assoc_L (++))|].
        split; [done|]. split; [|done].
        intros f Hpres Hne. rewrite Ho. by apply Hfr1.
    + exists (Next ()), w1, [FaissFromDocuments; FaissSaveLocal].
      split; [done|]. split; [by unfold w1; cbn; rewrite <- (assoc_L (++))|]. done.
  - eexists (Next ()), _, [FaissFromDocuments].
    split; [done|]. split; [done|]. split; [done|]. split; [|done].
    by intros f _ _.
Qed.

(** The Chroma block never raises either. *)
Lemma chroma_block_run documents embeddings path w :
  ∃ o w' new,
    chroma_block documents embeddings path w = (o, w')
    ∧ trace w' = trace w ++ new
    ∧ attempts new = [Chroma]
    ∧ frame [path_join path "store_type.txt"] w w'
    ∧ match o with
      | Return s =>
          ∃ store fs1 fs2,
            s = ChromaCollection store
            ∧ Chroma_from_documents documents embeddings path (fs w) = (Ok store, fs1)
            ∧ Chroma_persist store fs1 = (Ok (), fs2)
            ∧ files (fs w') = <[path_join path "store_type.txt" := "chroma"]> (files fs2)
            ∧ (path_join path "store_type.txt" ∉ dirs (fs w'))
            ∧ new = [ChromaFromDocuments; ChromaPersist]
      | Next _ => True
      | Raise _ => False
      end.
Proof.
  unfold chroma_block. cbv [try_except mbind stmt_bind bind pass ret].
  rewrite lib_call_fs_run.
  set (w1 := {| fs := snd (Chroma_from_documents documents embeddings path (fs w));
                trace := trace w ++ [ChromaFromDocuments] |}).
  assert (frame [path_join path "store_type.txt"] w w1) as Hfr1.
  { intros f (_ & Hf & _) _. apply Hf. }
  destruct (Chroma_from_documents documents embeddings path (fs w))
    as [[store|e] fs1] eqn:Hfrom; cbn [fst snd] in *.
  - rewrite lib_call_fs_run.
    set (w2 := {| fs := snd (Chroma_persist store (fs w1));
                  trace := trace w1 ++ [ChromaPersist] |}).
    assert (frame [path_join path "store_type.txt"] w w2) as Hfr2.
    { eapply frame_trans; [exact Hfr1|]. intros f (_ & _ & Hf) _. apply Hf. }
    change (fs w1) with fs1 in *.
    destruct (Chroma_persist store fs1) as [[[]|e] fs2] eqn:Hpersist; cbn [fst snd] in *.
    + destruct (write_store_type_run Store path "chroma" w2)
        as (o & w' & -> & Ht & _ & Ho).
      destruct o as [r|?|e]; [|done|].
      * destruct Ho as (-> & Hf & Hnd).
        exists (Return (ChromaCollection store)), w', [ChromaFromDocuments; ChromaPersist].
        split; [done|].
        split; [by rewrite Ht; unfold w2, w1; cbn; rewrite <- (assoc_L (++))|].
        split; [done|]. split.
        { intros f Hpres Hne. rewrite Hf, lookup_insert_ne by not_written Hne.
          by apply Hfr2. }
        exists store, fs1, fs2. by repeat split.
      * exists (Next ()), w', [ChromaFromDocuments; ChromaPersist].
        split; [done|].
        split; [by rewrite Ht; unfold w2, w1; cbn; rewrite <- (assoc_L (++))|].
        split; [done|]. split; [|done].
        intros f Hpres Hne. rewrite Ho. by apply Hfr2.
    + exists (Next ()), w2, [ChromaFromDocuments; ChromaPersist].
      split; [done|].
      split; [by unfold w2, w1; cbn; rewrite <- (assoc_L (++))|]. done.
  - by exists (Next ()), w1, [ChromaFromDocuments].
Qed.

(** The last block returns the in-memory index with [docs.json] and the
    marker written, or raises. *)
Lemma docarray_block_run documents embeddings path w :
  ∃ o w',
    docarray_block documents embeddings path w = (o, w')
    ∧ trace w' = trace w ++ [DocArrayFromDocuments]
    ∧ frame [path_join path "store_type.txt"; path_join path "docs.json"] w w'
    ∧ match o with
      | Return s =>
          ∃ store, s = DocArrayIndex store
            ∧ DocArray_from_documents documents embeddings = Ok store
            ∧ marker path w' = Some "docarray"
            ∧ files (fs w') !! path_join path "docs.json"
              = Some (json_dump (raw_of_documents documents))
            ∧ (path_join path "docs.json" ∉ dirs (fs w'))
            ∧ path_join path "store_type.txt" ∉ dirs (fs w')
      | Next _ => False
      | Raise _ => True
      end.
Proof.
  unfold docarray_block. cbv [mbind stmt_bind bind].
  rewrite lib_call_run.
  set (w1 := {| fs := fs w; trace := trace w ++ [DocArrayFromDocuments] |}).
  destruct (DocArray_from_documents documents embeddings) as [store|e];
    [|by exists (Raise e), w1].
  destruct (write_file_run Store path "docs.json"
              (json_dump (raw_of_documents documents)) w1)
    as [[-> Hnd]|(e & ->)]; [|by exists (Raise e), w1].
  set (w2 := {| fs := _; trace := trace w1 |}).
  destruct (write_store_type_run Store path "docarray" w2)
    as (o & w' & -> & Ht & Hd & Ho).
  destruct o as [r|?|e]; [|done|].
  - destruct Ho as (-> & Hf & Hmd).
    exists (Return (DocArrayIndex store)), w'.
    split; [done|]. split; [by rewrite Ht|]. split.
    { intros f _ Hne. rewrite Hf, lookup_insert_ne by not_written Hne.
      unfold w2. cbn. rewrite lookup_insert_ne by not_written Hne. done. }
    exists store. split; [done|]. split; [done|]. split.
    { unfold marker. by rewrite Hf, lookup_insert_eq. }
    split.
    { rewrite Hf, lookup_insert_ne by (symmetry; apply docs_json_is_not_the_marker).
      unfold w2. cbn. by rewrite lookup_insert_eq. }
    split; [|done].
    intros Hin. destruct (Hd _ Hin) as [Hold|Hnew]; [done|].
    by apply (store_file_is_below path "docs.json") in Hnew; [|right].
  - exists (Raise e), w'.
    split; [done|]. split; [by rewrite Ht|]. split; [|done].
    intros f _ Hne. rewrite Ho. unfold w2. cbn.
    rewrite lookup_insert_ne by not_written Hne. done.
Qed.

(** A successful build, block by block: the backends tried, the marker,
    the files the build wrote itself, and for each backend what its
    payload is. *)
Lemma build_run documents embeddings path prefer w store w' :
  run_function (build_and_save_store documents embeddings path prefer) w
  = (Ok (Some store), w') →
  ∃ w0 o1 w1 new,
    @makedirs _ Store path w = (Next (), w0)
    ∧ when (bool_decide (lower prefer = "faiss"))
        (faiss_block documents embeddings path) w0 = (o1, w1)
    ∧ trace w' = trace w ++ new
    ∧ (∃ rest, fallback_order prefer = attempts new ++ rest)
    ∧ last (attempts new) = Some (store_backend store)
    ∧ marker path w' = Some (backend_tag (store_backend store))
    ∧ (path_join path "store_type.txt" ∉ dirs (fs w'))
    ∧ frame (written path (store_backend store)) w w'
    ∧ match store with
      | FaissIndex s =>
          o1 = Return (FaissIndex s) ∧ w1 = w'
          ∧ FAISS_from_documents documents embeddings = Ok s
          ∧ (∃ pre, new = pre ++ [FaissFromDocuments; FaissSaveLocal])
          ∧ ∃ fs1, FAISS_save_local s path (fs w0) = (Ok (), fs1)
                   ∧ files (fs w')
                     = <[path_join path "store_type.txt" := "faiss"]> (files fs1)
      | ChromaCollection s =>
          o1 = Next ()
          ∧ (∃ pre, new = pre ++ [ChromaFromDocuments; ChromaPersist])
          ∧ ∃ fs1 fs2,
              Chroma_from_documents documents embeddings path (fs w1) = (Ok s, fs1)
              ∧ Chroma_persist s fs1 = (Ok (), fs2)
              ∧ files (fs w')
                = <[path_join path "store_type.txt" := "chroma"]> (files fs2)
      | DocArrayIndex s =>
          o1 = Next ()
          ∧ DocArray_from_documents documents embeddings = Ok s
          ∧ files (fs w') !! path_join path "docs.json"
            = Some (json_dump (raw_of_documents documents))
          ∧ path_join path "docs.json" ∉ dirs (fs w')
      end.
Proof.
  rewrite build_and_save_store_blocks. unfold run_function, fallback_order.
  cbv [mbind stmt_bind bind].
  destruct (makedirs_run Store path w) as (o0 & w0 & Hmk & (Hf0 & Ht0 & _) & _ & Ho0).
  rewrite Hmk. destruct o0 as [[]|?|e0]; [|done|done].
  assert (frame [path_join path "store_type.txt"] w w0) as Hfr0.
  { intros f _ _. by rewrite Hf0. }
  assert (∃ o1 w1 new1,
            when (bool_decide (lower prefer = "faiss"))
              (faiss_block documents embeddings path) w0 = (o1, w1)
            ∧ trace w1 = trace w ++ new1
            ∧ attempts new1
              = (if bool_decide (lower prefer = "faiss") then [Faiss] else [])
            ∧ frame [path_join path "store_type.txt"] w w1
            ∧ match o1 with
              | Return s =>
                  bool_decide (lower prefer = "faiss") = true
                  ∧ ∃ store fs1,
                      s = FaissIndex store
                      ∧ FAISS_from_documents documents embeddings = Ok store
                      ∧ FAISS_save_local store path (fs w0) = (Ok (), fs1)
                      ∧ files (fs w1)
                        = <[path_join path "store_type.txt" := "faiss"]> (files fs1)
                      ∧ (path_join path "store_type.txt" ∉ dirs (fs w1))
                      ∧ new1 = [FaissFromDocuments; FaissSaveLocal]
              | Next _ => True
              | Raise _ => False
              end) as (o1 & w1 & new1 & Hfaiss & Ht1 & Ha1 & Hfr1 & Ho1).
  { destruct (bool_decide (lower prefer = "faiss")); simpl.
    - destruct (faiss_block_run documents embeddings path w0)
        as (o & w1 & new & Hrun & Ht & Ha & Hfr & Ho).
      exists o, w1, new. split; [done|]. split; [by rewrite Ht, Ht0|]. split; [done|].
      split; [by eapply frame_trans|]. by destruct o.
    - exists (Next ()), w0, []. rewrite app_nil_r. by repeat split. }
  rewrite Hfaiss.
  destruct o1 as [[]|s1|e1]; [| |done].
  2:{ intros [= <- <-].
      destruct Ho1 as (Hpref & s & fs1 & -> & Hfrom & Hsave & Hfiles & Hnd & ->).
      exists w0, (Return (FaissIndex s)), w1, [FaissFromDocuments; FaissSaveLocal].
      rewrite Hpref in *.
      split; [done|]. split; [done|]. split; [done|]. split; [by eexists|].
      split; [done|]. split; [unfold marker; by rewrite Hfiles, lookup_insert_eq|].
      split; [done|]. split; [done|].
      split; [done|]. split; [done|]. split; [done|]. split; [by exists []|].
      by exists fs1. }
  destruct (chroma_block_run documents embeddings path w1)
    as (o2 & w2 & new2 & -> & Ht2 & Ha2 & Hfr2 & Ho2).
  destruct o2 as [[]|s2|e2]; [| |done].
  2:{ intros [= <- <-].
      destruct Ho2 as (s & fs1 & fs2 & -> & Hfrom & Hpersist & Hfiles & Hnd & ->).
      exists w0, (Next ()), w1, (new1 ++ [ChromaFromDocuments; ChromaPersist]).
      split; [done|]. split; [done|].
      split; [by rewrite Ht2, Ht1, <- (assoc_L (++))|].
      unfold attempts in *. rewrite omap_app, Ha1. simpl.
      split; [destruct (bool_decide _); by eexists|].
      split; [by destruct (bool_decide _)|].
      split; [unfold marker; by rewrite Hfiles, lookup_insert_eq|].
      split; [done|]. split; [by eapply frame_trans|].
      split; [done|]. split; [by eexists|]. by exists fs1, fs2. }
  destruct (docarray_block_run documents embeddings path w2)
    as (o3 & w3 & -> & Ht3 & Hfr3 & Ho3).
  destruct o3 as [[]|s3|e3]; [done| |done].
  intros [= <- <-]. destruct Ho3 as (s & -> & Hs & Hm & Hdocs & Hnd & Hmd).
  exists w0, (Next ()), w1, (new1 ++ new2 ++ [DocArrayFromDocuments]).
  split; [done|]. split; [done|].
  split; [by rewrite Ht3, Ht2, Ht1, <- !(assoc_L (++))|].
  unfold attempts in *. rewrite !omap_app, Ha1, Ha2. simpl.
  split; [destruct (bool_decide _); by exists []|].
  split; [by destruct (bool_decide _)|]. split; [done|]. split; [done|].
  split; [|done].
  eapply frame_trans; [|exact Hfr3].
  eapply frame_mono; [|eapply frame_trans; [exact Hfr1 | exact Hfr2]].
  apply marker_is_written.
Qed.

Lemma read_file_run R path name w :
  @read_file R path name w
  = (if decide (path_join path name ∈ dirs (fs w)) then Raise IsADirectoryError
     else match files (fs w) !! path_join path name with
          | Some content => Next (read_text content)
          | None => Raise FileNotFoundError
          end,
     w).
Proof. unfold read_file. run_stmt. repeat case_match; done. Qed.

Lemma read_store_type_run R path w :
  @call World R (option string) (_read_store_type path) w
  = (Next (Some (stored_type path w)), w).
Proof.
  unfold _read_store_type, call, run_function, stored_type, marker.
  cbv [try_except mbind stmt_bind bind return_]. rewrite read_file_run.
  repeat case_match; simplify_eq/=; done.
Qed.

(** The name of a backend in the marker file holds no white space. *)
Lemma backend_tag_no_space b :
  Forall (λ c, is_space c = false) (list_ascii_of_string (backend_tag b)).
Proof. destruct b; cbn; repeat constructor. Qed.

Lemma load_faiss_run path embeddings others w :
  load_faiss path embeddings others w
  = match FAISS_load_local path embeddings true (fs w) with
    | Ok s => (Return (FaissIndex s),
               {| fs := fs w; trace := trace w ++ [FaissLoadLocal true] |})
    | Err e =>
        if is_TypeError e then
          (match FAISS_load_local path embeddings false (fs w) with
           | Ok s => Return (FaissIndex s)
           | Err e' => Raise e'
           end,
           {| fs := fs w;
              trace := (trace w ++ [FaissLoadLocal true]) ++ [FaissLoadLocal false] |})
        else others e {| fs := fs w; trace := trace w ++ [FaissLoadLocal true] |}
    end.
Proof.
  unfold load_faiss. cbv [try_except mbind stmt_bind bind get_state return_].
  rewrite lib_call_run.
  destruct (FAISS_load_local path embeddings true (fs w)) as [s|e]; [done|].
  destruct (is_TypeError e); [|done].
  rewrite lib_call_run. cbn [fs trace].
  by destruct (FAISS_load_local path embeddings false (fs w)).
Qed.

Lemma documents_of_raw_run R raw w :
  @documents_of_raw R raw w
  = (match mapM (λ r, (λ content,
                         {| page_content := content;
                            metadata := default ∅ (raw_metadata r) |})
                        <$> raw_page_content r) raw with
     | Some docs => Next docs
     | None => Raise KeyError
     end, w).
Proof.
  induction raw as [|r raw IH]; [done|].
  cbn [documents_of_raw mapM]. destruct (raw_page_content r) as [content|]; [|done].
  cbv [mbind stmt_bind bind]. rewrite IH. simpl.
  by destruct (mapM _ raw).
Qed.

Lemma documents_of_raw_of_documents R documents w :
  @documents_of_raw R (raw_of_documents documents) w = (Next documents, w).
Proof.
  induction documents as [|d documents IH]; [done|].
  cbn [raw_of_documents fmap list_fmap documents_of_raw raw_page_content].
  cbv [mbind stmt_bind bind]. unfold raw_of_documents in IH. rewrite IH.
  by destruct d.
Qed.

(** A loader ends by [return] or by raising, and calls its own library
    only. *)
Lemma backend_loader_run b path embeddings w :
  ∃ o w' new,
    backend_loader b path embeddings w = (o, w')
    ∧ trace w' = trace w ++ new
    ∧ (∀ b', b' ∈ loaders new → b' = b)
    ∧ match o with
      | Next _ => False
      | Return s => store_backend s = b
      | Raise _ => True
      end.
Proof.
  destruct b; cbn [backend_loader].
  - rewrite load_faiss_run.
    destruct (FAISS_load_local path embeddings true (fs w)) as [s|e].
    + eexists _, _, [_]. loader_outcome.
    + destruct (is_TypeError e).
      * destruct (FAISS_load_local path embeddings false (fs w)) as [s|e'];
          (eexists _, _, [_; _]; loader_outcome).
      * eexists _, _, [_]. loader_outcome.
  - cbv [mbind stmt_bind bind return_]. rewrite lib_call_fs_run.
    destruct (fst (Chroma_open path embeddings (fs w))) as [s|e];
      (eexists _, _, [_]; loader_outcome).
  - unfold load_docarray. cbv [mbind stmt_bind bind return_ of_res ret raise].
    rewrite read_file_run.
    destruct (decide _); [exists (Raise IsADirectoryError), w, []; loader_outcome|].
    destruct (files (fs w) !! _) as [content|];
      [|exists (Raise FileNotFoundError), w, []; loader_outcome].
    destruct (json_load (read_text content)) as [raw|e];
      [|exists (Raise e), w, []; loader_outcome].
    rewrite documents_of_raw_run.
    destruct (mapM _ raw) as [docs|];
      [|exists (Raise KeyError), w, []; loader_outcome].
    rewrite lib_call_run.
    destruct (DocArray_from_documents docs embeddings) as [s|e];
      (eexists _, _, [_]; loader_outcome).
Qed.

(** With a marker that names a backend, [load_store] is that backend's
    loader. *)
Lemma load_store_marked path embeddings w b :
  stored_type path w = Some (backend_tag b) →
  load_store path embeddings w = backend_loader b path embeddings w.
Proof.
  intros Htag. unfold load_store.
  cbv [mbind stmt_bind bind]. rewrite read_store_type_run, Htag. simpl.
  destruct (backend_loader_run b path embeddings w) as (o & w' & new & Hrun & _ & _ & Ho).
  destruct b; cbn [backend_tag backend_loader] in *.
  - rewrite bool_decide_eq_true_2 by done. cbn [when]. rewrite Hrun.
    by destruct o.
  - rewrite bool_decide_eq_false_2 by done.
    rewrite bool_decide_eq_true_2 by done. cbn [when pass ret].
    cbv [mbind stmt_bind bind] in Hrun. rewrite Hrun. by destruct o.
  - rewrite !bool_decide_eq_false_2 by done.
    rewrite bool_decide_eq_true_2 by done. cbn [when pass ret].
    rewrite Hrun. by destruct o.
Qed.

Lemma stored_type_of_marker path w content b :
  files (fs w) !! path_join path "store_type.txt" = Some content →
  path_join path "store_type.txt" ∉ dirs (fs w) →
  strip content = backend_tag b →
  stored_type path w = Some (backend_tag b).
Proof.
  intros Hfile Hdir Htag. unfold stored_type, marker.
  destruct (decide _); [done|]. rewrite Hfile. cbn. f_equal.
  rewrite strip_read_text; [done|]. rewrite Htag. apply backend_tag_no_space.
Qed.

(** Making the store directory does not change what the marker reads as. *)
Lemma stored_type_made_dirs path w w' :
  made_dirs w w' →
  (∀ d, d ∈ dirs (fs w') → d ∈ dirs (fs w) ∨ d ∈ path :: ancestors path) →
  stored_type path w' = stored_type path w.
Proof.
  intros (Hf & _ & Hsub) Hd. unfold stored_type, marker. rewrite Hf.
  destruct (decide (path_join path "store_type.txt" ∈ dirs (fs w))) as [Hin|Hnin].
  - rewrite decide_True; [done|]. by apply Hsub.
  - rewrite decide_False; [done|]. intros Hin. destruct (Hd _ Hin) as [?|Hnew]; [done|].
    by apply (store_file_is_below path "store_type.txt") in Hnew; [|left].
Qed.

Lemma load_store_dispatch path embeddings w content b :
  files (fs w) !! path_join path "store_type.txt" = Some content →
  path_join path "store_type.txt" ∉ dirs (fs w) →
  strip content = backend_tag b →
  load_store path embeddings w = backend_loader b path embeddings w.
Proof.
  intros Hfile Hdir Htag. apply load_store_marked.
  by eapply stored_type_of_marker.
Qed.

End Blocks.

(** C1.  A successful [build_and_save_store] has tried the backends in
    the order FAISS, Chroma, DocArray (without FAISS when [prefer] is not
    ["faiss"] in any case), up to the one it returns, and the marker file
    names that backend.  The payload of that backend is in place: for
    FAISS the index was built from the documents, [save_local] returned,
    and the files are those it left with the marker written over them;
    for Chroma the collection was built in the directory after the FAISS
    attempt, [persist] returned, and the files are those it left with the
    marker; for the DocArray fallback the index was built from the
    documents and [docs.json] holds their records
    [{page_content, metadata}]. *)
Theorem build_marker_names_backend_used `{VectorLibs} (documents : list Document)
    (embeddings : Embeddings) (path prefer : string) (w w' : World) (store : Store) :
  run_function (build_and_save_store documents embeddings path prefer) w
  = (Ok (Some store), w') →
  ∃ (new : list LibCall) (w0 : World),
    trace w' = trace w ++ new
    ∧ (∃ rest, fallback_order prefer = attempts new ++ rest)
    ∧ last (attempts new) = Some (store_backend store)
    ∧ marker path w' = Some (backend_tag (store_backend store))
    ∧ (path_join path "store_type.txt" ∉ dirs (fs w'))
    ∧ @makedirs _ Store path w = (Next (), w0)
    ∧ match store with
      | FaissIndex s =>
          FAISS_from_documents documents embeddings = Ok s
          ∧ (∃ pre, new = pre ++ [FaissFromDocuments; FaissSaveLocal])
          ∧ ∃ fs1, FAISS_save_local s path (fs w0) = (Ok (), fs1)
                   ∧ files (fs w')
                     = <[path_join path "store_type.txt" := "faiss"]> (files fs1)
      | ChromaCollection s =>
          (∃ pre, new = pre ++ [ChromaFromDocuments; ChromaPersist])
          ∧ ∃ w1 fs1 fs2,
              when (bool_decide (lower prefer = "faiss"))
                (faiss_block documents embeddings path) w0 = (Next (), w1)
              ∧ Chroma_from_documents documents embeddings path (fs w1) = (Ok s, fs1)
              ∧ Chroma_persist s fs1 = (Ok (), fs2)
              ∧ files (fs w')
                = <[path_join path "store_type.txt" := "chroma"]> (files fs2)
      | DocArrayIndex s =>
          DocArray_from_documents documents embeddings = Ok s
          ∧ files (fs w') !! path_join path "docs.json"
            = Some (json_dump (raw_of_documents documents))
          ∧ path_join path "docs.json" ∉ dirs (fs w')
      end.
Proof.
  intros Hrun.
  destruct (build_run documents embeddings path prefer w store w' Hrun)
    as (w0 & o1 & w1 & new & Hmk & Hfaiss & Ht & Hpre & Hlast & Hm & Hmd & _ & Hpayload).
  exists new, w0. repeat (split; [done|]).
  destruct store as [s|s|s].
  - destruct Hpayload as (_ & _ & Hs & Hnew & Hfiles). split; [done|]. by split.
  - destruct Hpayload as (-> & Hnew & fs1 & fs2 & Hfiles). split; [done|].
    by exists w1, fs1, fs2.
  - by destruct Hpayload as (_ & Hs & Hdocs & Hnd).
Qed.

Lemma build_marker_names_backend_used_witness :
  let run := run_function
               (build_and_save_store (H := sample_libs true false)
                  second_batch () "vs" "FAISS") empty_store_dir in
  fst run = Ok (Some (FaissIndex (H := sample_libs true false) second_batch))
  ∧ marker "vs" (snd run) = Some "faiss"
  ∧ ∃ w0 fs1,
      @makedirs (sample_libs true false) (@Store (sample_libs true false)) "vs"
        empty_store_dir = (Next (), w0)
      ∧ FAISS_save_local (VectorLibs := sample_libs true false) second_batch "vs" (fs w0)
        = (Ok (), fs1)
      ∧ files (fs (snd run)) = <["vs/store_type.txt" := "faiss"]> (files fs1).
Proof.
  intros run.
  assert (fst run = Ok (Some (FaissIndex (H := sample_libs true false) second_batch)))
    as Hfst by eval_eq.
  assert (run = (Ok (Some (FaissIndex (H := sample_libs true false) second_batch)),
                 snd run)) as Hrun by (rewrite <- Hfst; apply surjective_pairing).
  destruct (build_marker_names_backend_used (H := sample_libs true false)
              second_batch () "vs" "FAISS" empty_store_dir (snd run)
              (FaissIndex (H := sample_libs true false) second_batch) Hrun)
    as (new & w0 & Ht & _ & _ & Hm & _ & Hmk & _ & _ & fs1 & Hsave & Hfiles).
  split; [exact Hfst|]. split; [exact Hm|]. exists w0, fs1.
  split; [exact Hmk|]. split; [exact Hsave|]. exact Hfiles.
Defined.

(** C4, as the code has it.  When the marker file, stripped of white
    space, names a backend, [load_store] runs that backend's loader and
    nothing else: the outcome is the loader's, and the only library calls
    are that backend's.  No error of a kind of its own is raised for a
    missing payload: with the marker [docarray] and no [docs.json],
    opening the file raises [FileNotFoundError]. *)
Theorem load_dispatches_on_marker `{VectorLibs} (path : string)
    (embeddings : Embeddings) (w : World) (content : string) (b : Backend) :
  files (fs w) !! path_join path "store_type.txt" = Some content →
  path_join path "store_type.txt" ∉ dirs (fs w) →
  strip content = backend_tag b →
  run_function (load_store path embeddings) w
  = run_function (backend_loader b path embeddings) w
  ∧ (∃ r w' new,
       run_function (load_store path embeddings) w = (r, w')
       ∧ trace w' = trace w ++ new
       ∧ ∀ b', b' ∈ loaders new → b' = b)
  ∧ (b = DocArray →
     files (fs w) !! path_join path "docs.json" = None →
     path_join path "docs.json" ∉ dirs (fs w) →
     run_function (load_store path embeddings) w = (Err FileNotFoundError, w)).
Proof.
  intros Hfile Hdir Htag.
  pose proof (load_store_dispatch path embeddings w content b Hfile Hdir Htag) as Heq.
  unfold run_function. rewrite Heq. split; [done|]. split.
  - destruct (backend_loader_run b path embeddings w)
      as (o & w' & new & Hrun & Ht & Hl & Ho).
    rewrite Hrun. destruct o; eauto 10.
  - intros -> Hnone Hnodir. cbn [backend_loader]. unfold load_docarray.
    cbv [mbind stmt_bind bind]. rewrite read_file_run.
    destruct (decide _); [done|]. by rewrite Hnone.
Qed.

Lemma load_dispatches_on_marker_witness :
  run_function (load_store (H := sample_libs false false) "vs" ()) marker_without_payload
  = (Err FileNotFoundError, marker_without_payload).
Proof.
  apply (load_dispatches_on_marker (H := sample_libs false false)
           "vs" () marker_without_payload "docarray" DocArray).
  - eval_eq.
  - apply (proj1 (bool_decide_eq_false _)). eval_eq.
  - eval_eq.
  - reflexivity.
  - eval_eq.
  - apply (proj1 (bool_decide_eq_false _)). eval_eq.
Defined.

(** C4 as the specification states it fails: a marker without its
    payload makes [load_store] raise [FileNotFoundError], and no error of
    class [StoreCorrupted]. *)
Lemma missing_payload_is_not_store_corrupted :
  marker "vs" marker_without_payload = Some "docarray"
  ∧ files (fs marker_without_payload) !! "vs/docs.json" = None
  ∧ fst (run_function (load_store (H := sample_libs false false) "vs" ())
           marker_without_payload)
    = Err FileNotFoundError
  ∧ exn_class FileNotFoundError ≠ "StoreCorrupted".
Proof. repeat split; [eval_eq .. | discriminate]. Qed.

(** C6, as the code has it.  A successful build at a path, whatever the
    directory held before, leaves the marker naming the new backend.  The
    build removes nothing: every file that the library calls leave alone
    is as it was, except the marker and, when the build fell back to
    DocArray, [docs.json]; so a [docs.json] of an earlier build is still
    there after a build that returns a FAISS or Chroma store.  In the
    DocArray fallback [docs.json] holds the records of the new documents,
    and a later [load_store] (when [json.load] reads back what
    [json.dump] wrote) returns the index built from exactly these
    documents. *)
Theorem rebuild_overwrites_marker_and_record `{VectorLibs} (documents : list Document)
    (embeddings : Embeddings) (path prefer : string) (w w' : World) (store : Store) :
  run_function (build_and_save_store documents embeddings path prefer) w
  = (Ok (Some store), w') →
  marker path w' = Some (backend_tag (store_backend store))
  ∧ (∀ f, libs_preserve f →
          f ≠ path_join path "store_type.txt" →
          (store_backend store = DocArray → f ≠ path_join path "docs.json") →
          files (fs w') !! f = files (fs w) !! f)
  ∧ (store_backend store ≠ DocArray →
     libs_preserve (path_join path "docs.json") →
     files (fs w') !! path_join path "docs.json"
     = files (fs w) !! path_join path "docs.json")
  ∧ (∀ s, store = DocArrayIndex s →
          DocArray_from_documents documents embeddings = Ok s
          ∧ files (fs w') !! path_join path "docs.json"
            = Some (json_dump (raw_of_documents documents))
          ∧ (json_load (read_text (json_dump (raw_of_documents documents)))
             = Ok (raw_of_documents documents) →
             run_function (load_store path embeddings) w'
             = (Ok (Some (DocArrayIndex s)),
                {| fs := fs w'; trace := trace w' ++ [DocArrayFromDocuments] |}))).
Proof.
  intros Hrun.
  destruct (build_run documents embeddings path prefer w store w' Hrun)
    as (w0 & o1 & w1 & new & _ & _ & Ht & Hpre & Hlast & Hm & Hmd & Hfr & Hpayload).
  assert (∀ f, libs_preserve f →
               f ≠ path_join path "store_type.txt" →
               (store_backend store = DocArray → f ≠ path_join path "docs.json") →
               files (fs w') !! f = files (fs w) !! f) as Hframe.
  { intros f Hpres Hne1 Hne2. apply Hfr; [done|].
    destruct store; cbn [written store_backend] in *;
      intros Hin; apply elem_of_cons in Hin as [->|Hin]; try done;
      try (by apply elem_of_nil in Hin).
    apply list_elem_of_singleton in Hin. by apply Hne2. }
  split; [done|]. split; [done|]. split.
  { intros Hb Hpres. apply Hframe; [done| |done].
    apply docs_json_is_not_the_marker. }
  intros s ->. destruct Hpayload as (_ & Hs & Hdocs & Hnd).
  split; [done|]. split; [done|]. intros Hjson.
  unfold run_function.
  rewrite (load_store_dispatch path embeddings w' "docarray" DocArray Hm Hmd eq_refl).
  cbn [backend_loader]. unfold load_docarray.
  cbv [mbind stmt_bind bind of_res ret]. rewrite read_file_run.
  destruct (decide _); [done|]. rewrite Hdocs, Hjson.
  by rewrite documents_of_raw_of_documents, lib_call_run, Hs.
Qed.

Lemma rebuild_overwrites_marker_and_record_witness :
  let run := run_function
               (build_and_save_store (H := sample_libs false false)
                  first_batch () "vs" "faiss") marker_without_payload in
  marker "vs" (snd run) = Some "docarray"
  ∧ run_function (load_store (H := sample_libs false false) "vs" ()) (snd run)
    = (Ok (Some (DocArrayIndex (H := sample_libs false false) first_batch)),
       {| fs := fs (snd run); trace := trace (snd run) ++ [DocArrayFromDocuments] |}).
Proof.
  intros run.
  assert (fst run = Ok (Some (DocArrayIndex (H := sample_libs false false) first_batch)))
    as Hfst by eval_eq.
  assert (run = (Ok (Some (DocArrayIndex (H := sample_libs false false) first_batch)),
                 snd run)) as Hrun by (rewrite <- Hfst; apply surjective_pairing).
  destruct (rebuild_overwrites_marker_and_record (H := sample_libs false false)
              first_batch () "vs" "faiss" marker_without_payload (snd run)
              (DocArrayIndex (H := sample_libs false false) first_batch) Hrun)
    as (Hm & _ & _ & Hload).
  split; [exact Hm|].
  destruct (Hload first_batch eq_refl) as (_ & _ & Hreload).
  apply Hreload. eval_eq.
Defined.

(** C6 as the specification states it fails: after a build that fell
    back to [docs.json], a second build that succeeds with FAISS leaves
    the first build's [docs.json], with the records of the first batch,
    in the directory. *)
Lemma earlier_record_survives_rebuild :
  let w1 := snd (run_function
                   (build_and_save_store (H := sample_libs false false)
                      first_batch () "vs" "faiss") empty_store_dir) in
  let run2 := run_function
                (build_and_save_store (H := sample_libs true false)
                   second_batch () "vs" "faiss") w1 in
  files (fs w1) !! "vs/docs.json" = Some sample_json
  ∧ fst run2 = Ok (Some (FaissIndex (H := sample_libs true false) second_batch))
  ∧ marker "vs" (snd run2) = Some "faiss"
  ∧ files (fs (snd run2)) !! "vs/docs.json" = Some sample_json
  ∧ json_load (VectorLibs := sample_libs true false) sample_json
    = Ok (raw_of_documents first_batch).
Proof. intros w1 run2. repeat split; eval_eq. Qed.

End RagChainProofs.

(* ===================================================================== *)
(** * The chat handler *)
(* ===================================================================== *)

Module ChatProofs.
Import RagChain App RagChainProofs.

Section Chat.
Context `{ChatLibs}.
Variable cfg : Config.

Lemma get_session_id_run R st :
  @call AppState R string get_session_id st
  = (Next (Some (session_id st)),
     {| session := {| sid := Some (session_id st);
                      history := history (session st);
                      ready := ready (session st) |};
        world := world st |})
  ∧ (∀ s, sid (session st) = Some s → s ≠ "" →
       @call AppState R string get_session_id st = (Next (Some s), st)).
Proof.
  unfold get_session_id, session_id, call, run_function.
  cbv [mbind stmt_bind bind get_state modify_state return_].
  destruct st as [[[s|] h r] w]; cbn.
  - destruct (decide (s = "")) as [->|Hs]; (split; [done|]).
    + by intros ? [= <-].
    + by intros ? [= <-].
  - by split.
Qed.

(** [get_session_store_path] is [os.makedirs] on the store directory of
    the session: it returns that directory when [os.makedirs] returns,
    and raises what it raises.  The session keeps its history and its
    ready flag, no file is touched and no library called. *)
Lemma get_session_store_path_run R st :
  ∃ o w1,
    @makedirs _ string (session_store_path cfg st) (world st) = (o, w1)
    ∧ made_dirs (world st) w1
    ∧ (∀ d, d ∈ dirs (fs w1) →
            d ∈ dirs (fs (world st))
            ∨ d ∈ session_store_path cfg st :: ancestors (session_store_path cfg st))
    ∧ @call AppState R string (get_session_store_path cfg) st
      = (match o with
         | Next _ => Next (Some (session_store_path cfg st))
         | Return _ => Next None
         | Raise e => Raise e
         end,
         {| session := {| sid := Some (session_id st);
                          history := history (session st);
                          ready := ready (session st) |};
            world := w1 |})
    ∧ match o with
      | Next _ => session_store_path cfg st ∈ dirs (fs w1)
      | Return _ => False
      | Raise _ => True
      end.
Proof.
  unfold get_session_store_path, session_store_path.
  unfold call at 1. unfold run_function.
  cbv [mbind stmt_bind bind]. destruct (get_session_id_run string st) as [-> _].
  cbv [default from_option id]. unfold in_world. cbn [world session].
  destruct (makedirs_run string
              (path_join (VECTOR_BASE cfg) ("session_" +:+ session_id st)) (world st))
    as (o & w1 & -> & Hm & Hd & Ho).
  exists o, w1. split; [done|]. split; [done|]. split; [done|].
  split; [by destruct o as [[]|?|?]|done].
Qed.

(** The first two checks of [chat]. *)
Lemma chat_malformed data e st :
  request_question data = Err e →
  run_function (chat cfg data) st = (Err e, st).
Proof. intros Hq. unfold chat, run_function. cbv [mbind stmt_bind bind]. by rewrite Hq. Qed.

Lemma chat_blank data st :
  request_question data = Ok "" →
  run_function (chat cfg data) st
  = (Ok (Some (ErrorBody "Question is required." None, 400)), st).
Proof. intros Hq. unfold chat, run_function. cbv [mbind stmt_bind bind]. by rewrite Hq. Qed.

Lemma chat_not_ready data question st :
  request_question data = Ok question →
  question ≠ "" →
  ready (session st) ≠ Some true →
  run_function (chat cfg data) st
  = (Ok (Some (ErrorBody "Documents are not processed yet." None, 409)), st).
Proof.
  intros Hq Hne Hready. unfold chat, run_function. cbv [mbind stmt_bind bind].
  rewrite Hq. cbn [of_res ret]. destruct (decide _); [done|].
  cbv [get_state]. by destruct (ready (session st)) as [[]|].
Qed.

(** A request that passes the two checks, step by step. *)
Lemma chat_ready_run data question st o st1 :
  request_question data = Ok question →
  question ≠ "" →
  ready (session st) = Some true →
  @call AppState Response string (get_session_store_path cfg) st = (o, st1) →
  run_function (chat cfg data) st
  = match o with
    | Raise e => (Err e, st1)
    | Return r => (Ok (Some r), st1)
    | Next store_path =>
        match get_embeddings (EMBEDDING_MODEL cfg) with
        | Err e => (Err e, st1)
        | Ok embeddings =>
            let loaded := run_function (load_store (default "" store_path) embeddings)
                            (world st1) in
            let st2 := {| session := session st1; world := snd loaded |} in
            match fst loaded with
            | Err e =>
                (Ok (Some (ErrorBody "Failed to load vector store" (Some e), 500)), st2)
            | Ok None => (Err AttributeError, st2)
            | Ok (Some store) =>
                match get_retriever store (TOP_K_RESULTS cfg) with
                | Err e => (Err e, st2)
                | Ok retriever =>
                    match get_llm (environ cfg) (LLM_MODEL cfg) with
                    | Err e =>
                        (Ok (Some (ErrorBody "LLM not configured" (Some e), 500)), st2)
                    | Ok llm =>
                        match build_conv_chain llm retriever with
                        | Err e => (Err e, st2)
                        | Ok conv =>
                            match conv_invoke conv question
                                    (reconstruct (default [] (history (session st1)))) with
                            | Err e =>
                                (Ok (Some (ErrorBody "LLM processing error" (Some e), 500)),
                                 st2)
                            | Ok result =>
                                let answer := answer_of result in
                                let cits := citations_of
                                              (default [] (res_source_documents result)) in
                                (Ok (Some (ChatBody answer cits, 200)),
                                 {| session :=
                                      {| sid := sid (session st1);
                                         history :=
                                           Some (default [] (history (session st1))
                                                 ++ [ mkEntry "user" question None;
                                                      mkEntry "assistant" answer
                                                        (Some cits) ]);
                                         ready := ready (session st1) |};
                                    world := snd loaded |})
                            end
                        end
                    end
                end
            end
        end
    end.
Proof.
  intros Hq Hne Hready Hpath. unfold chat, run_function.
  cbv [mbind stmt_bind bind]. rewrite Hq. cbn [of_res ret].
  destruct (decide _); [done|]. cbv [get_state]. rewrite Hready.
  change (negb (default false (Some true))) with false. cbv beta iota.
  unfold Response in *. rewrite Hpath. destruct o as [store_path|?|e1]; [|done|done].
  unfold of_res at 1.
  destruct (get_embeddings (EMBEDDING_MODEL cfg)) as [embeddings|e2]; [|done].
  cbv [ret try_except in_world call run_function return_ fst snd].
  destruct (load_store (default "" store_path) embeddings (world st1))
    as [[[]|store|e3] w2]; [done | | done].
  cbv [mret stmt_ret ret]. unfold of_res at 1.
  destruct (get_retriever store (TOP_K_RESULTS cfg)) as [retriever|e4]; [|done].
  cbv [ret]. unfold of_res at 1.
  destruct (get_llm (environ cfg) (LLM_MODEL cfg)) as [llm|e5]; [|done].
  cbv [ret]. unfold of_res at 1.
  destruct (build_conv_chain llm retriever) as [conv|e6]; [|done].
  cbv [ret]. cbn [session history].
  destruct (conv_invoke conv question _) as [result|e7]; cbn [of_res]; cbv [ret raise];
    done.
Qed.

(** The state [get_session_store_path] leaves has the history of the
    state it started on. *)
Lemma get_session_store_path_history R st o st1 :
  @call AppState R string (get_session_store_path cfg) st = (o, st1) →
  history (session st1) = history (session st)
  ∧ ready (session st1) = ready (session st)
  ∧ sid (session st1) = Some (session_id st)
  ∧ made_dirs (world st) (world st1)
  ∧ match o with
    | Next p => p = Some (session_store_path cfg st)
    | Return _ => False
    | Raise _ => True
    end.
Proof.
  destruct (get_session_store_path_run R st) as (o' & w1 & _ & Hm & _ & -> & Ho).
  intros [= <- <-]. cbn. by destruct o'.
Qed.

(** C7.  A chat request appends to the session history only when it
    answers with status 200, and then exactly the user turn followed by
    the assistant turn with its citations; that answer comes only after
    [load_store] returned a store from the store directory of the
    session, [get_llm] a model and the chain an answer to the question.
    In every other case (a 400, 409 or 500 response, or an exception
    leaving the handler) the history is as it was.  Conversely, on a
    request that reaches the store: when [load_store] raises, when
    [get_llm] raises and when the chain raises, the response is the 500
    error that names the cause and the history is as it was; and when the
    chain returns an answer, the response is that answer with status 200
    and the two turns are appended. *)
Theorem chat_appends_only_after_answer (data : option (gmap string PyVal))
    (st : AppState) :
  ∃ r st',
    run_function (chat cfg data) st = (r, st')
    ∧ match r with
      | Ok (Some (ChatBody answer cits, status)) =>
          status = 200
          ∧ ∃ question st1 embeddings store retriever llm conv result,
              request_question data = Ok question
              ∧ question ≠ ""
              ∧ ready (session st) = Some true
              ∧ @call AppState Response string (get_session_store_path cfg) st
                = (Next (Some (session_store_path cfg st)), st1)
              ∧ get_embeddings (EMBEDDING_MODEL cfg) = Ok embeddings
              ∧ run_function (load_store (session_store_path cfg st) embeddings) (world st1)
                = (Ok (Some store), world st')
              ∧ get_retriever store (TOP_K_RESULTS cfg) = Ok retriever
              ∧ get_llm (environ cfg) (LLM_MODEL cfg) = Ok llm
              ∧ build_conv_chain llm retriever = Ok conv
              ∧ conv_invoke conv question (reconstruct (default [] (history (session st))))
                = Ok result
              ∧ answer = answer_of result
              ∧ cits = citations_of (default [] (res_source_documents result))
              ∧ history (session st')
                = Some (default [] (history (session st))
                        ++ [ mkEntry "user" question None;
                             mkEntry "assistant" answer (Some cits) ])
      | _ => history (session st') = history (session st)
      end
    ∧ ∀ question st1 embeddings,
        request_question data = Ok question →
        question ≠ "" →
        ready (session st) = Some true →
        @call AppState Response string (get_session_store_path cfg) st
        = (Next (Some (session_store_path cfg st)), st1) →
        get_embeddings (EMBEDDING_MODEL cfg) = Ok embeddings →
        (∀ e w2,
           run_function (load_store (session_store_path cfg st) embeddings) (world st1)
           = (Err e, w2) →
           r = Ok (Some (ErrorBody "Failed to load vector store" (Some e), 500))
           ∧ history (session st') = history (session st))
        ∧ ∀ store w2 retriever,
            run_function (load_store (session_store_path cfg st) embeddings) (world st1)
            = (Ok (Some store), w2) →
            get_retriever store (TOP_K_RESULTS cfg) = Ok retriever →
            (∀ e,
               get_llm (environ cfg) (LLM_MODEL cfg) = Err e →
               r = Ok (Some (ErrorBody "LLM not configured" (Some e), 500))
               ∧ history (session st') = history (session st))
            ∧ ∀ llm conv,
                get_llm (environ cfg) (LLM_MODEL cfg) = Ok llm →
                build_conv_chain llm retriever = Ok conv →
                (∀ e,
                   conv_invoke conv question
                     (reconstruct (default [] (history (session st)))) = Err e →
                   r = Ok (Some (ErrorBody "LLM processing error" (Some e), 500))
                   ∧ history (session st') = history (session st))
                ∧ ∀ result,
                    conv_invoke conv question
                      (reconstruct (default [] (history (session st)))) = Ok result →
                    r = Ok (Some (ChatBody (answer_of result)
                                    (citations_of
                                       (default [] (res_source_documents result))),
                                  200))
                    ∧ world st' = w2
                    ∧ history (session st')
                      = Some (default [] (history (session st))
                              ++ [ mkEntry "user" question None;
                                   mkEntry "assistant" (answer_of result)
                                     (Some (citations_of
                                              (default []
                                                 (res_source_documents result)))) ]).
Proof.
  destruct (run_function (chat cfg data) st) as [r st'] eqn:Hrun.
  exists r, st'. split; [done|]. split.
  - destruct (request_question data) as [question|e] eqn:Hq.
    2:{ rewrite (chat_malformed _ _ _ Hq) in Hrun. by injection Hrun as <- <-. }
    destruct (decide (question = "")) as [->|Hne].
    { rewrite (chat_blank _ _ Hq) in Hrun. by injection Hrun as <- <-. }
    destruct (decide (ready (session st) = Some true)) as [Hready|Hready].
    2:{ rewrite (chat_not_ready _ _ _ Hq Hne Hready) in Hrun. by injection Hrun as <- <-. }
    destruct (@call AppState Response string (get_session_store_path cfg) st)
      as [o st1] eqn:Hpath.
    destruct (get_session_store_path_history _ _ _ _ Hpath) as (Hh & _ & _ & _ & Ho).
    rewrite (chat_ready_run _ _ _ _ _ Hq Hne Hready Hpath) in Hrun.
    destruct o as [store_path|?|e1]; [|done|by injection Hrun as <- <-].
    subst store_path. cbn [default from_option id] in Hrun.
    destruct (get_embeddings (EMBEDDING_MODEL cfg)) as [embeddings|e2] eqn:Hemb;
      [|by injection Hrun as <- <-].
    destruct (run_function (load_store (session_store_path cfg st) embeddings) (world st1))
      as [lr w2] eqn:Hload.
    cbn [fst snd] in Hrun.
    destruct lr as [[store|]|e3]; [|by injection Hrun as <- <-..].
    destruct (get_retriever store (TOP_K_RESULTS cfg)) as [retriever|e4] eqn:Hretr;
      [|by injection Hrun as <- <-].
    destruct (get_llm (environ cfg) (LLM_MODEL cfg)) as [llm|e5] eqn:Hllm;
      [|by injection Hrun as <- <-].
    destruct (build_conv_chain llm retriever) as [conv|e6] eqn:Hconv;
      [|by injection Hrun as <- <-].
    rewrite Hh in Hrun.
    destruct (conv_invoke conv question _) as [result|e7] eqn:Hinvoke;
      [|by injection Hrun as <- <-].
    injection Hrun as <- <-. split; [done|].
    exists question, st1, embeddings, store, retriever, llm, conv, result.
    by repeat (split; [done|]).
  - intros question st1 embeddings Hq Hne Hready Hpath Hemb.
    destruct (get_session_store_path_history _ _ _ _ Hpath) as (Hh & _).
    rewrite (chat_ready_run _ _ _ _ _ Hq Hne Hready Hpath) in Hrun.
    cbn [default from_option id] in Hrun. rewrite Hemb in Hrun. split.
    { intros e w2 Hload. rewrite Hload in Hrun. by injection Hrun as <- <-. }
    intros store w2 retriever Hload Hretr. rewrite Hload in Hrun.
    cbn [fst snd] in Hrun. rewrite Hretr in Hrun. split.
    { intros e Hllm. rewrite Hllm in Hrun. by injection Hrun as <- <-. }
    intros llm conv Hllm Hconv. rewrite Hllm, Hconv, Hh in Hrun. split.
    { intros e Hinvoke. rewrite Hinvoke in Hrun. by injection Hrun as <- <-. }
    intros result Hinvoke. rewrite Hinvoke in Hrun. by injection Hrun as <- <-.
Qed.

End Chat.
End ChatProofs.


(* ===================================================================== *)
(** * Chunking: lengths, counts and concatenation *)
(* ===================================================================== *)

Module ChunkingMore.
Import Chunking StringFacts ChunkingProofs.

(** The chunks of a text that fits in one chunk. *)
Lemma chunk_text_short text size overlap :
  text ≠ "" → len text ≤ size → _chunk_text text size overlap = Some [text].
Proof.
  intros Htext Hfit. unfold _chunk_text. destruct (decide (text = "")); [done|].
  pose proof (len_pos_of_nonempty text Htext) as Hn.
  destruct (String.length text) as [|fuel] eqn:Hlen; [unfold len in Hn; lia|].
  cbn [chunk_loop]. destruct (Z.ltb_spec 0 (len text)); [|lia].
  rewrite Z.add_0_l, Z.min_l by lia.
  destruct (Z.geb_spec (len text) (len text)); [|lia].
  simpl. by rewrite slice_all.
Qed.

(** The lengths of the chunks under valid parameters. *)
Lemma chunk_text_lengths text size overlap :
  0 < size → 0 ≤ overlap < size →
  ∃ chunks : list string,
    _chunk_text text size overlap = Some chunks
    ∧ (∀ (i : nat) c, chunks !! i = Some c → 1 ≤ len c ≤ size)
    ∧ (∀ (i : nat) c, chunks !! i = Some c → (S i < length chunks)%nat →
         len c = size).
Proof.
  intros Hsize Hov. destruct (decide (text = "")) as [->|Htext].
  { exists []. by split. }
  destruct (chunk_text_spec text size overlap Hsize Hov Htext)
    as (k & Hrun & Hbefore & Hlast).
  pose proof (len_pos_of_nonempty text Htext) as Hn.
  eexists. split; [exact Hrun|].
  assert (∀ (j : nat), (j ≤ k)%nat →
            len (chunk_at text size (size - overlap) 0 j)
            = Z.min (len text) (Z.of_nat j * (size - overlap) + size)
              - Z.of_nat j * (size - overlap)
            ∧ Z.of_nat j * (size - overlap) < len text) as Hlen.
  { intros j Hj. unfold chunk_at. rewrite Z.add_0_l.
    assert (0 ≤ Z.of_nat j * (size - overlap)) by nia.
    assert (Z.of_nat j * (size - overlap) < len text) as Hstart.
    { destruct j as [|j]; [lia|].
      specialize (Hbefore j ltac:(lia)). nia. }
    split; [|done]. apply len_slice; lia. }
  split.
  - intros i c Hi. apply list_lookup_fmap_Some in Hi as (j & -> & Hj).
    apply lookup_seq in Hj as [-> Hj]. simpl in Hj.
    destruct (Hlen i ltac:(lia)) as [Hl Hstart]. simpl. rewrite Hl. lia.
  - intros i c Hi Hnotlast. rewrite length_fmap, length_seq in Hnotlast.
    apply list_lookup_fmap_Some in Hi as (j & -> & Hj).
    apply lookup_seq in Hj as [-> Hj]. simpl in Hj.
    destruct (Hlen i ltac:(lia)) as [Hl Hstart]. simpl. rewrite Hl.
    specialize (Hbefore i ltac:(lia)). lia.
Qed.

(** X1.  For [size > 0] and [0 <= overlap < size] every chunk has between
    1 and [size] characters, and every chunk but the last has exactly
    [size]. *)
Theorem chunk_lengths (text : string) (size overlap : Z) :
  0 < size → 0 ≤ overlap < size →
  ∃ chunks : list string,
    _chunk_text text size overlap = Some chunks
    ∧ (∀ (i : nat) c, chunks !! i = Some c → 1 ≤ len c ≤ size)
    ∧ (∀ (i : nat) c, chunks !! i = Some c → (S i < length chunks)%nat →
         len c = size).
Proof. apply chunk_text_lengths. Qed.

Lemma chunk_lengths_witness :
  ∃ chunks : list string,
    _chunk_text "abcdefghij" 4 1 = Some chunks
    ∧ (∀ (i : nat) c, chunks !! i = Some c → 1 ≤ len c ≤ 4)
    ∧ (∀ (i : nat) c, chunks !! i = Some c → (S i < length chunks)%nat →
         len c = 4).
Proof. apply (chunk_lengths "abcdefghij" 4 1); lia. Defined.

(** X2.  Under valid parameters a non-empty text of at most [size]
    characters is returned as one chunk, and a longer text gives
    [1 + ceil((len(text) - size) / step)] chunks, [step = size - overlap]. *)
Theorem chunk_count (text : string) (size overlap : Z) :
  0 < size → 0 ≤ overlap < size → text ≠ "" →
  ∃ chunks : list string,
    _chunk_text text size overlap = Some chunks
    ∧ (len text ≤ size → chunks = [text])
    ∧ (size < len text →
       Z.of_nat (length chunks)
       = 1 + (len text - size + (size - overlap) - 1) / (size - overlap)).
Proof.
  intros Hsize Hov Htext.
  destruct (chunk_text_spec text size overlap Hsize Hov Htext)
    as (k & Hrun & Hbefore & Hlast).
  eexists. split; [exact Hrun|]. split.
  - intros Hfit. rewrite chunk_text_short in Hrun by done. congruence.
  - intros Hlong. rewrite length_fmap, length_seq.
    assert (Z.of_nat k = (len text - size + (size - overlap) - 1) / (size - overlap))
      as <-; [|lia].
    destruct k as [|k]; [lia|].
    specialize (Hbefore k ltac:(lia)).
    apply Z.div_unique with
      (r := len text - size + (size - overlap) - 1 - (size - overlap) * Z.of_nat (S k));
      lia.
Qed.

Lemma chunk_count_witness :
  ∃ chunks : list string,
    _chunk_text "abcdefghij" 4 1 = Some chunks
    ∧ (len "abcdefghij" ≤ 4 → chunks = ["abcdefghij"])
    ∧ (4 < len "abcdefghij" →
       Z.of_nat (length chunks)
       = 1 + (len "abcdefghij" - 4 + (4 - 1) - 1) / (4 - 1)).
Proof. apply (chunk_count "abcdefghij" 4 1); [lia | lia | done]. Defined.

Lemma chunks_of_pages_unique pages size overlap css css' :
  Forall2 (λ p cs, _chunk_text (text p) size overlap = Some cs) pages css →
  Forall2 (λ p cs, _chunk_text (text p) size overlap = Some cs) pages css' →
  css = css'.
Proof.
  intros Hall. revert css'. induction Hall as [|p cs pages css Hp Hall IH];
    intros css' Hall'; inversion Hall' as [|? cs' ? css'' Hp' Hall'']; subst; [done|].
  f_equal; [congruence | by apply IH].
Qed.

Lemma elem_of_zip_page_documents pages size overlap css d :
  Forall2 (λ p cs, _chunk_text (text p) size overlap = Some cs) pages css →
  d ∈ concat (zip_with page_documents pages css) →
  ∃ p cs, p ∈ pages ∧ _chunk_text (text p) size overlap = Some cs
          ∧ d ∈ page_documents p cs.
Proof.
  induction 1 as [|p cs pages css Hp Hall IH]; simpl; [by intros ?%elem_of_nil|].
  intros [Hd|Hd]%elem_of_app.
  - exists p, cs. split; [left | done].
  - destruct (IH Hd) as (q & cs' & Hq & Hcs' & Hd'). exists q, cs'. split; [by right | done].
Qed.

(** X3.  Under valid parameters every document [build_documents] emits
    has a content of between 1 and [chunk_size] characters, and carries
    the source and page number of an input page whose text is not empty:
    pages without text give no document. *)
Theorem documents_are_nonempty_chunks (pages : list Page) (size overlap : Z) :
  0 < size → 0 ≤ overlap < size →
  ∃ docs : list Document,
    build_documents pages size overlap = Some docs
    ∧ ∀ d, d ∈ docs →
        1 ≤ len (page_content d) ≤ size
        ∧ ∃ p, p ∈ pages ∧ text p ≠ ""
               ∧ metadata d !! "source" = Some (VStr (source p))
               ∧ metadata d !! "page" = Some (VInt (page p)).
Proof.
  intros Hsize Hov.
  destruct (build_documents_spec pages size overlap) as (css & Hall & Hrun).
  eexists. split; [exact Hrun|]. intros d Hd.
  destruct (elem_of_zip_page_documents pages size overlap css d Hall Hd)
    as (p & cs & Hp & Hcs & Hdp).
  apply list_elem_of_lookup in Hdp as [i Hi].
  apply page_documents_lookup in Hi as (c & Hc & ->).
  destruct (chunk_text_lengths (text p) size overlap Hsize Hov) as (cs' & Hcs' & Hlen & _).
  assert (cs' = cs) as -> by congruence.
  split; [by apply (Hlen i)|].
  exists p. split; [done|]. split.
  - intros Hempty. rewrite Hempty in Hcs. by injection Hcs as <-.
  - by destruct (chunk_document_metadata p i c) as (Hs & Hpg & _).
Qed.

Lemma documents_are_nonempty_chunks_witness :
  ∃ docs : list Document,
    build_documents [mkPage 1 "" "a.pdf"; mkPage 2 "abcdef" "a.pdf"] 4 1 = Some docs
    ∧ ∀ d, d ∈ docs →
        1 ≤ len (page_content d) ≤ 4
        ∧ ∃ p, p ∈ [mkPage 1 "" "a.pdf"; mkPage 2 "abcdef" "a.pdf"] ∧ text p ≠ ""
               ∧ metadata d !! "source" = Some (VStr (source p))
               ∧ metadata d !! "page" = Some (VInt (page p)).
Proof.
  apply (documents_are_nonempty_chunks
           [mkPage 1 "" "a.pdf"; mkPage 2 "abcdef" "a.pdf"] 4 1); lia.
Defined.

(** X4.  The documents of a concatenation of page lists are the documents
    of the first list followed by those of the second, for every
    [chunk_size] and [overlap]: pages of several files chunked together
    give what chunking each file alone gives. *)
Theorem build_documents_app (pages1 pages2 : list Page) (size overlap : Z) :
  ∃ docs1 docs2 : list Document,
    build_documents pages1 size overlap = Some docs1
    ∧ build_documents pages2 size overlap = Some docs2
    ∧ build_documents (pages1 ++ pages2) size overlap = Some (docs1 ++ docs2).
Proof.
  destruct (build_documents_spec pages1 size overlap) as (css1 & Hall1 & Hrun1).
  destruct (build_documents_spec pages2 size overlap) as (css2 & Hall2 & Hrun2).
  destruct (build_documents_spec (pages1 ++ pages2) size overlap) as (css & Hall & Hrun).
  eexists _, _. split; [exact Hrun1|]. split; [exact Hrun2|].
  rewrite Hrun. f_equal.
  assert (css = css1 ++ css2) as ->.
  { eapply chunks_of_pages_unique; [exact Hall|]. by apply Forall2_app. }
  rewrite zip_with_app by (by eapply Forall2_length).
  by rewrite concat_app.
Qed.

End ChunkingMore.

(* ===================================================================== *)
(** * _clean_text: the normal form *)
(* ===================================================================== *)

Module PdfProcessorMore.
Import PdfProcessor StringFacts PdfProcessorProofs.

Lemma collapse_spaces_single_spaced b l : single_spaced b (collapse_spaces b l).
Proof.
  revert b. induction l as [|c l IH]; intros b; [done|].
  cbn [collapse_spaces]. destruct (is_space c) eqn:Hc.
  - destruct b; [apply IH|]. cbn. split; [done|]. split; [done|]. apply IH.
  - cbn. rewrite Hc. apply IH.
Qed.

Lemma collapse_spaces_fixed b l : single_spaced b l → collapse_spaces b l = l.
Proof.
  revert b. induction l as [|c l IH]; intros b; [done|].
  cbn. destruct (is_space c) eqn:Hc.
  - intros (-> & -> & Hl). by rewrite IH.
  - intros Hl. by rewrite IH.
Qed.

Lemma single_spaced_weaken b l : single_spaced b l → single_spaced false l.
Proof.
  destruct l as [|c l]; [done|]. cbn. destruct (is_space c); [|done].
  by intros (-> & _ & Hl).
Qed.

Lemma single_spaced_app_l b l1 l2 : single_spaced b (l1 ++ l2) → single_spaced b l1.
Proof.
  revert b. induction l1 as [|c l1 IH]; intros b; [done|].
  cbn. destruct (is_space c).
  - intros (-> & -> & Hl). eauto.
  - apply IH.
Qed.

Lemma single_spaced_app_r b l1 l2 : single_spaced b (l1 ++ l2) → single_spaced false l2.
Proof.
  revert b. induction l1 as [|c l1 IH]; intros b; [apply single_spaced_weaken|].
  cbn. destruct (is_space c).
  - intros (_ & _ & Hl). by apply IH in Hl.
  - apply IH.
Qed.

Lemma single_spaced_elem b l c :
  single_spaced b l → c ∈ l → is_space c = true → c = " "%char.
Proof.
  revert b. induction l as [|c' l IH]; intros b Hl Hc Hsp; [by apply elem_of_nil in Hc|].
  cbn in Hl. apply elem_of_cons in Hc as [->|Hc].
  - rewrite Hsp in Hl. by destruct Hl.
  - destruct (is_space c'); [destruct Hl as (_ & _ & Hl)|]; eauto.
Qed.

Lemma single_spaced_adjacent b l (i : nat) :
  single_spaced b l → l !! i = Some " "%char → l !! S i ≠ Some " "%char.
Proof.
  revert b i. induction l as [|c l IH]; intros b i Hl Hi; [done|].
  cbn in Hl. destruct i as [|i].
  - injection Hi as ->. cbn in Hl. destruct Hl as (_ & _ & Hl).
    destruct l as [|c' l]; [done|]. cbn. intros [= ->]. cbn in Hl. by destruct Hl as (_ & ? & _).
  - cbn in Hi. change ((c :: l) !! S (S i)) with (l !! S i).
    destruct (is_space c); [destruct Hl as (_ & _ & Hl)|]; eauto.
Qed.

(** The characters of [_clean_text(text)]. *)
Lemma clean_text_chars text :
  list_ascii_of_string (_clean_text text)
  = strip_chars (collapse_spaces false (list_ascii_of_string text)).
Proof.
  unfold _clean_text. destruct (decide (text = "")) as [->|_]; [done|].
  unfold strip, strip_chars. by rewrite !list_ascii_of_string_of_list_ascii.
Qed.

Lemma clean_text_clean text : clean (list_ascii_of_string (_clean_text text)).
Proof.
  rewrite clean_text_chars.
  destruct (strip_chars_spec (collapse_spaces false (list_ascii_of_string text)))
    as (before & after & Hl & _ & _ & Hhd & Hlast).
  split; [|done].
  pose proof (collapse_spaces_single_spaced false (list_ascii_of_string text)) as Hss.
  rewrite Hl in Hss. apply single_spaced_app_r in Hss.
  by apply single_spaced_app_l in Hss.
Qed.

Lemma clean_text_of_clean text :
  clean (list_ascii_of_string text) → _clean_text text = text.
Proof.
  intros (Hss & Hhd & Hlast).
  rewrite <- (string_of_list_ascii_of_string (_clean_text text)), clean_text_chars.
  rewrite collapse_spaces_fixed, strip_chars_fixed by done.
  apply string_of_list_ascii_of_string.
Qed.

(** X5.  The text [_clean_text] returns has no white space at either end,
    and its only white-space characters are single spaces, no two of them
    adjacent. *)
Theorem clean_text_is_normalised (text : string) :
  let out := list_ascii_of_string (_clean_text text) in
  (∀ c, head out = Some c → is_space c = false)
  ∧ (∀ c, last out = Some c → is_space c = false)
  ∧ (∀ c, c ∈ out → is_space c = true → c = " "%char)
  ∧ (∀ i : nat, out !! i = Some " "%char → out !! S i ≠ Some " "%char).
Proof.
  intros out. destruct (clean_text_clean text) as (Hss & Hhd & Hlast).
  split; [done|]. split; [done|]. split.
  - intros c. by apply (single_spaced_elem false).
  - intros i. by apply (single_spaced_adjacent false).
Qed.

(** X6.  [_clean_text] is idempotent, and it returns unchanged every text
    that holds no white space. *)
Theorem clean_text_idempotent (text : string) :
  _clean_text (_clean_text text) = _clean_text text
  ∧ (Forall (λ c, is_space c = false) (list_ascii_of_string text) →
     _clean_text text = text).
Proof.
  split; [apply clean_text_of_clean, clean_text_clean|].
  intros Hns. apply clean_text_of_clean. split; [|split].
  - assert (∀ b, single_spaced b (list_ascii_of_string text)) as Hss; [|apply Hss].
    induction Hns as [|c l Hc Hns IH]; intros b; [done|]. cbn. rewrite Hc. apply IH.
  - intros c Hc. destruct Hns as [|c' l Hc' _]; [done|]. by injection Hc as <-.
  - intros c Hc. apply last_Some in Hc as [l' Hl']. rewrite Hl' in Hns.
    apply Forall_app in Hns as [_ Hns]. by inversion Hns.
Qed.

End PdfProcessorMore.

(* ===================================================================== *)
(** * extract_text_by_page: the two libraries *)
(* ===================================================================== *)

Module ExtractMore.
Import PdfProcessor StringFacts PdfProcessorProofs.

Lemma last_segment_spec cur l :
  "/"%char ∉ cur →
  ∃ dir, cur ++ l = dir ++ last_segment cur l
         ∧ ("/"%char ∉ last_segment cur l)
         ∧ (dir = [] ∨ last dir = Some "/"%char)
         ∧ ("/"%char ∉ l → dir = []).
Proof.
  revert cur. induction l as [|c l IH]; intros cur Hcur.
  - exists []. simpl. rewrite app_nil_r. repeat split; auto.
  - cbn [last_segment]. destruct (decide (c = "/"%char)) as [->|Hc].
    + destruct (IH []) as (dir & Hl & Hno & Hdir & _); [by apply not_elem_of_nil|].
      exists (cur ++ "/"%char :: dir). simpl in Hl.
      split; [by rewrite <- (assoc_L (++)); simpl; rewrite <- Hl|]. split; [done|]. split.
      * right. rewrite last_app. destruct Hdir as [->|Hdir]; [done|].
        change ("/"%char :: dir) with (["/"%char] ++ dir). rewrite last_app. by rewrite Hdir.
      * intros Hnot. exfalso. apply Hnot. left.
    + destruct (IH (cur ++ [c])) as (dir & Hl & Hno & Hdir & Hsame).
      { rewrite elem_of_app, list_elem_of_singleton. intros [?|?]; done. }
      exists dir. rewrite <- (assoc_L (++)) in Hl.
      split; [done|]. split; [done|]. split; [done|].
      intros Hnot. apply Hsame. intros Hin. apply Hnot. by right.
Qed.

(** X7.  The source name [file_path.split("/")[-1]] holds no ["/"]; the
    path is a directory part, empty or ending in ["/"], followed by it;
    and a path without ["/"] is its own source name. *)
Theorem source_name_is_last_component (file_path : string) :
  (∃ dir, file_path = dir +:+ split_last file_path
          ∧ (dir = "" ∨ last (list_ascii_of_string dir) = Some "/"%char))
  ∧ ("/"%char ∉ list_ascii_of_string (split_last file_path))
  ∧ ("/"%char ∉ list_ascii_of_string file_path → split_last file_path = file_path).
Proof.
  unfold split_last.
  destruct (last_segment_spec [] (list_ascii_of_string file_path))
    as (dir & Hl & Hno & Hdir & Hsame); [apply not_elem_of_nil|].
  simpl in Hl. rewrite list_ascii_of_string_of_list_ascii.
  split; [|split; [done|]].
  - exists (string_of_list_ascii dir). split.
    + rewrite <- string_of_list_ascii_app, <- Hl.
      by rewrite string_of_list_ascii_of_string.
    + rewrite list_ascii_of_string_of_list_ascii.
      destruct Hdir as [->|Hdir]; [by left | by right].
  - intros Hnot. rewrite (Hsame Hnot) in Hl. simpl in Hl.
    by rewrite <- Hl, string_of_list_ascii_of_string.
Qed.

Lemma contribution_lookup file_path run (i : nat) p :
  contribution file_path run !! i = Some p →
  ∃ t, extracted run !! i = Some t
       ∧ p = {| page := Z.of_nat i + 1; text := _clean_text (default "" t);
                source := split_last file_path |}.
Proof.
  unfold contribution. rewrite list_lookup_imap_Some. intros (t & Ht & ->). eauto.
Qed.

(** X8.  When pdfplumber gets through the file, the result is one page
    per page it read, numbered from 1 in order, with the cleaned text and
    the source name; PyPDF2 has no part in it. *)
Theorem extract_uses_pdfplumber_alone (L : PdfLibs) (file_path : string) :
  failure (pdfplumber_run file_path) = None →
  ∃ pages : list Page,
    extract_text_by_page file_path = Ok (Some pages)
    ∧ length pages = length (extracted (pdfplumber_run file_path))
    ∧ ∀ (i : nat) p, pages !! i = Some p →
        page p = Z.of_nat i + 1
        ∧ source p = split_last file_path
        ∧ ∃ t, extracted (pdfplumber_run file_path) !! i = Some t
               ∧ text p = _clean_text (default "" t).
Proof.
  intros Hok. rewrite extract_text_by_page_eq. unfold fallback_contribution.
  rewrite Hok, app_nil_r. eexists. split; [done|].
  split; [unfold contribution; apply length_imap|].
  intros i p Hp. apply contribution_lookup in Hp as (t & Ht & ->). eauto.
Qed.

Lemma extract_uses_pdfplumber_alone_witness :
  ∃ pages : list Page,
    extract_text_by_page (H := plumber_ok_libs) "uploads/a.pdf" = Ok (Some pages)
    ∧ length pages = 2%nat
    ∧ ∀ (i : nat) p, pages !! i = Some p →
        page p = Z.of_nat i + 1
        ∧ source p = split_last "uploads/a.pdf"
        ∧ ∃ t, [Some "one"; None] !! i = Some t
               ∧ text p = _clean_text (default "" t).
Proof. apply (extract_uses_pdfplumber_alone plumber_ok_libs "uploads/a.pdf"). done. Defined.

(** X9.  When pdfplumber raises before its first page, the result is what
    PyPDF2 read, numbered from 1: all its pages when it gets through the
    file, the pages before the failure when it raises too, and nothing
    when PyPDF2 was not imported.  No exception is reported. *)
Theorem extract_falls_back_to_pypdf2 (L : PdfLibs) (file_path : string) (e : exn) :
  pdfplumber_run file_path = mkRun [] (Some e) →
  extract_text_by_page file_path
  = Ok (Some (match PdfReader with
              | Some reader => contribution file_path (reader file_path)
              | None => []
              end)).
Proof.
  intros Hrun. rewrite extract_text_by_page_eq. unfold fallback_contribution.
  rewrite Hrun. simpl. by destruct PdfReader.
Qed.

Lemma extract_falls_back_to_pypdf2_witness :
  extract_text_by_page (H := plumber_broken_libs) "uploads/a.pdf"
  = Ok (Some [mkPage 1 "one" "a.pdf"]).
Proof.
  apply (extract_falls_back_to_pypdf2 plumber_broken_libs "uploads/a.pdf"
           (Exn "PDFSyntaxError")).
  done.
Defined.

End ExtractMore.

(* ===================================================================== *)
(** * The source name of a saved file *)
(* ===================================================================== *)

Module SourceNames.
Import PdfProcessor StringFacts PdfProcessorProofs.

Lemma last_segment_app cur l ext :
  ("/"%char ∉ ext) → last_segment cur (l ++ ext) = last_segment cur l ++ ext.
Proof.
  intros Hext. revert cur. induction l as [|c l IH]; intros cur.
  - cbn [app last_segment]. revert cur.
    induction ext as [|c ext IH]; intros cur; [by rewrite app_nil_r|].
    apply not_elem_of_cons in Hext as [Hc Hext]. cbn [last_segment].
    destruct (decide (c = "/"%char)); [done|].
    rewrite IH by done. by rewrite <- (assoc_L (++)).
  - cbn [app last_segment]. by destruct (decide (c = "/"%char)).
Qed.

Lemma last_segment_after_slash cur l :
  last_segment cur (l ++ ["/"%char]) = [].
Proof.
  revert cur. induction l as [|c l IH]; intros cur.
  - cbn. by destruct (decide _).
  - cbn [app last_segment]. by destruct (decide (c = "/"%char)).
Qed.

Lemma ends_with_slash (a : string) :
  slice a (-1) (len a) = "/" →
  ∃ l, list_ascii_of_string a = l ++ ["/"%char].
Proof.
  unfold slice, slice_bound, len. intros Hs.
  apply (f_equal list_ascii_of_string) in Hs.
  rewrite list_ascii_of_string_of_list_ascii in Hs. cbn in Hs.
  rewrite <- length_list_ascii_of_string in Hs.
  set (l := list_ascii_of_string a) in *.
  destruct (Z.ltb_spec (Z.of_nat (length l)) 0) as [|_]; [lia|].
  rewrite Z.min_id in Hs.
  destruct (decide (length l = 0%nat)) as [Hnil|Hpos].
  { apply length_zero_iff_nil in Hnil. rewrite Hnil in Hs. by rewrite drop_nil in Hs. }
  replace (Z.to_nat (Z.max 0 (-1 + Z.of_nat (length l)))) with (length l - 1)%nat in Hs
    by lia.
  replace (Z.to_nat (Z.of_nat (length l) - Z.max 0 (-1 + Z.of_nat (length l))))
    with 1%nat in Hs by lia.
  exists (take (length l - 1) l).
  rewrite <- (take_drop (length l - 1) l) at 1. f_equal.
  rewrite <- Hs. symmetry. apply take_ge. rewrite length_drop. lia.
Qed.

(** The last component of [os.path.join(a, b)] is [b] when [b] holds no
    ["/"]. *)
Lemma split_last_path_join (a b : string) :
  ("/"%char ∉ list_ascii_of_string b) → split_last (path_join a b) = b.
Proof.
  intros Hb.
  assert (split_last b = b) as Hself.
  { unfold split_last.
    pose proof (last_segment_app [] [] (list_ascii_of_string b) Hb) as Hl.
    cbn in Hl. rewrite Hl. apply string_of_list_ascii_of_string. }
  assert (∀ l, string_of_list_ascii
                 (last_segment [] ((l ++ ["/"%char]) ++ list_ascii_of_string b)) = b)
    as Hjoin.
  { intros l. rewrite last_segment_app by done. rewrite last_segment_after_slash.
    apply string_of_list_ascii_of_string. }
  unfold path_join. destruct (String.prefix "/" b); [done|].
  destruct (decide (a = "")); [done|].
  destruct (decide (slice a (-1) (len a) = "/")) as [Hslash|_].
  - apply ends_with_slash in Hslash as [l Hl]. unfold split_last.
    rewrite <- (string_of_list_ascii_of_string a), Hl at 1.
    rewrite <- (string_of_list_ascii_of_string b) at 1.
    rewrite <- string_of_list_ascii_app, list_ascii_of_string_of_list_ascii.
    apply Hjoin.
  - unfold split_last.
    rewrite <- (string_of_list_ascii_of_string a) at 1.
    rewrite <- (string_of_list_ascii_of_string b) at 1.
    change "/" with (string_of_list_ascii ["/"%char]).
    rewrite <- !string_of_list_ascii_app, list_ascii_of_string_of_list_ascii.
    rewrite (assoc_L (++)). apply Hjoin.
Qed.

Lemma extract_sources (L : PdfLibs) (file_path : string) :
  ∃ pages, extract_text_by_page file_path = Ok (Some pages)
           ∧ ∀ p, p ∈ pages → source p = split_last file_path.
Proof.
  rewrite extract_text_by_page_eq. eexists. split; [done|].
  assert (∀ run p, p ∈ contribution file_path run →
                   source p = split_last file_path) as Hc.
  { intros run p [i Hi]%list_elem_of_lookup. unfold contribution in Hi.
    apply list_lookup_imap_Some in Hi as (t & _ & ->). done. }
  intros p [Hp|Hp]%elem_of_app; [by eapply Hc|].
  unfold fallback_contribution in Hp.
  destruct (failure _); [|by apply elem_of_nil in Hp].
  destruct PdfReader; [by eapply Hc | by apply elem_of_nil in Hp].
Qed.

(** X26.  Every page extracted from a file saved as
    [os.path.join(folder, name)], the name holding no ["/"], has the name
    as its source, whatever the folder: two files saved under the same
    name, in the same folder or not, give pages of the same source. *)
Theorem pages_of_saved_file_bear_its_name (L : PdfLibs) (folder name : string) :
  ("/"%char ∉ list_ascii_of_string name) →
  ∃ pages,
    extract_text_by_page (path_join folder name) = Ok (Some pages)
    ∧ ∀ p, p ∈ pages → source p = name.
Proof.
  intros Hname. destruct (extract_sources L (path_join folder name)) as (pages & Hrun & Hsrc).
  exists pages. split; [done|]. intros p Hp.
  rewrite (Hsrc p Hp). by apply split_last_path_join.
Qed.

Lemma pages_of_saved_file_bear_its_name_witness :
  ∃ pages,
    extract_text_by_page (H := plumber_ok_libs) (path_join "uploads" "a.pdf")
    = Ok (Some pages)
    ∧ ∀ p, p ∈ pages → source p = "a.pdf".
Proof.
  apply (pages_of_saved_file_bear_its_name plumber_ok_libs "uploads" "a.pdf").
  eval_ne.
Defined.

End SourceNames.

(* ===================================================================== *)
(** * The vector store: marker, fallback and failure *)
(* ===================================================================== *)

Module RagChainMore.
Import RagChain StringFacts RagChainProofs.

Section Store.
Context `{VectorLibs}.

Lemma strip_backend_tag b : strip (backend_tag b) = backend_tag b.
Proof. by destruct b. Qed.

(** X10.  [_read_store_type] never raises and changes nothing: it returns
    the content of the marker file as a read in text mode gives it, with
    [\r] and [\r\n] turned into [\n], stripped, or [None] when there is
    no such file or it is a directory.  After a [_write_store_type] that
    returned, it reads the tag back in that form: the tag of a backend is
    read back as it is, and the tag [a\rb] as [a\nb]. *)
Theorem marker_round_trip (path : string) :
  (∀ w, run_function (_read_store_type path) w = (Ok (Some (stored_type path w)), w))
  ∧ (∀ w, marker path w = None ∨ path_join path "store_type.txt" ∈ dirs (fs w) →
          run_function (_read_store_type path) w = (Ok (Some None), w))
  ∧ (∀ tag w w',
       run_function (_write_store_type path tag) w = (Ok None, w') →
       run_function (_read_store_type path) w'
       = (Ok (Some (Some (strip (read_text tag)))), w'))
  ∧ (∀ b w w',
       run_function (_write_store_type path (backend_tag b)) w = (Ok None, w') →
       run_function (_read_store_type path) w' = (Ok (Some (Some (backend_tag b))), w'))
  ∧ (∀ w w',
       run_function (_write_store_type path (String "a" (String "013" "b"))) w
       = (Ok None, w') →
       run_function (_read_store_type path) w'
       = (Ok (Some (Some (String "a" (String "010" "b")))), w')).
Proof.
  assert (∀ w, run_function (_read_store_type path) w
               = (Ok (Some (stored_type path w)), w)) as Hread.
  { intros w. pose proof (read_store_type_run unit path w) as Hcall.
    unfold call in Hcall.
    destruct (run_function (_read_store_type path) w) as [[r|e] w1]; [|done].
    by injection Hcall as -> ->. }
  assert (∀ tag w w',
            run_function (_write_store_type path tag) w = (Ok None, w') →
            stored_type path w' = Some (strip (read_text tag))) as Hwrite.
  { intros tag w w' Hrun.
    destruct (write_store_type_run unit path tag w) as (o & w1 & Hcall & _ & _ & Ho).
    unfold call in Hcall. rewrite Hrun in Hcall. injection Hcall as <- <-.
    destruct Ho as (_ & Hf & Hnd). unfold stored_type, marker.
    destruct (decide _); [done|]. by rewrite Hf, lookup_insert_eq. }
  split; [done|]. split.
  { intros w Hnone. rewrite Hread. do 2 f_equal. unfold stored_type.
    destruct (decide _); [done|]. by destruct Hnone as [->|?]. }
  split; [by intros tag w w' Hrun; rewrite Hread, (Hwrite _ _ _ Hrun)|]. split.
  - intros b w w' Hrun. rewrite Hread, (Hwrite _ _ _ Hrun). by destruct b.
  - intros w w' Hrun. by rewrite Hread, (Hwrite _ _ _ Hrun).
Qed.

(** Without a marker that names a backend, [load_store] is its last
    block: FAISS, then Chroma, then [docs.json]. *)
Lemma load_store_unmarked path embeddings w :
  (∀ b, stored_type path w ≠ Some (backend_tag b)) →
  load_store path embeddings w
  = load_faiss path embeddings
      (λ _, try_except
              (store ← lib_call_fs ChromaOpen (Chroma_open path embeddings);
               return_ (ChromaCollection store))
              (λ _, load_docarray path embeddings)) w.
Proof.
  intros Hunknown. unfold load_store.
  cbv [mbind stmt_bind bind]. rewrite read_store_type_run.
  change (mjoin (Some ?x)) with x.
  rewrite !bool_decide_eq_false_2; [done | apply (Hunknown DocArray)
    | apply (Hunknown Chroma) | apply (Hunknown Faiss)].
Qed.

(** X11.  When the marker is missing or names no backend, [load_store]
    tries FAISS first and returns its index if it loads.  If FAISS raised
    [TypeError], the call is repeated without the keyword argument and
    its outcome is final: an exception of this second call is raised with
    Chroma never opened.  If FAISS raised anything else, Chroma is opened,
    and only when that raises too is the index rebuilt from [docs.json],
    whose absence then raises [FileNotFoundError]. *)
Theorem load_without_marker_falls_back (path : string) (embeddings : Embeddings)
    (w : World) :
  (∀ b, stored_type path w ≠ Some (backend_tag b)) →
  ∃ r w' new,
    run_function (load_store path embeddings) w = (r, w')
    ∧ trace w' = trace w ++ new
    ∧ match FAISS_load_local path embeddings true (fs w) with
      | Ok s => r = Ok (Some (FaissIndex s)) ∧ new = [FaissLoadLocal true]
      | Err e =>
          if is_TypeError e then
            new = [FaissLoadLocal true; FaissLoadLocal false]
            ∧ r = match FAISS_load_local path embeddings false (fs w) with
                  | Ok s => Ok (Some (FaissIndex s))
                  | Err e' => Err e'
                  end
          else
            match Chroma_open path embeddings (fs w) with
            | (Ok s, _) =>
                r = Ok (Some (ChromaCollection s))
                ∧ new = [FaissLoadLocal true; ChromaOpen]
            | (Err _, fs1) =>
                (r, w') = run_function (load_docarray path embeddings)
                            {| fs := fs1;
                               trace := trace w ++ [FaissLoadLocal true; ChromaOpen] |}
                ∧ (files fs1 !! path_join path "docs.json" = None →
                   path_join path "docs.json" ∉ dirs fs1 →
                   r = Err FileNotFoundError)
            end
      end.
Proof.
  intros Hunknown. unfold run_function.
  rewrite (load_store_unmarked path embeddings w Hunknown), load_faiss_run.
  destruct (FAISS_load_local path embeddings true (fs w)) as [s|e].
  { by eexists _, _, [_]. }
  destruct (is_TypeError e).
  { destruct (FAISS_load_local path embeddings false (fs w)) as [s|e'];
      eexists _, _, [_; _]; (split; [done|]);
      (split; [by cbn; rewrite <- (assoc_L (++))|]); done. }
  cbv [try_except mbind stmt_bind bind return_]. rewrite lib_call_fs_run. cbn [fs trace].
  destruct (Chroma_open path embeddings (fs w)) as [[s|e'] fs1]; cbn [fst snd].
  { eexists _, _, [_; _]. split; [done|].
    split; [by cbn; rewrite <- (assoc_L (++))|]. done. }
  rewrite <- (assoc_L (++)). cbn [app].
  set (w1 := {| fs := fs1; trace := trace w ++ [FaissLoadLocal true; ChromaOpen] |}).
  destruct (backend_loader_run DocArray path embeddings w1)
    as (o & w' & new & Hrun & Ht & _ & Ho).
  cbn [backend_loader] in Hrun. rewrite Hrun.
  exists (match o with
          | Next _ => Ok None
          | Return s => Ok (Some s)
          | Raise e0 => Err e0
          end), w', ([FaissLoadLocal true; ChromaOpen] ++ new).
  split; [by destruct o|].
  split; [by rewrite Ht; unfold w1; cbn; rewrite <- (assoc_L (++))|].
  split; [by destruct o|].
  intros Hnone Hnd. revert Hrun. unfold load_docarray.
  cbv [mbind stmt_bind bind]. rewrite read_file_run. unfold w1. cbn [fs].
  destruct (decide _); [done|]. rewrite Hnone. by intros [= <- <-].
Qed.

(** X12.  After a successful build at a path, [load_store] on that path
    runs the loader of the backend the build returned, and no other:
    whatever the directory held before the build, the marker the build
    wrote decides. *)
Theorem load_after_build_uses_same_backend (documents : list Document)
    (embeddings embeddings' : Embeddings) (path prefer : string) (w w' : World)
    (store : Store) :
  run_function (build_and_save_store documents embeddings path prefer) w
  = (Ok (Some store), w') →
  stored_type path w' = Some (backend_tag (store_backend store))
  ∧ run_function (load_store path embeddings') w'
    = run_function (backend_loader (store_backend store) path embeddings') w'
  ∧ ∃ r w'' new,
      run_function (load_store path embeddings') w' = (r, w'')
      ∧ trace w'' = trace w' ++ new
      ∧ ∀ b, b ∈ loaders new → b = store_backend store.
Proof.
  intros Hrun.
  destruct (build_run documents embeddings path prefer w store w' Hrun)
    as (_ & _ & _ & _ & _ & _ & _ & _ & _ & Hm & Hnd & _).
  assert (stored_type path w' = Some (backend_tag (store_backend store))) as Hstored.
  { eapply stored_type_of_marker; [exact Hm | exact Hnd | apply strip_backend_tag]. }
  split; [done|].
  assert (load_store path embeddings' w'
          = backend_loader (store_backend store) path embeddings' w') as Heq.
  { by apply load_store_marked. }
  unfold run_function. rewrite Heq. split; [done|].
  destruct (backend_loader_run (store_backend store) path embeddings' w')
    as (o & w'' & new & -> & Ht & Hl & _).
  destruct o; eexists _, _, new; (split; [reflexivity|]); by split.
Qed.

(** X13.  [build_and_save_store] returns a store or raises, and it raises
    only in two ways: [os.makedirs] raised before any backend was tried,
    having touched no file and called no library, whatever directories it
    had made by then; or every backend of the order was tried and the
    DocArray fallback, the last one, raised. *)
Theorem build_raises_only_after_every_backend (documents : list Document)
    (embeddings : Embeddings) (path prefer : string) (w w' : World)
    (r : Res (option Store)) :
  run_function (build_and_save_store documents embeddings path prefer) w = (r, w') →
  match r with
  | Ok None => False
  | Ok (Some _) => True
  | Err e =>
      (makedirs (R := Store) path w = (Raise e, w')
       ∧ files (fs w') = files (fs w)
       ∧ trace w' = trace w)
      ∨ ∃ new, trace w' = trace w ++ new
               ∧ attempts new = fallback_order prefer
               ∧ last new = Some DocArrayFromDocuments
  end.
Proof.
  rewrite build_and_save_store_blocks. unfold run_function, fallback_order.
  cbv [mbind stmt_bind bind].
  destruct (makedirs_run Store path w) as (o0 & w0 & Hmk & (Hf0 & Ht0 & _) & _ & Ho0).
  rewrite Hmk. destruct o0 as [[]|?|e0]; [|done|intros [= <- <-]; by left].
  assert (∃ o1 w1 new1,
            when (bool_decide (lower prefer = "faiss"))
              (faiss_block documents embeddings path) w0 = (o1, w1)
            ∧ trace w1 = trace w ++ new1
            ∧ attempts new1
              = (if bool_decide (lower prefer = "faiss") then [Faiss] else [])
            ∧ match o1 with Raise _ => False | _ => True end)
    as (o1 & w1 & new1 & -> & Ht1 & Ha1 & Ho1).
  { destruct (bool_decide (lower prefer = "faiss")); simpl.
    - destruct (faiss_block_run documents embeddings path w0)
        as (o & w1 & new & Hrun & Ht & Ha & _ & Ho).
      exists o, w1, new. split; [done|]. split; [by rewrite Ht, Ht0|].
      split; [done|]. by destruct o.
    - exists (Next ()), w0, []. by rewrite app_nil_r. }
  destruct o1 as [[]|s1|e1]; [|by intros [= <- <-]|done].
  destruct (chroma_block_run documents embeddings path w1)
    as (o2 & w2 & new2 & -> & Ht2 & Ha2 & _ & Ho2).
  destruct o2 as [[]|s2|e2]; [|by intros [= <- <-]|done].
  destruct (docarray_block_run documents embeddings path w2)
    as (o3 & w3 & -> & Ht3 & _ & Ho3).
  destruct o3 as [[]|s3|e3]; [done|by intros [= <- <-]|].
  intros [= <- <-]. right. exists (new1 ++ new2 ++ [DocArrayFromDocuments]).
  split; [by rewrite Ht3, Ht2, Ht1, <- !(assoc_L (++))|].
  split.
  - unfold attempts in *. rewrite !omap_app, Ha1, Ha2. simpl.
    by destruct (bool_decide _).
  - by rewrite !last_app.
Qed.

End Store.

Lemma load_after_build_uses_same_backend_witness :
  let run := run_function
               (build_and_save_store (H := sample_libs true false)
                  second_batch () "vs" "faiss") marker_without_payload in
  stored_type "vs" (snd run) = Some "faiss".
Proof.
  intros run.
  assert (fst run = Ok (Some (FaissIndex (H := sample_libs true false) second_batch)))
    as Hfst by eval_eq.
  assert (run = (Ok (Some (FaissIndex (H := sample_libs true false) second_batch)),
                 snd run)) as Hrun by (rewrite <- Hfst; apply surjective_pairing).
  destruct (load_after_build_uses_same_backend (H := sample_libs true false)
              second_batch () () "vs" "faiss" marker_without_payload (snd run)
              (FaissIndex (H := sample_libs true false) second_batch) Hrun)
    as (Hm & _).
  exact Hm.
Defined.

Lemma build_raises_only_after_every_backend_witness :
  let w := {| fs := {| dirs := ∅; files := {["vs" := "not a directory"]} |};
              trace := [] |} in
  @makedirs (sample_libs true true) (@Store (sample_libs true true)) "vs" w
  = (Raise FileExistsError, w).
Proof.
  intros w.
  assert (run_function
            (build_and_save_store (H := sample_libs true true) first_batch () "vs" "faiss") w
          = (Err FileExistsError, w)) as Hrun by eval_eq.
  destruct (build_raises_only_after_every_backend (H := sample_libs true true)
              first_batch () "vs" "faiss" w w (Err FileExistsError) Hrun)
    as [[Hmk _]|(new & _ & Ha & _)]; [exact Hmk|].
  eval_eq.
Defined.

Lemma load_without_marker_falls_back_witness :
  ∃ w', run_function (load_store (H := sample_libs false false) "vs" ()) empty_store_dir
        = (Ok (Some (ChromaCollection (H := sample_libs false false) [])), w').
Proof.
  destruct (load_without_marker_falls_back (H := sample_libs false false)
              "vs" () empty_store_dir)
    as (r & w' & new & Hrun & _ & Hcase).
  { intros b. destruct b; eval_ne. }
  exists w'. rewrite Hrun. f_equal.
  change (r = Ok (Some (ChromaCollection (H := sample_libs false false) [])) ∧
          new = [FaissLoadLocal true; ChromaOpen]) in Hcase.
  by destruct Hcase.
Defined.

End RagChainMore.

(* ===================================================================== *)
(** * app.py: upload, chat, clear and the session *)
(* ===================================================================== *)

Module AppMore.
Import RagChain App StringFacts RagChainProofs ChatProofs.

Lemma last_field_spec sep cur l :
  sep ∉ cur →
  ∃ before, cur ++ l = before ++ last_field sep cur l
            ∧ (sep ∉ last_field sep cur l)
            ∧ (before = [] ∨ last before = Some sep)
            ∧ (sep ∈ l → last before = Some sep).
Proof.
  revert cur. induction l as [|c l IH]; intros cur Hcur.
  - exists []. simpl. rewrite app_nil_r. repeat split; auto.
    by intros ?%elem_of_nil.
  - cbn [last_field]. destruct (decide (c = sep)) as [->|Hc].
    + destruct (IH []) as (before & Hl & Hno & Hbefore & _); [by apply not_elem_of_nil|].
      exists (cur ++ sep :: before). simpl in Hl.
      assert (last (cur ++ sep :: before) = Some sep) as Hlast.
      { rewrite last_app. destruct Hbefore as [->|Hbefore]; [done|].
        change (sep :: before) with ([sep] ++ before). rewrite last_app. by rewrite Hbefore. }
      split; [by rewrite <- (assoc_L (++)); simpl; rewrite <- Hl|].
      split; [done|]. split; [by right | done].
    + destruct (IH (cur ++ [c])) as (before & Hl & Hno & Hbefore & Hin).
      { rewrite elem_of_app, list_elem_of_singleton. intros [?|?]; done. }
      exists before. rewrite <- (assoc_L (++)) in Hl.
      split; [done|]. split; [done|]. split; [done|].
      intros [?|?]%elem_of_cons; [done | by apply Hin].
Qed.

Lemma last_field_unique sep cur stem ext :
  sep ∉ ext → last_field sep cur (stem ++ sep :: ext) = ext.
Proof.
  intros Hext. revert cur. induction stem as [|c stem IH]; intros cur.
  - cbn [app last_field]. destruct (decide (sep = sep)); [|done].
    assert (∀ cur', last_field sep cur' ext = cur' ++ ext) as ->; [|done].
    clear -Hext. induction ext as [|c ext IH]; intros cur'; [by rewrite app_nil_r|].
    cbn [last_field]. apply not_elem_of_cons in Hext as [Hc Hext].
    destruct (decide (c = sep)); [done|]. rewrite IH by done. by rewrite <- (assoc_L (++)).
  - cbn [app last_field]. by destruct (decide (c = sep)).
Qed.

(** X14.  [allowed_file] accepts exactly the names that end in a dot
    followed by an extension without a dot that lower-cases to [pdf]; what
    stands before that last dot, nothing included, does not matter. *)
Theorem allowed_file_iff (name : string) :
  allowed_file name = true
  ↔ ∃ stem ext : string,
      name = stem +:+ "." +:+ ext
      ∧ ("."%char ∉ list_ascii_of_string ext)
      ∧ lower ext = "pdf".
Proof.
  unfold allowed_file, rsplit_last, ALLOWED_EXTENSIONS.
  rewrite andb_true_iff, !bool_decide_eq_true, elem_of_singleton. split.
  - intros [Hdot Hext].
    destruct (last_field_spec "."%char [] (list_ascii_of_string name))
      as (before & Hl & Hno & _ & Hlast); [apply not_elem_of_nil|].
    simpl in Hl. apply Hlast in Hdot. apply last_Some in Hdot as [stem ->].
    exists (string_of_list_ascii stem),
           (string_of_list_ascii (last_field "."%char [] (list_ascii_of_string name))).
    split; [|split; [by rewrite list_ascii_of_string_of_list_ascii | done]].
    rewrite <- (string_of_list_ascii_of_string name) at 1. rewrite Hl at 1.
    rewrite <- (assoc_L (++)). by rewrite !string_of_list_ascii_app.
  - intros (stem & ext & -> & Hno & Hext).
    assert (list_ascii_of_string (stem +:+ "." +:+ ext)
            = list_ascii_of_string stem ++ "."%char :: list_ascii_of_string ext) as ->.
    { rewrite <- (list_ascii_of_string_of_list_ascii (_ ++ _ :: _)). f_equal.
      change ("."%char :: ?l) with (["."%char] ++ l).
      by rewrite !string_of_list_ascii_app, !string_of_list_ascii_of_string. }
    split; [rewrite elem_of_app, elem_of_cons; auto|].
    by rewrite last_field_unique, string_of_list_ascii_of_string.
Qed.

Section Session.
Context `{ChatLibs}.
Variable cfg : Config.

(** A chat request on a ready session whose store directory is marked
    with a backend. *)
Lemma chat_marked data question st b :
  request_question data = Ok question →
  question ≠ "" →
  ready (session st) = Some true →
  stored_type (session_store_path cfg st) (world st) = Some (backend_tag b) →
  ∃ r st',
    run_function (chat cfg data) st = (r, st')
    ∧ loaded_by cfg b question st st' r.
Proof.
  intros Hq Hne Hready Hmark.
  destruct (get_session_store_path_run cfg Response st)
    as (o & w1 & Hmk & Hmade & Hd & Hcall & Ho).
  rewrite (chat_ready_run cfg _ _ _ _ _ Hq Hne Hready Hcall).
  unfold loaded_by. rewrite Hcall.
  destruct o as [[]|?|e1]; [|done|].
  2:{ eexists _, _. split; [reflexivity|]. eexists _, _. split; [reflexivity|]. done. }
  cbn [default from_option id session world history].
  destruct (get_embeddings (EMBEDDING_MODEL cfg)) as [embeddings|e2].
  2:{ eexists _, _. split; [reflexivity|]. eexists _, _. split; [reflexivity|]. done. }
  assert (load_store (session_store_path cfg st) embeddings w1
          = backend_loader b (session_store_path cfg st) embeddings w1) as Hdisp.
  { apply load_store_marked. by rewrite (stored_type_made_dirs _ _ _ Hmade Hd). }
  destruct (backend_loader_run b (session_store_path cfg st) embeddings w1)
    as (ol & w2 & new & Hrun & Ht & Hl & Hol).
  destruct Hmade as (_ & Ht1 & _). rewrite Ht1 in Ht.
  assert (run_function (load_store (session_store_path cfg st) embeddings) w1
          = (match ol with
             | Next _ => Ok None
             | Return s => Ok (Some s)
             | Raise e => Err e
             end, w2)) as Hload.
  { unfold run_function. rewrite Hdisp, Hrun. by destruct ol. }
  assert (run_function (backend_loader b (session_store_path cfg st) embeddings) w1
          = (match ol with
             | Next _ => Ok None
             | Return s => Ok (Some s)
             | Raise e => Err e
             end, w2)) as Hloader.
  { unfold run_function. rewrite Hrun. by destruct ol. }
  rewrite Hload. cbv zeta. cbn [fst snd].
  destruct ol as [[]|store|e3]; [done| |].
  2:{ eexists _, _. split; [reflexivity|]. eexists _, _. split; [reflexivity|].
      cbn [world]. by exists (Err e3), new. }
  destruct (get_retriever store (TOP_K_RESULTS cfg)) as [retriever|e4] eqn:Hretr.
  2:{ eexists _, _. split; [reflexivity|]. eexists _, _. split; [reflexivity|].
      cbn [world]. exists (Ok (Some store)), new. repeat (split; [done|]).
      by rewrite Hretr. }
  destruct (get_llm (environ cfg) (LLM_MODEL cfg)) as [llm|e5] eqn:Hllm.
  2:{ eexists _, _. split; [reflexivity|]. eexists _, _. split; [reflexivity|].
      cbn [world]. exists (Ok (Some store)), new. repeat (split; [done|]).
      by rewrite ?Hretr, ?Hllm. }
  destruct (build_conv_chain llm retriever) as [conv|e6] eqn:Hconv.
  2:{ eexists _, _. split; [reflexivity|]. eexists _, _. split; [reflexivity|].
      cbn [world]. exists (Ok (Some store)), new. repeat (split; [done|]).
      by rewrite ?Hretr, ?Hllm, ?Hconv. }
  destruct (conv_invoke conv question _) as [result|e7] eqn:Hinvoke.
  2:{ eexists _, _. split; [reflexivity|]. eexists _, _. split; [reflexivity|].
      cbn [world]. exists (Ok (Some store)), new. repeat (split; [done|]).
      by rewrite ?Hretr, ?Hllm, ?Hconv, ?Hinvoke. }
  eexists _, _. split; [reflexivity|]. eexists _, _. split; [reflexivity|].
  cbn [world]. exists (Ok (Some store)), new. repeat (split; [done|]).
  by rewrite ?Hretr, ?Hllm, ?Hconv, ?Hinvoke.
Qed.

(** A request that passes the two checks answers 200, or 500 with an
    error that names its cause, unless an exception leaves the handler. *)
Lemma chat_ready data question st r st' body code :
  request_question data = Ok question →
  question ≠ "" →
  ready (session st) = Some true →
  run_function (chat cfg data) st = (r, st') →
  r = Ok (Some (body, code)) →
  code = 200 ∨ (code = 500 ∧ ∃ message e, body = ErrorBody message (Some e)).
Proof.
  intros Hq Hne Hready Hrun ->.
  destruct (@call AppState Response string (get_session_store_path cfg) st)
    as [o st1] eqn:Hpath.
  destruct (get_session_store_path_history cfg _ _ _ _ Hpath) as (_ & _ & _ & _ & Ho).
  rewrite (chat_ready_run cfg _ _ _ _ _ Hq Hne Hready Hpath) in Hrun.
  destruct o as [store_path|?|e1]; [|done|done].
  destruct (get_embeddings (EMBEDDING_MODEL cfg)) as [embeddings|e2]; [|done].
  cbv zeta in Hrun.
  destruct (run_function (load_store (default "" store_path) embeddings) (world st1))
    as [[[store|]|e3] w2]; cbn [fst snd] in Hrun;
    [| done | injection Hrun as <- <- <-; right; eauto].
  destruct (get_retriever store (TOP_K_RESULTS cfg)) as [retriever|e4]; [|done].
  destruct (get_llm (environ cfg) (LLM_MODEL cfg)) as [llm|e5];
    [|injection Hrun as <- <- <-; right; eauto].
  destruct (build_conv_chain llm retriever) as [conv|e6]; [|done].
  destruct (conv_invoke conv question _) as [result|e7];
    [|injection Hrun as <- <- <-; right; eauto].
  injection Hrun as <- <- <-. by left.
Qed.

(** X15.  [chat] reads the question off the request first: a body or a
    value of the key that has no [get] or [strip], such as the JSON
    [null], raises [AttributeError] out of the handler.  It answers 400
    exactly when the stripped question is empty, as for a request without
    the key, and 409 exactly when it is not empty and the session is not
    ready; in these cases the session and the file system are as before
    and no library was called.  A request that gets further answers 200,
    or 500 with an error that names its cause, or an exception leaves the
    handler. *)
Theorem chat_refusals (data : option (gmap string PyVal)) (st : AppState) :
  (∀ e, request_question data = Err e →
        run_function (chat cfg data) st = (Err e, st))
  ∧ (request_question data = Ok "" →
     run_function (chat cfg data) st
     = (Ok (Some (ErrorBody "Question is required." None, 400)), st))
  ∧ (∀ question,
       request_question data = Ok question → question ≠ "" →
       ready (session st) ≠ Some true →
       run_function (chat cfg data) st
       = (Ok (Some (ErrorBody "Documents are not processed yet." None, 409)), st))
  ∧ (∀ question r st' body code,
       request_question data = Ok question → question ≠ "" →
       ready (session st) = Some true →
       run_function (chat cfg data) st = (r, st') →
       r = Ok (Some (body, code)) →
       code = 200 ∨ (code = 500 ∧ ∃ message e, body = ErrorBody message (Some e)))
  ∧ (∀ body code st',
       run_function (chat cfg data) st = (Ok (Some (body, code)), st') →
       (code = 400 ↔ request_question data = Ok "")
       ∧ (code = 409
          ↔ ∃ question, request_question data = Ok question ∧ question ≠ ""
                        ∧ ready (session st) ≠ Some true)
       ∧ (code = 400 ∨ code = 409 → st' = st)
       ∧ (code = 400 ∨ code = 409 ∨ code = 500 ∨ code = 200))
  ∧ run_function (chat cfg (Some {["question" := VNone]})) st = (Err AttributeError, st)
  ∧ run_function (chat cfg (Some ∅)) st
    = (Ok (Some (ErrorBody "Question is required." None, 400)), st).
Proof.
  split; [intros e He; by apply chat_malformed|].
  split; [by apply chat_blank|].
  split; [intros question Hq Hne Hready; by eapply chat_not_ready|].
  split; [intros question r st' body code Hq Hne Hready Hrun Hr; by eapply chat_ready|].
  split; [|split; [by apply chat_malformed | by apply chat_blank]].
  intros body code st' Hrun.
  destruct (request_question data) as [question|e] eqn:Hq.
  2:{ by rewrite (chat_malformed cfg _ _ _ Hq) in Hrun. }
  destruct (decide (question = "")) as [->|Hne].
  { rewrite (chat_blank cfg _ _ Hq) in Hrun. injection Hrun as <- <- <-.
    split; [done|]. split; [|by auto].
    split; [done | by intros (q & [= <-] & ? & _)]. }
  destruct (decide (ready (session st) = Some true)) as [Hready|Hready].
  - destruct (chat_ready _ _ _ _ _ body code Hq Hne Hready Hrun eq_refl)
      as [->|(-> & _)].
    + split; [split; [done | by intros [= ->]]|].
      split; [split; [done | by intros (q & _ & _ & ?)]|].
      split; [by intros [?|?] | auto].
    + split; [split; [done | by intros [= ->]]|].
      split; [split; [done | by intros (q & _ & _ & ?)]|].
      split; [by intros [?|?] | auto].
  - rewrite (chat_not_ready cfg _ _ _ Hq Hne Hready) in Hrun. injection Hrun as <- <- <-.
    split; [split; [done | by intros [= ->]]|].
    split; [split; [by exists question | done]|]. by auto.
Qed.

(** X20.  On a ready session whose store directory is marked with a
    backend, a chat request with a question that is not blank loads the
    store with the loader of that backend: what [load_store] returns or
    raises on the store directory of the session is what that loader
    returns or raises there, and no other loader is called.  When the
    loader raises, the answer is the 500 error that names the exception;
    the store it returns is of that backend, and the retriever and the
    chain that answer the question are built on it. *)
Theorem chat_loads_marked_backend (data : option (gmap string PyVal))
    (question : string) (st : AppState) (b : Backend) :
  request_question data = Ok question →
  question ≠ "" →
  ready (session st) = Some true →
  stored_type (session_store_path cfg st) (world st) = Some (backend_tag b) →
  ∃ r st',
    run_function (chat cfg data) st = (r, st')
    ∧ loaded_by cfg b question st st' r.
Proof. apply chat_marked. Qed.

(** X23.  [get_session_id] returns the id of the session when it has one
    that is not empty, and changes nothing then; otherwise it stores a
    new id and returns it.  It touches nothing else of the session, and
    once it has returned an id that is not empty, every later call
    returns the same id and [get_session_store_path] the same
    directory. *)
Theorem session_id_is_stable (st : AppState) :
  ∃ s st1,
    run_function get_session_id st = (Ok (Some s), st1)
    ∧ sid (session st1) = Some s
    ∧ history (session st1) = history (session st)
    ∧ ready (session st1) = ready (session st)
    ∧ world st1 = world st
    ∧ (∀ s0, sid (session st) = Some s0 → s0 ≠ "" → s = s0 ∧ st1 = st)
    ∧ (s ≠ "" →
       run_function get_session_id st1 = (Ok (Some s), st1)
       ∧ session_store_path cfg st1 = session_store_path cfg st).
Proof.
  assert (∀ st0 s0, sid (session st0) = Some s0 → s0 ≠ "" →
                    run_function get_session_id st0 = (Ok (Some s0), st0)) as Hkeep.
  { intros st0 s0 Hs0 Hne. unfold get_session_id, run_function.
    cbv [mbind stmt_bind bind get_state]. rewrite Hs0. by destruct (decide (s0 = "")). }
  assert (∀ s, sid (session st) = Some s → s ≠ "" → session_id st = s) as Hsome.
  { intros s Hs Hne. unfold session_id. by rewrite Hs, decide_False. }
  assert ((sid (session st) = None ∨ sid (session st) = Some "") →
          session_id st = uuid4_hex
          ∧ run_function get_session_id st
            = (Ok (Some uuid4_hex),
               {| session := {| sid := Some uuid4_hex;
                                history := history (session st);
                                ready := ready (session st) |};
                  world := world st |})) as Hnew.
  { intros Hsid. unfold session_id, get_session_id, run_function.
    cbv [mbind stmt_bind bind get_state]. by destruct Hsid as [->| ->]. }
  destruct (sid (session st)) as [s0|] eqn:Hsid;
    [destruct (decide (s0 = "")) as [->|Hne]|].
  - destruct Hnew as [Hid Hrun]; [by right|].
    eexists _, _. split; [exact Hrun|]. cbn [session sid history ready world].
    repeat (split; [done|]). split; [by intros ? [= <-]|].
    intros Hs. split; [by apply Hkeep|].
    unfold session_store_path. f_equal. f_equal. rewrite Hid.
    unfold session_id. cbn. by rewrite decide_False.
  - exists s0, st. split; [by apply Hkeep|].
    repeat (split; [done|]). split; [by intros ? [= <-]|].
    intros _. split; [by apply Hkeep | done].
  - destruct Hnew as [Hid Hrun]; [by left|].
    eexists _, _. split; [exact Hrun|]. cbn [session sid history ready world].
    repeat (split; [done|]).
    intros Hs. split; [by apply Hkeep|].
    unfold session_store_path. f_equal. f_equal. rewrite Hid.
    unfold session_id. cbn. by rewrite decide_False.
Qed.

End Session.

Section Upload.
Context `{ChatLibs} `{HostLibs}.
Variable cfg : Config.
Variable ucfg : UploadSettings.
Variable pdf_libs : FS → PdfProcessor.PdfLibs.

Lemma insert_keeps_files (m : gmap string string) k v p :
  is_Some (m !! p) → is_Some (<[k := v]> m !! p).
Proof.
  intros Hp. destruct (decide (k = p)) as [->|Hne];
    [by rewrite lookup_insert_eq | by rewrite lookup_insert_ne].
Qed.

(** The loop over the files leaves the session alone, calls no
    vector-store library, creates no directory and removes no file.  When
    it runs to its end every file was accepted and saved, the names have
    grown by the secured names in order, and every page added bears the
    last component of the path of one of the files.  When it returns, it
    is for the first file that fails a check, with the files before it
    saved. *)
Lemma upload_files_run uploaded all_pages saved_files st :
  ∃ o st',
    upload_files ucfg pdf_libs uploaded all_pages saved_files st = (o, st')
    ∧ session st' = session st
    ∧ trace (world st') = trace (world st)
    ∧ dirs (fs (world st')) = dirs (fs (world st))
    ∧ (∀ p, is_Some (files (fs (world st)) !! p) →
            is_Some (files (fs (world st')) !! p))
    ∧ match o with
      | Next (pages', saved') =>
          Forall (accepted ucfg) uploaded
          ∧ saved' = saved_files ++ (secured <$> uploaded)
          ∧ (∃ new_pages, pages' = all_pages ++ new_pages
               ∧ ∀ p, p ∈ new_pages →
                   ∃ f, f ∈ uploaded ∧ source p = split_last (save_path ucfg f))
          ∧ ∀ f, f ∈ uploaded → is_Some (files (fs (world st')) !! save_path ucfg f)
      | Return (body, code) =>
          (∃ message, body = UploadError message None)
          ∧ ∃ saved bad rest,
              uploaded = saved ++ bad :: rest
              ∧ Forall (accepted ucfg) saved
              ∧ rejected_with ucfg bad code
              ∧ ∀ f, f ∈ saved → is_Some (files (fs (world st')) !! save_path ucfg f)
      | Raise _ => True
      end.
Proof.
  revert all_pages saved_files st.
  induction uploaded as [|f uploaded IH]; intros all_pages saved_files st.
  { exists (Next (all_pages, saved_files)), st. simpl. rewrite !app_nil_r.
    repeat split; auto; [|by intros f ?%elem_of_nil].
    exists []. rewrite app_nil_r. split; [done|]. by intros p ?%elem_of_nil. }
  cbn [upload_files]. fold (secured f).
  destruct (decide (secured f = "")) as [Hempty|Hname].
  { eexists _, _. split; [reflexivity|]. repeat split; eauto.
    exists [], f, uploaded. repeat split; eauto.
    - left. auto.
    - by intros ? ?%elem_of_nil. }
  destruct (allowed_file (secured f)) eqn:Hallowed; cbn [negb].
  2:{ eexists _, _. split; [reflexivity|]. repeat split; eauto.
      exists [], f, uploaded. repeat split; eauto.
      - left. auto.
      - by intros ? ?%elem_of_nil. }
  destruct (negb (len (stream f) =? 0) && (len (stream f) >? MAX_FILE_SIZE ucfg))
    eqn:Hsize.
  { eexists _, _. split; [reflexivity|]. repeat split; eauto.
    exists [], f, uploaded. repeat split; eauto.
    - right. apply andb_true_iff in Hsize as [Hz Hgt].
      apply negb_true_iff in Hz. repeat split; auto; lia.
    - by intros ? ?%elem_of_nil. }
  assert (accepted ucfg f) as Hacc.
  { split; [done|]. split; [done|]. apply andb_false_iff in Hsize as [Hz|Hgt].
    - left. apply negb_false_iff in Hz. lia.
    - right. lia. }
  cbv [mbind stmt_bind bind]. unfold in_world.
  destruct (write_file_run (UploadBody * Z) (UPLOAD_FOLDER ucfg)
              (secured f) (stream f) (world st))
    as [[-> _]|(e & ->)]; [|by eexists _, _].
  cbv [get_state]. cbn [world fs].
  match goal with
  | |- context [@PdfProcessor.extract_text_by_page ?L ?sp] =>
      destruct (SourceNames.extract_sources L sp) as (pages & -> & Hsrc)
  end.
  cbn [of_res]; cbv [ret].
  match goal with
  | |- context [upload_files ucfg pdf_libs uploaded ?ap ?sf ?st1] =>
      destruct (IH ap sf st1) as (o & st' & -> & Hs & Ht & Hd & Hmono & Ho)
  end.
  cbn in Hs, Ht, Hd, Hmono.
  exists o, st'. split; [done|]. split; [done|]. split; [done|]. split; [done|].
  split; [intros p Hp; by apply Hmono, insert_keeps_files|].
  assert (is_Some (files (fs (world st')) !! save_path ucfg f)) as Hf.
  { apply Hmono. unfold save_path. by rewrite lookup_insert_eq. }
  destruct o as [[pages' saved']|[body code]|e]; [| |done].
  - destruct Ho as (Hall & -> & (new_pages & -> & Hnew) & Hsaved).
    split; [by constructor|]. split; [by rewrite <- (assoc_L (++))|]. split.
    + exists (pages ++ new_pages). rewrite (assoc_L (++)). split; [done|].
      intros p [Hp|Hp]%elem_of_app.
      * exists f. split; [left | by apply Hsrc].
      * destruct (Hnew p Hp) as (f' & Hf' & Hp'). exists f'. split; [by right | done].
    + intros f' [->|Hf']%elem_of_cons; [done | by apply Hsaved].
  - destruct Ho as (Hbody & saved & bad & rest & -> & Hall & Hbad & Hsaved).
    split; [done|]. exists (f :: saved), bad, rest.
    split; [done|]. split; [by constructor|]. split; [done|].
    intros f' [->|Hf']%elem_of_cons; [done | by apply Hsaved].
Qed.


Lemma build_not_none documents embeddings path prefer w w' :
  run_function (build_and_save_store documents embeddings path prefer) w ≠ (Ok None, w').
Proof.
  rewrite build_and_save_store_blocks. unfold run_function.
  cbv [mbind stmt_bind bind].
  destruct (makedirs_run Store path w) as (o0 & w1 & -> & _ & _ & Ho0).
  destruct o0 as [[]|?|e0]; [|done|done].
  destruct (when (bool_decide (lower prefer = "faiss"))
              (faiss_block documents embeddings path) w1)
    as [[[]|s1|e1] w2] eqn:Hfaiss; [|done|done].
  destruct (chroma_block documents embeddings path w2) as [[[]|s2|e2] w3] eqn:Hchroma;
    [|done|done].
  destruct (docarray_block_run documents embeddings path w3)
    as (o & w4 & -> & _ & _ & Ho).
  by destruct o as [[]|s3|e3].
Qed.

Lemma build_stored_type documents embeddings path prefer w store w' :
  run_function (build_and_save_store documents embeddings path prefer) w
  = (Ok (Some store), w') →
  stored_type path w' = Some (backend_tag (store_backend store)).
Proof.
  intros Hrun.
  destruct (build_run documents embeddings path prefer w store w' Hrun)
    as (_ & _ & _ & _ & _ & _ & _ & _ & _ & Hm & Hnd & _).
  eapply stored_type_of_marker; [exact Hm | exact Hnd | by destruct (store_backend store)].
Qed.

Lemma upload_run files_field st :
  ∃ r st',
    run_function (upload cfg ucfg pdf_libs files_field) st = (r, st')
    ∧ match r with
      | Ok None => False
      | Ok (Some (UploadError message None, code)) => refused ucfg st st' files_field code
      | Ok (Some (UploadError message (Some e), code)) =>
          code = 500
          ∧ history (session st') = history (session st)
          ∧ ready (session st') = ready (session st)
          ∧ ∃ uploaded, files_field = Some uploaded ∧ Forall (accepted ucfg) uploaded
      | Ok (Some (UploadProcessed names n, code)) =>
          code = 200
          ∧ ∃ uploaded, files_field = Some uploaded ∧ processed cfg ucfg st st' uploaded names n
      | Err e =>
          history (session st') = history (session st)
          ∧ ready (session st') = ready (session st)
      end.
Proof.
  unfold upload. destruct files_field as [uploaded|].
  2:{ eexists _, _. split; [reflexivity|]. cbn. unfold refused. repeat split; auto. }
  destruct (decide (uploaded = [])) as [->|Hne].
  { eexists _, _. split; [reflexivity|]. cbn. unfold refused. repeat split; auto. }
  assert (∀ (k : Stmt AppState (UploadBody * Z) unit),
            match uploaded with
            | [] => return_ (UploadError "No files uploaded." None, 400)
            | _ :: _ => k
            end = k) as Hk by (by destruct uploaded).
  rewrite Hk. clear Hk.
  unfold run_function. cbv [mbind stmt_bind bind].
  destruct (upload_files_run uploaded [] [] st)
    as (o & st1 & -> & Hs & Ht & Hd & Hmono & Ho).
  destruct o as [[pages saved]|[body code]|e]; cbn [fst snd].
  3:{ eexists _, _. split; [reflexivity|]. cbn. by rewrite Hs. }
  2:{ destruct Ho as ((message & ->) & saved & bad & rest & -> & Hall & Hbad & Hsaved).
      eexists _, _. split; [reflexivity|]. cbn. unfold refused.
      split; [done|]. split; [done|]. split; [done|]. split; [done|].
      right. by exists saved, bad, rest. }
  destruct Ho as (Hall & -> & (new_pages & -> & Hsrc) & Hsaved).
  cbn [app] in *.
  destruct (ChunkingProofs.build_documents_spec new_pages (CHUNK_SIZE ucfg)
              (CHUNK_OVERLAP ucfg)) as (css & _ & Hdocs).
  rewrite Hdocs. cbv [default from_option id].
  unfold of_res at 1.
  destruct (get_embeddings (EMBEDDING_MODEL cfg)) as [embeddings|e2] eqn:Hemb.
  2:{ eexists _, _. split; [reflexivity|]. cbn. by rewrite Hs. }
  cbv [ret].
  lazymatch goal with
  | |- context [@call _ ?R _ (get_session_store_path cfg) st1] =>
      destruct (get_session_store_path_run cfg R st1)
        as (o1 & w2 & _ & (Hf2 & Ht2 & _) & _ & -> & Ho1)
  end.
  destruct o1 as [[]|?|e1]; [|done|].
  2:{ eexists _, _. split; [reflexivity|]. cbn. by rewrite Hs. }
  cbv [try_except in_world call pass ret return_ modify_state].
  cbn [world session].
  destruct (run_function
              (build_and_save_store (concat (zip_with Chunking.page_documents new_pages css))
                 embeddings (session_store_path cfg st1) (VECTOR_STORE_PREF ucfg))
              w2) as [[[store|]|e3] w3] eqn:Hbuild.
  - eexists _, _. split; [reflexivity|]. cbn. split; [done|].
    exists uploaded. split; [done|]. unfold processed, reset_session.
    cbn [session world sid history ready].
    assert (session_id st1 = session_id st) as Hid
      by (unfold session_id; by rewrite Hs).
    assert (session_store_path cfg st1 = session_store_path cfg st) as Hpath
      by (unfold session_store_path; by rewrite Hid).
    split; [done|]. split; [done|]. split; [done|].
    split; [by rewrite Hid|]. split; [done|]. split; [done|].
    exists new_pages, (concat (zip_with Chunking.page_documents new_pages css)),
           embeddings, store, w2.
    split; [done|]. split; [done|]. split; [done|]. split; [done|].
    split; [intros f Hf; rewrite Hf2; by apply Hsaved|].
    split; [by rewrite Ht2, Ht|]. by rewrite <- Hpath.
  - by apply build_not_none in Hbuild.
  - eexists _, _. split; [reflexivity|]. cbn.
    split; [done|]. rewrite Hs. split; [done|]. split; [done|]. eauto.
Qed.


Lemma rejected_is_not_accepted f code :
  rejected_with ucfg f code → ¬ accepted ucfg f.
Proof.
  intros [(_ & [Hname|Hallowed])|(_ & _ & _ & Hsize & Hmax)] (Hn & Ha & Hs).
  - done.
  - congruence.
  - lia.
Qed.

Lemma rejected_code f code : rejected_with ucfg f code → code = 400 ∨ code = 413.
Proof. intros [(-> & _)|(-> & _)]; auto. Qed.

(** X16.  When [upload] answers with an error that is not a failed build,
    nothing but the upload folder has changed: the session, the
    directories and the record of library calls are as before, and no
    file was removed.  Either the request had no file and the status is
    400, or the answer is for the first file that fails a check, with
    status 400 for its name and 413 for its size, and every file before
    it is saved in the upload folder: the files are checked one by one as
    they are saved. *)
Theorem upload_refuses_first_bad_file (files_field : option (list UploadedFile))
    (st : AppState) :
  ∃ r st',
    run_function (upload cfg ucfg pdf_libs files_field) st = (r, st')
    ∧ ∀ message code,
        r = Ok (Some (UploadError message None, code)) →
        session st' = session st
        ∧ trace (world st') = trace (world st)
        ∧ dirs (fs (world st')) = dirs (fs (world st))
        ∧ (∀ p, is_Some (files (fs (world st)) !! p) →
                is_Some (files (fs (world st')) !! p))
        ∧ ((code = 400 ∧ st' = st ∧ (files_field = None ∨ files_field = Some []))
           ∨ ∃ saved bad rest,
               files_field = Some (saved ++ bad :: rest)
               ∧ Forall (accepted ucfg) saved
               ∧ rejected_with ucfg bad code
               ∧ ∀ f, f ∈ saved →
                   is_Some (files (fs (world st')) !! save_path ucfg f)).
Proof.
  destruct (upload_run files_field st) as (r & st' & Hrun & Hr).
  exists r, st'. split; [done|]. intros message code ->. exact Hr.
Qed.

(** X17.  A request with a file that fails a check builds nothing: the
    answer is 400 or 413, or an exception of [f.save] leaves the handler,
    and in either case no vector-store library was called, no directory
    was created and the session is as before. *)
Theorem upload_with_bad_file_builds_nothing (uploaded : list UploadedFile)
    (bad : UploadedFile) (code : Z) (st : AppState) :
  bad ∈ uploaded →
  rejected_with ucfg bad code →
  ∃ r st',
    run_function (upload cfg ucfg pdf_libs (Some uploaded)) st = (r, st')
    ∧ session st' = session st
    ∧ trace (world st') = trace (world st)
    ∧ dirs (fs (world st')) = dirs (fs (world st))
    ∧ ((∃ e, r = Err e)
       ∨ ∃ message code',
           r = Ok (Some (UploadError message None, code'))
           ∧ (code' = 400 ∨ code' = 413)).
Proof.
  intros Hbad Hrej. apply rejected_is_not_accepted in Hrej.
  assert (¬ Forall (accepted ucfg) uploaded) as Hnot.
  { intros Hall. apply Hrej. by eapply List.Forall_forall; [exact Hall|apply list_elem_of_In]. }
  assert (uploaded ≠ []) as Hne by (intros ->; by apply elem_of_nil in Hbad).
  unfold upload.
  assert (∀ (k : Stmt AppState (UploadBody * Z) unit),
            match uploaded with
            | [] => return_ (UploadError "No files uploaded." None, 400)
            | _ :: _ => k
            end = k) as Hk by (by destruct uploaded).
  rewrite Hk. clear Hk.
  unfold run_function. cbv [mbind stmt_bind bind].
  destruct (upload_files_run uploaded [] [] st)
    as (o & st1 & -> & Hs & Ht & Hd & _ & Ho).
  destruct o as [[pages saved]|[body code']|e].
  - by destruct Ho as (Hall & _).
  - destruct Ho as ((message & ->) & saved & bad' & rest & _ & _ & Hbad' & _).
    eexists _, _. split; [reflexivity|]. repeat (split; [done|]).
    right. exists message, code'. split; [done|]. by eapply rejected_code.
  - eexists _, _. split; [reflexivity|]. repeat (split; [done|]). left. eauto.
Qed.

(** X18.  [upload] answers with status 200, 400, 413 or 500.  With 200 the
    session is left with an empty history and the ready flag set; with
    any other answer, and when an exception leaves the handler, the
    history and the ready flag are as they were. *)
Theorem upload_resets_session_only_on_success
    (files_field : option (list UploadedFile)) (st : AppState) :
  ∃ r st',
    run_function (upload cfg ucfg pdf_libs files_field) st = (r, st')
    ∧ (∀ body code, r = Ok (Some (body, code)) →
         code = 200 ∨ code = 400 ∨ code = 413 ∨ code = 500)
    ∧ (∀ body, r = Ok (Some (body, 200)) →
         history (session st') = Some [] ∧ ready (session st') = Some true)
    ∧ ((∀ body, r ≠ Ok (Some (body, 200))) →
         history (session st') = history (session st)
         ∧ ready (session st') = ready (session st)).
Proof.
  destruct (upload_run files_field st) as (r & st' & Hrun & Hr).
  exists r, st'. split; [done|].
  destruct r as [[[[message [e|]|names n] code]|]|e]; [| | |done|].
  - destruct Hr as (-> & Hh & Hrd & _).
    split; [intros ?? [= <- <-]; auto|]. split; [by intros ? [=]|]. done.
  - destruct Hr as (Hs & _ & _ & _ & Hcase).
    assert (code = 400 ∨ code = 413) as Hcode.
    { destruct Hcase as [(-> & _)|(saved & bad & rest & _ & _ & Hbad & _)];
        [by left | by eapply rejected_code]. }
    split; [intros ?? [= <- <-]; lia|].
    split; [intros ? [= <- ->]; lia|]. by rewrite Hs.
  - destruct Hr as (-> & uploaded & _ & _ & _ & _ & _ & Hh & Hrd & _).
    split; [intros ?? [= <- <-]; auto|]. split; [done|].
    intros Hnot. by destruct (Hnot (UploadProcessed names n)).
  - split; [by intros ?? [=]|]. split; [by intros ? [=]|]. done.
Qed.

(** X19.  When [upload] answers 200, every file of the request passed the
    three checks and is saved in the upload folder; the answer lists the
    secured names in the order of the request and counts the extracted
    pages, each of which bears the last component of the path of one of
    the files as its source; and [build_and_save_store] returned a store
    for the documents [build_documents] makes of these pages, at the
    store directory of the session, whose marker names the backend of
    that store. *)
Theorem upload_success_builds_session_store
    (files_field : option (list UploadedFile)) (st : AppState) :
  ∃ r st',
    run_function (upload cfg ucfg pdf_libs files_field) st = (r, st')
    ∧ ∀ names n code,
        r = Ok (Some (UploadProcessed names n, code)) →
        code = 200
        ∧ ∃ uploaded pages documents embeddings store w1,
            files_field = Some uploaded
            ∧ uploaded ≠ []
            ∧ Forall (accepted ucfg) uploaded
            ∧ names = secured <$> uploaded
            ∧ n = Z.of_nat (length pages)
            ∧ (∀ p, p ∈ pages →
                 ∃ f, f ∈ uploaded ∧ source p = split_last (save_path ucfg f))
            ∧ (∀ f, f ∈ uploaded → is_Some (files (fs w1) !! save_path ucfg f))
            ∧ Chunking.build_documents pages (CHUNK_SIZE ucfg) (CHUNK_OVERLAP ucfg)
              = Some documents
            ∧ get_embeddings (EMBEDDING_MODEL cfg) = Ok embeddings
            ∧ run_function
                (build_and_save_store documents embeddings
                   (session_store_path cfg st) (VECTOR_STORE_PREF ucfg)) w1
              = (Ok (Some store), world st')
            ∧ trace w1 = trace (world st)
            ∧ stored_type (session_store_path cfg st) (world st')
              = Some (backend_tag (store_backend store)).
Proof.
  destruct (upload_run files_field st) as (r & st' & Hrun & Hr).
  exists r, st'. split; [done|]. intros names n code ->.
  destruct Hr as (-> & uploaded & -> & Hne & Hall & -> & _ & _ & _
                  & pages & documents & embeddings & store & w1
                  & -> & Hsrc & Hdocs & Hemb & Hsaved & Ht & Hbuild).
  split; [done|].
  exists uploaded, pages, documents, embeddings, store, w1.
  repeat (split; [done|]). by eapply build_stored_type.
Qed.

(** X21.  After an upload answered with 200, a chat request with a
    question that is not blank is not refused: the upload ended with a
    successful [build_and_save_store] at the store directory of the
    session, and the request loads the store from that directory with
    the loader of the backend of the store the build returned: what
    [load_store] does there is what that loader does, no other loader is
    called, and the store it returns, of that backend, is what the answer
    is made from. *)
Theorem chat_after_upload_loads_built_store (uploaded : list UploadedFile)
    (st st1 : AppState) (body : UploadBody) (data : option (gmap string PyVal))
    (question : string) :
  run_function (upload cfg ucfg pdf_libs (Some uploaded)) st
  = (Ok (Some (body, 200)), st1) →
  session_id st ≠ "" →
  request_question data = Ok question →
  question ≠ "" →
  ∃ documents embeddings w1 store r st2,
    run_function
      (build_and_save_store documents embeddings (session_store_path cfg st)
         (VECTOR_STORE_PREF ucfg)) w1
    = (Ok (Some store), world st1)
    ∧ session_store_path cfg st1 = session_store_path cfg st
    ∧ stored_type (session_store_path cfg st1) (world st1)
      = Some (backend_tag (store_backend store))
    ∧ run_function (chat cfg data) st1 = (r, st2)
    ∧ loaded_by cfg (store_backend store) question st1 st2 r.
Proof.
  intros Hrun Hsid Hq Hne.
  destruct (upload_run (Some uploaded) st) as (r & st' & Hrun' & Hr).
  rewrite Hrun in Hrun'. injection Hrun' as <- <-.
  destruct body as [message [e|]|names n].
  { by destruct Hr as (? & _). }
  { destruct Hr as (_ & _ & _ & _ & [(? & _)|(saved & bad & rest & _ & _ & Hbad & _)]);
      [done|]. apply rejected_code in Hbad. lia. }
  destruct Hr as (_ & uploaded' & _ & _ & _ & _ & Hsid1 & _ & Hready
                  & pages & documents & embeddings & store & w1
                  & _ & _ & _ & _ & _ & _ & Hbuild).
  pose proof (build_stored_type _ _ _ _ _ _ _ Hbuild) as Hstored.
  assert (session_store_path cfg st1 = session_store_path cfg st) as Hpath.
  { unfold session_store_path. f_equal. f_equal. unfold session_id at 1.
    rewrite Hsid1. by rewrite decide_False. }
  destruct (chat_marked cfg data question st1 (store_backend store) Hq Hne Hready)
    as (r & st2 & Hchat & Hloaded); [by rewrite Hpath|].
  exists documents, embeddings, w1, store, r, st2.
  split; [done|]. split; [done|]. split; [by rewrite Hpath|]. by split.
Qed.


(** X22.  [clear] empties the history and unsets the ready flag before
    anything else, so also when [os.makedirs] raises, which is the only
    exception that leaves the handler, with every file as before.  The
    store directory of the session is created by the call that asks for
    its path, so [shutil.rmtree] is always called on it, and whatever it
    does or raises the answer is ["cleared"] with status 200.  No
    vector-store library is called.  Afterwards a question that is not
    blank is answered with 409 and [history] returns the empty list. *)
Theorem clear_resets_session (st : AppState) :
  ∃ r st',
    run_function (clear cfg) st = (r, st')
    ∧ sid (session st') = Some (session_id st)
    ∧ history (session st') = Some []
    ∧ ready (session st') = Some false
    ∧ trace (world st') = trace (world st)
    ∧ match r with
      | Ok (Some (body, code)) =>
          body = "cleared" ∧ code = 200
          ∧ ∃ w1,
              @makedirs _ string (session_store_path cfg st) (world st) = (Next (), w1)
              ∧ session_store_path cfg st ∈ dirs (fs w1)
              ∧ dirs (fs (world st)) ⊆ dirs (fs w1)
              ∧ files (fs w1) = files (fs (world st))
              ∧ fs (world st') = snd (rmtree (session_store_path cfg st) (fs w1))
      | Ok None => False
      | Err e =>
          files (fs (world st')) = files (fs (world st))
          ∧ dirs (fs (world st)) ⊆ dirs (fs (world st'))
          ∧ @makedirs _ string (session_store_path cfg st) (world st)
            = (Raise e, world st')
      end
    ∧ (∀ data question,
         request_question data = Ok question →
         question ≠ "" →
         run_function (chat cfg data) st'
         = (Ok (Some (ErrorBody "Documents are not processed yet." None, 409)), st'))
    ∧ run_function history_handler st' = (Ok (Some ([], 200)), st').
Proof.
  assert (∀ st', history (session st') = Some [] → ready (session st') = Some false →
            (∀ data question,
               request_question data = Ok question →
               question ≠ "" →
               run_function (chat cfg data) st'
               = (Ok (Some (ErrorBody "Documents are not processed yet." None, 409)), st'))
            ∧ run_function history_handler st' = (Ok (Some ([], 200)), st')) as Hafter.
  { intros st' Hh Hr. split.
    - intros data q Hq Hne. eapply chat_not_ready; [done | done |]. by rewrite Hr.
    - unfold history_handler, run_function. cbv [mbind stmt_bind bind get_state return_].
      by rewrite Hh. }
  cut (∃ r st',
         run_function (clear cfg) st = (r, st')
         ∧ sid (session st') = Some (session_id st)
         ∧ history (session st') = Some []
         ∧ ready (session st') = Some false
         ∧ trace (world st') = trace (world st)
         ∧ match r with
           | Ok (Some (body, code)) =>
               body = "cleared" ∧ code = 200
               ∧ ∃ w1,
                   @makedirs _ string (session_store_path cfg st) (world st)
                   = (Next (), w1)
                   ∧ session_store_path cfg st ∈ dirs (fs w1)
                   ∧ dirs (fs (world st)) ⊆ dirs (fs w1)
                   ∧ files (fs w1) = files (fs (world st))
                   ∧ fs (world st') = snd (rmtree (session_store_path cfg st) (fs w1))
           | Ok None => False
           | Err e =>
               files (fs (world st')) = files (fs (world st))
               ∧ dirs (fs (world st)) ⊆ dirs (fs (world st'))
               ∧ @makedirs _ string (session_store_path cfg st) (world st)
                 = (Raise e, world st')
           end).
  { intros (r & st' & Hrun & Hsid & Hh & Hr & Ht & Hm). exists r, st'.
    repeat (split; [done|]). by apply Hafter. }
  unfold clear, run_function. cbv [mbind stmt_bind bind modify_state].
  destruct (get_session_store_path_run cfg (string * Z)%type (reset_session false st))
    as (o & w1 & Hmk & (Hf & Ht & Hsub) & _ & Hcall & Ho).
  assert (session_id (reset_session false st) = session_id st) as Hid by done.
  assert (session_store_path cfg (reset_session false st) = session_store_path cfg st)
    as Hpath by done.
  rewrite Hpath, Hid in *. cbn [reset_session world session history ready] in *.
  rewrite Hcall.
  destruct o as [[]|?|e]; [|done|].
  2:{ eexists _, _. split; [reflexivity|]. cbn [session world sid history ready].
      by repeat (split; [done|]). }
  cbv [default from_option id return_ try_except get_state]. cbn [world fs dirs].
  rewrite bool_decide_eq_true_2 by done.
  cbn [when]. unfold in_world. cbn [world fs trace session].
  destruct (rmtree (session_store_path cfg st) (fs w1)) as [[[]|e] fs'] eqn:Hrm;
    cbn [of_res]; cbv [ret raise pass];
    (eexists _, _; split; [reflexivity|];
     cbn [session world sid history ready trace fs];
     repeat (split; [done|]); exists w1; by rewrite Hrm).
Qed.

End Upload.

Lemma upload_with_bad_file_builds_nothing_witness :
  ∃ r st',
    run_function
      (upload (H0 := sample_chat_libs true true) (H1 := sample_host_libs)
         sample_config sample_settings sample_pdf_libs (Some [report_pdf; notes_txt]))
      fresh_state = (r, st')
    ∧ session st' = session fresh_state
    ∧ trace (world st') = trace (world fresh_state)
    ∧ dirs (fs (world st')) = dirs (fs (world fresh_state))
    ∧ ((∃ e, r = Err e)
       ∨ ∃ message code',
           r = Ok (Some (UploadError message None, code'))
           ∧ (code' = 400 ∨ code' = 413)).
Proof.
  apply (upload_with_bad_file_builds_nothing (H0 := sample_chat_libs true true)
           (H1 := sample_host_libs) sample_config sample_settings sample_pdf_libs
           [report_pdf; notes_txt] notes_txt 400 fresh_state).
  - apply elem_of_cons. right. apply elem_of_cons. by left.
  - left. split; [reflexivity|]. right. eval_eq.
Defined.

Lemma chat_loads_marked_backend_witness :
  ∃ r st',
    run_function
      (chat (H0 := sample_chat_libs true true) sample_config
         (Some {["question" := VStr "what?"]}))
      chroma_session = (r, st')
    ∧ loaded_by (H0 := sample_chat_libs true true) sample_config Chroma "what?"
        chroma_session st' r.
Proof.
  apply (chat_loads_marked_backend (H0 := sample_chat_libs true true) sample_config
           (Some {["question" := VStr "what?"]}) "what?" chroma_session Chroma).
  - eval_eq.
  - eval_ne.
  - reflexivity.
  - eval_eq.
Defined.

Lemma chat_after_upload_loads_built_store_witness :
  let run := run_function
               (upload (H0 := sample_chat_libs true true) (H1 := sample_host_libs)
                  sample_config sample_settings sample_pdf_libs (Some [report_pdf]))
               fresh_state in
  fst run = Ok (Some (UploadProcessed ["report.pdf"] 1, 200))
  ∧ ∃ documents embeddings w1 store r st2,
      run_function
        (build_and_save_store (H := sample_libs true true) documents embeddings
           (session_store_path (H0 := sample_chat_libs true true) sample_config fresh_state)
           (VECTOR_STORE_PREF sample_settings)) w1
      = (Ok (Some store), world (snd run))
      ∧ session_store_path (H0 := sample_chat_libs true true) sample_config (snd run)
        = session_store_path (H0 := sample_chat_libs true true) sample_config fresh_state
      ∧ stored_type
          (session_store_path (H0 := sample_chat_libs true true) sample_config (snd run))
          (world (snd run))
        = Some (backend_tag (store_backend store))
      ∧ run_function (chat (H0 := sample_chat_libs true true) sample_config
                        (Some {["question" := VStr "what?"]})) (snd run) = (r, st2)
      ∧ loaded_by (H0 := sample_chat_libs true true) sample_config (store_backend store)
          "what?" (snd run) st2 r.
Proof.
  intros run.
  assert (fst run = Ok (Some (UploadProcessed ["report.pdf"] 1, 200))) as Hfst by eval_eq.
  assert (run = (Ok (Some (UploadProcessed ["report.pdf"] 1, 200)), snd run)) as Hrun
    by (rewrite <- Hfst; apply surjective_pairing).
  split; [exact Hfst|].
  apply (chat_after_upload_loads_built_store (H0 := sample_chat_libs true true)
           (H1 := sample_host_libs) sample_config sample_settings sample_pdf_libs
           [report_pdf] fresh_state (snd run) (UploadProcessed ["report.pdf"] 1)
           (Some {["question" := VStr "what?"]}) "what?" Hrun).
  - eval_ne.
  - eval_eq.
  - eval_ne.
Defined.

Lemma chat_history_loop_exchange stored question answer cits acc last_user :
  chat_history_loop (stored ++ exchange question answer cits) acc last_user
  = chat_history_loop stored acc last_user ++ [(question, answer)].
Proof.
  revert acc last_user. induction stored as [|msg stored IH]; intros acc last_user.
  - done.
  - cbn [app chat_history_loop]. destruct (decide (role msg = "user")); [apply IH|].
    destruct (decide (role msg = "assistant")); [|apply IH].
    destruct last_user; apply IH.
Qed.

(** X24.  The two entries of an answered chat request, appended to any
    stored history, add exactly the pair of the question and the answer
    at the end of what the chain is given as chat history; so a history
    made by answered requests alone is handed over as all its pairs, in
    order, whatever citations the answers had. *)
Theorem reconstruct_of_exchanges :
  (∀ stored question answer cits,
     reconstruct (stored ++ exchange question answer cits)
     = reconstruct stored ++ [(question, answer)])
  ∧ (∀ turns : list (string * string * list Citation),
       reconstruct (concat ((λ t, exchange t.1.1 t.1.2 t.2) <$> turns))
       = (λ t, (t.1.1, t.1.2)) <$> turns).
Proof.
  assert (∀ stored question answer cits,
            reconstruct (stored ++ exchange question answer cits)
            = reconstruct stored ++ [(question, answer)]) as Hsnoc.
  { intros. apply chat_history_loop_exchange. }
  split; [done|].
  induction turns as [|t turns IH] using rev_ind; [done|].
  rewrite !fmap_app, concat_app. cbn [fmap list_fmap concat].
  rewrite !app_nil_r. rewrite Hsnoc. by rewrite IH.
Qed.

(** X25.  [get_llm] reads the provider from [LLM_PROVIDER], [hub] when
    unset, and raises [RuntimeError] itself, before any constructor is
    called, exactly when a variable the provider needs is unset or empty:
    [OPENROUTER_API_KEY] for [openrouter]; [HUGGINGFACEHUB_API_TOKEN] for
    every other provider, and [HF_ENDPOINT_URL] as well for [endpoint].
    Otherwise its outcome, a model or an exception, is that of the one
    constructor of the provider, called with credentials that are the
    values of these variables and are not empty.  The model name is used
    only for the Hub model, which every provider other than [openrouter]
    and [endpoint] gives; no Hugging Face token is needed for
    [openrouter]. *)
Theorem get_llm_needs_credentials `{ChatLibs} (env : gmap string string)
    (model_name : string) :
  let task := default "text2text-generation" (env !! "LLM_TASK") in
  (credentials_missing env → get_llm env model_name = Err RuntimeError)
  ∧ (¬ credentials_missing env →
     (llm_provider env = "openrouter"
      ∧ ∃ api_key,
          env !! "OPENROUTER_API_KEY" = Some api_key ∧ api_key ≠ ""
          ∧ get_llm env model_name
            = ChatOpenAI (default "meta-llama/llama-3.1-8b-instruct:free"
                            (env !! "OPENROUTER_MODEL")) api_key)
     ∨ (llm_provider env = "endpoint"
        ∧ ∃ endpoint_url token,
            env !! "HF_ENDPOINT_URL" = Some endpoint_url ∧ endpoint_url ≠ ""
            ∧ env !! "HUGGINGFACEHUB_API_TOKEN" = Some token ∧ token ≠ ""
            ∧ get_llm env model_name = HuggingFaceEndpoint endpoint_url task token)
     ∨ (llm_provider env ≠ "openrouter" ∧ llm_provider env ≠ "endpoint"
        ∧ ∃ token,
            env !! "HUGGINGFACEHUB_API_TOKEN" = Some token ∧ token ≠ ""
            ∧ get_llm env model_name = HuggingFaceHub model_name task token)).
Proof.
  assert (∀ key v, getenv_nonempty env key = Some v → env !! key = Some v ∧ v ≠ "")
    as Hget.
  { intros key v. unfold getenv_nonempty. destruct (env !! key) as [v'|]; [|done].
    destruct (decide (v' = "")); [done|]. by intros [= <-]. }
  intros task. unfold get_llm, credentials_missing. fold (llm_provider env). fold task.
  destruct (decide (llm_provider env = "openrouter")) as [Hopen|Hopen].
  { destruct (getenv_nonempty env "OPENROUTER_API_KEY") as [key|] eqn:Hkey.
    - split.
      + intros [(_ & ?)|[(? & _)|(Hend & _)]]; [done | done |].
        rewrite Hopen in Hend. discriminate.
      + intros _. left. split; [done|]. apply Hget in Hkey as [Hkey Hne].
        by exists key.
    - split; [done|]. intros Hnot. destruct Hnot. left. by split. }
  destruct (getenv_nonempty env "HUGGINGFACEHUB_API_TOKEN") as [token|] eqn:Htoken.
  2:{ split; [done|]. intros Hnot. destruct Hnot. right. left. by split. }
  apply Hget in Htoken as [Htoken Hne].
  destruct (decide (llm_provider env = "endpoint")) as [Hend|Hend].
  { destruct (getenv_nonempty env "HF_ENDPOINT_URL") as [url|] eqn:Hurl.
    - split.
      + by intros [(? & _)|[(_ & ?)|(_ & ?)]].
      + intros _. right. left. split; [done|]. apply Hget in Hurl as [Hurl Hne'].
        by exists url, token.
    - split; [done|]. intros Hnot. destruct Hnot. right. right. by split. }
  split.
  - by intros [(? & _)|[(_ & ?)|(? & _)]].
  - intros _. right. right. split; [done|]. split; [done|]. by exists token.
Qed.

End AppMore.

